(** * RTK Query: the thunk core and the tag calculation, embedded in Rocq

    A shallow embedding of

    - [src/endpointDefinitions.ts]: [calculateProvidedBy] and
      [expandEntityDescription];
    - [core/buildThunks.ts]: [patchQueryResult], [updateQueryResult],
      [executeEndpoint], the [condition] of [queryThunk], [prefetchThunk] and
      [calculateProvidedByThunk].

    JavaScript numbers are IEEE 754 binary64 values ([PrimFloat.float]),
    objects used as dictionaries are finite maps, the closure of [buildThunks]
    is a [Section] whose variables are the captured bindings, and the
    [async] payload creator is a computation in a small state-and-exception
    monad over a world made of a heap of context objects, a clock and a trace
    of the calls that left the executor. *)

From Stdlib Require Import ZArith.
From Stdlib Require Import Floats.PrimFloat Floats.SpecFloat Floats.FloatOps.
From Stdlib Require Import Numbers.Cyclic.Int63.Uint63.
From stdpp Require Import gmap strings list fin_maps sorting.

(** ** JavaScript values *)

Module Js.

(** The values that cross the interfaces of the thunks: arguments, payloads,
    errors and meta data are [unknown] to the code, which only tests them for
    truthiness or passes them on. *)
#[local] Unset Elimination Schemes.
Inductive value : Type :=
| VUndefined
| VNull
| VBool (b : bool)
| VNum (x : float)
| VStr (s : string)
| VObj (fields : list (string * value)).
#[local] Set Elimination Schemes.

(** [ToBoolean] on a number: [+0], [-0] and [NaN] are falsy. *)
Definition truthy_number (x : float) : bool :=
  negb (PrimFloat.eqb x 0%float || PrimFloat.is_nan x).

(** ECMAScript [ToBoolean]. *)
Definition ToBoolean (v : value) : bool :=
  match v with
  | VUndefined | VNull => false
  | VBool b => b
  | VNum x => truthy_number x
  | VStr s => match s with EmptyString => false | _ => true end
  | VObj _ => true
  end.

(** [x >= y] on numbers. *)
Definition ge (x y : float) : bool := PrimFloat.leb y x.

(** The number of an integer, exact below 2^53 in absolute value. *)
Definition number_of_Z (z : Z) : float :=
  if (z <? 0)%Z
  then PrimFloat.opp (PrimFloat.of_uint63 (Uint63.of_Z (- z)))
  else PrimFloat.of_uint63 (Uint63.of_Z z).

(** ECMAScript [TimeClip]: the time value of [new Date(t)]. It is [NaN]
    outside of +-8.64e15 and for a [t] that is not finite, and [t] truncated
    towards zero otherwise. *)
Definition TimeClip (t : float) : float :=
  match Prim2SF t with
  | S754_zero _ => 0%float
  | S754_finite s m e =>
      let z := if (0 <=? e)%Z then Z.shiftl (Z.pos m) e
               else Z.shiftr (Z.pos m) (- e) in
      if (8640000000000000 <? z)%Z then PrimFloat.nan
      else if (z =? 0)%Z then 0%float
      else number_of_Z (if s then (- z)%Z else z)
  | S754_infinity _ | S754_nan => PrimFloat.nan
  end.

(** The [TypeError] the runtime throws on a property access or a call on
    [undefined]. *)
Definition TypeError : value := VObj [("name"%string, VStr "TypeError")].

End Js.

(** ** [src/baseQueryTypes.ts] and what user code may do *)

Module BaseQueryTypes.
Import Js.

(** A call into user code completes normally or throws a value. *)
Inductive Completion (A : Type) : Type :=
| Normal (a : A)
| Throws (e : value).
Arguments Normal {A} a.
Arguments Throws {A} e.

(** What [await] is given: a promise, a plain value, or a call that threw
    before it returned one. It settles [elapsed] milliseconds after the call,
    resolved or rejected; inside a [try] the three are told apart by nothing
    else. *)
Record Async (A : Type) : Type := {
  elapsed : float;
  settles : Completion A
}.
Arguments elapsed {A} _.
Arguments settles {A} _.

(** [QueryReturnValue]: [{ error; data?; meta? } | { error?; data; meta? }].
    A property that is absent reads as [undefined]. *)
Record QueryReturnValue := {
  error : value;
  data : value;
  meta : value
}.

(** [BaseQueryFn], without the [signal], [dispatch] and [getState] of its
    second argument: [(args, api, extraOptions) => MaybePromise<QueryReturnValue>]. *)
Definition BaseQueryFn := value -> value -> Async QueryReturnValue.

End BaseQueryTypes.

(** ** [src/endpointDefinitions.ts] *)

Module EndpointDefinitions.
Import Js BaseQueryTypes.

Inductive DefinitionType := query_type | mutation_type.

(** The [context] of [QueryApi] and [MutationApi]: [Record<string, any>]. *)
Abbreviation Context := (gmap string value).

(** What a lifecycle hook did: the properties it left in [context], the
    actions it passed to [dispatch], the time it took, and the value it
    threw, if any. *)
Record HookOutcome := {
  hook_context : Context;
  hook_dispatched : list value;
  hook_elapsed : float;
  hook_throws : option value
}.

(** [FullEntityDescription<EntityType>]: [{ type; id? }]. *)
Inductive EntityId := IdNumber (n : float) | IdString (s : string).

Record FullEntityDescription := {
  type : string;
  id : option EntityId
}.

(** [EntityDescription<EntityType>]: a bare type string, or the full form. *)
Inductive EntityDescription :=
| BareType (s : string)
| FullDescription (d : FullEntityDescription).

(** [ResultDescription]: a static array, or a function of result, error and
    argument ([GetResultDescriptionFn]). *)
Inductive ResultDescription :=
| DescriptionArray (l : list EntityDescription)
| DescriptionFn (f : value -> value -> value -> list EntityDescription).

Definition AssertEntityTypes := FullEntityDescription -> FullEntityDescription.

Definition expandEntityDescription (description : EntityDescription)
  : FullEntityDescription :=
  match description with
  | BareType s => {| type := s; id := None |}
  | FullDescription d => d
  end.

Definition calculateProvidedBy
    (description : option ResultDescription)
    (result error queryArg : value)
    (assertEntityTypes : AssertEntityTypes) : list FullEntityDescription :=
  match description with
  | Some (DescriptionFn f) =>
      map assertEntityTypes (map expandEntityDescription (f result error queryArg))
  | Some (DescriptionArray l) =>
      map assertEntityTypes (map expandEntityDescription l)
  | None => []
  end.

(** [EndpointDefinition]: [BaseEndpointDefinition] with the extra options of a
    query or of a mutation. Hooks are given the argument and the contents of
    [queryApi.context]. *)
Record EndpointDefinition := {
  definitionType : DefinitionType;
  query : option (value -> Completion value);
  queryFn : option (value -> value -> (value -> Async QueryReturnValue)
                    -> Async QueryReturnValue);
  transformResponse : option (value -> value -> Async value);
  extraOptions : value;
  provides : option ResultDescription;
  invalidates : option ResultDescription;
  onStart : option (value -> Context -> HookOutcome);
  onError : option (value -> Context -> value -> value -> HookOutcome);
  onSuccess : option (value -> Context -> value -> value -> HookOutcome)
}.

Abbreviation EndpointDefinitions := (gmap string EndpointDefinition).

End EndpointDefinitions.

(** ** [core/apiState.ts] *)

Module ApiState.
Import Js.

Inductive QueryStatus := uninitialized | pending | fulfilled | rejected.

#[global] Instance QueryStatus_eq_dec : EqDecision QueryStatus.
Proof. solve_decision. Defined.

(** [boolean | number], the type of [forceRefetch] and of
    [refetchOnMountOrArgChange]. *)
Inductive BoolOrNumber := IsBool (b : bool) | IsNumber (n : float).

(** [QuerySubState]: one cache entry. [data = None] is an entry without a
    [data] property. *)
Record QuerySubState := {
  status : QueryStatus;
  requestId : option string;
  data : option value;
  error : option value;
  startedTimeStamp : option float;
  fulfilledTimeStamp : option float
}.

Record ConfigState := {
  refetchOnMountOrArgChange : BoolOrNumber
}.

(** [CombinedState]: the slice under [reducerPath]. *)
Record CombinedState := {
  queries : gmap string QuerySubState;
  config : ConfigState
}.

End ApiState.

(** ** [core/buildThunks.ts] *)

Module BuildThunks.
Import Js BaseQueryTypes EndpointDefinitions ApiState.

(** *** Types of the module *)

Record QueryThunkArg := {
  queryCacheKey : string;
  subscribe : option bool;
  forceRefetch : option BoolOrNumber;
  originalArgs : value;
  endpointName : string;
  startedTimeStamp : float
}.

Record MutationThunkArg := {
  mutation_originalArgs : value;
  mutation_endpointName : string;
  track : option bool;
  mutation_startedTimeStamp : float
}.

(** [QueryThunkArg<InternalQueryArgs> | MutationThunkArg<InternalQueryArgs>]. *)
Inductive ThunkArg :=
| OfQuery (a : QueryThunkArg)
| OfMutation (a : MutationThunkArg).

Definition arg_endpointName (arg : ThunkArg) : string :=
  match arg with
  | OfQuery a => endpointName a
  | OfMutation a => mutation_endpointName a
  end.

Definition arg_originalArgs (arg : ThunkArg) : value :=
  match arg with
  | OfQuery a => originalArgs a
  | OfMutation a => mutation_originalArgs a
  end.

Record ThunkResult := {
  fulfilledTimeStamp : float;
  result : value
}.

(** What the payload creator returns: a [ThunkResult], or the object that
    [rejectWithValue] makes. *)
Inductive PayloadCreatorResult :=
| FulfillWith (r : ThunkResult)
| RejectWithValue (payload : value).

(** [HandledError.ts]: the class of the error the executor throws for an
    [error] reported by the transport. Anything else that is thrown is a value
    of user code or of the runtime. *)
Inductive Thrown :=
| HandledError (value meta : value)
| OtherError (e : value).

(** [Patch] of immer. *)
Inductive PatchOp := replace | remove | add.

Record Patch := {
  op : PatchOp;
  path : list value;
  patch_value : value
}.

Record PatchCollection := {
  patches : list Patch;
  inversePatches : list Patch
}.

(** [api.internalActions]: the one action the patch thunks dispatch. *)
Inductive InternalAction :=
| queryResultPatched (queryCacheKey : string) (patches : list Patch).

(** [PrefetchOptions]: [{ force?: boolean } | { ifOlderThan?: false | number }];
    a call site may merge the two. [None] is a property that is not there. *)
Record PrefetchOptions := {
  force : option bool;
  ifOlderThan : option BoolOrNumber
}.

(** *** Truthiness and coercions of the typed options *)

(** [if (x)] for [x : number | undefined]. *)
Definition truthy_timestamp (x : option float) : bool :=
  match x with
  | Some t => truthy_number t
  | None => false
  end.

(** [if (x)] for [x : boolean | number | undefined]. *)
Definition truthy (x : option BoolOrNumber) : bool :=
  match x with
  | Some (IsBool b) => b
  | Some (IsNumber n) => truthy_number n
  | None => false
  end.

(** [Number(x)] for [x : number | undefined]. *)
Definition Number (x : option float) : float :=
  match x with
  | Some t => t
  | None => PrimFloat.nan
  end.

(** [Number(new Date(x))] for [x : number | undefined]. *)
Definition Number_new_Date (x : option float) : float := TimeClip (Number x).

(** [ToNumber], as [>=] applies it to [x : boolean | number | undefined]. *)
Definition ToNumber (x : option BoolOrNumber) : float :=
  match x with
  | Some (IsBool true) => 1%float
  | Some (IsBool false) => 0%float
  | Some (IsNumber n) => n
  | None => PrimFloat.nan
  end.

(** [a ?? b]. *)
Definition nullish_coalescing {A} (a b : option A) : option A :=
  match a with
  | Some x => Some x
  | None => b
  end.

(** [subscribe && base] for [subscribe : boolean | undefined]. *)
Definition logical_and (subscribe : option bool) (base : BoolOrNumber)
  : option BoolOrNumber :=
  match subscribe with
  | None => None
  | Some false => Some (IsBool false)
  | Some true => Some base
  end.

(** [x === true]. *)
Definition is_true (x : option BoolOrNumber) : bool :=
  match x with
  | Some (IsBool true) => true
  | _ => false
  end.

(** [(now - ts) / 1000]: the age in seconds of a time stamp. *)
Definition seconds_since (now ts : float) : float :=
  PrimFloat.div (PrimFloat.sub now ts) 1000%float.

(** *** The world of an execution

    [executeEndpoint] is an [async] function that creates an object, reads the
    clock and calls into user code. A run is modelled against a [World]: the
    heap of the [context] objects allocated so far (by address), the clock,
    and the trace of the calls the executor makes, oldest first. The event of
    a hook call records the object the hook was given, the properties it saw
    in it and the properties it left. What user code does inside a call is
    part of that call: the calls of [baseQuery] that a [queryFn] makes through
    the callback it is given leave no event of their own. *)

Inductive Event :=
| EvOnStart (context : positive) (seen after : Context) (arg : value)
| EvQuery (arg : value)
| EvBaseQuery (request extraOptions : value)
| EvQueryFn (arg extraOptions : value)
| EvOnSuccess (context : positive) (seen after : Context) (arg data meta : value)
| EvDateNow (t : float)
| EvTransformResponse (data meta : value)
| EvOnError (context : positive) (seen after : Context) (arg error meta : value)
| EvDispatch (action : value).

Record World := {
  heap : gmap positive Context;
  clock : float;
  trace : list Event
}.

(** A computation ends by returning or by throwing; the world it leaves is
    there in both cases. *)
Inductive Outcome (A : Type) : Type :=
| Returned (a : A)
| Threw (e : Thrown).
Arguments Returned {A} a.
Arguments Threw {A} e.

Definition Exec (A : Type) : Type := World -> Outcome A * World.

Definition ret {A} (a : A) : Exec A := fun w => (Returned a, w).

Definition throw {A} (e : Thrown) : Exec A := fun w => (Threw e, w).

Definition bind {A B} (m : Exec A) (k : A -> Exec B) : Exec B :=
  fun w =>
    match m w with
    | (Returned a, w') => k a w'
    | (Threw e, w') => (Threw e, w')
    end.

(** [try { m } catch (error) { handler(error) }]. *)
Definition try_catch {A} (m : Exec A) (handler : Thrown -> Exec A) : Exec A :=
  fun w =>
    match m w with
    | (Returned a, w') => (Returned a, w')
    | (Threw e, w') => handler e w'
    end.

#[global] Instance Exec_ret : MRet Exec := @ret.
#[global] Instance Exec_bind : MBind Exec := fun A B k m => bind m k.

Definition log (ev : Event) : Exec unit :=
  fun w => (Returned tt,
            {| heap := heap w; clock := clock w; trace := trace w ++ [ev] |}).

(** [const context = {}]: a new object, at an address the heap does not use. *)
Definition new_context : Exec positive :=
  fun w =>
    let address := fresh (dom (heap w)) in
    (Returned address,
     {| heap := <[address := ∅]> (heap w); clock := clock w; trace := trace w |}).

(** A call of a lifecycle hook with the object at [context]: the hook sees
    the properties the object has now and leaves its own there, also when it
    throws; what it dispatched enters the trace after the call, and the clock
    has advanced by the time the call took. *)
Definition call_hook (context : positive) (ev : Context -> Context -> Event)
    (hook : Context -> HookOutcome) : Exec unit :=
  fun w =>
    let seen := default ∅ (heap w !! context) in
    let outcome := hook seen in
    let w' := {| heap := <[context := hook_context outcome]> (heap w);
                 clock := PrimFloat.add (clock w) (hook_elapsed outcome);
                 trace := trace w ++ ev seen (hook_context outcome)
                                  :: map EvDispatch (hook_dispatched outcome) |} in
    match hook_throws outcome with
    | None => (Returned tt, w')
    | Some e => (Threw (OtherError e), w')
    end.

(** A synchronous call into user code. *)
Definition call {A} (ev : Event) (c : Completion A) : Exec A :=
  fun w =>
    let w' := {| heap := heap w; clock := clock w; trace := trace w ++ [ev] |} in
    match c with
    | Normal a => (Returned a, w')
    | Throws e => (Threw (OtherError e), w')
    end.

(** [await p], the call that made [p] being [ev]: the clock has advanced by
    the time [p] took to settle. *)
Definition await {A} (ev : Event) (p : Async A) : Exec A :=
  fun w =>
    let w' := {| heap := heap w;
                 clock := PrimFloat.add (clock w) (elapsed p);
                 trace := trace w ++ [ev] |} in
    match settles p with
    | Normal a => (Returned a, w')
    | Throws e => (Threw (OtherError e), w')
    end.

(** [Date.now()]. *)
Definition Date_now : Exec float :=
  fun w =>
    (Returned (clock w),
     {| heap := heap w; clock := clock w; trace := trace w ++ [EvDateNow (clock w)] |}).

Definition defaultTransformResponse (baseQueryReturnValue : value) : value :=
  baseQueryReturnValue.

(** A plain value under [await]. *)
Definition resolved {A} (a : A) : Async A :=
  {| elapsed := 0%float; settles := Normal a |}.

(** *** Reading a trace *)

(** The hook call of an event: the object the hook was given, the
    properties it saw and the properties it left. *)
Definition hook_call (ev : Event) : option (positive * Context * Context) :=
  match ev with
  | EvOnStart context seen after _ => Some (context, seen, after)
  | EvOnSuccess context seen after _ _ _ => Some (context, seen, after)
  | EvOnError context seen after _ _ _ => Some (context, seen, after)
  | _ => None
  end.

Definition is_onError (ev : Event) : bool :=
  match ev with
  | EvOnError _ _ _ _ _ _ => true
  | _ => false
  end.

(** The hook calls of [events] share the object at [context], whose
    properties were [current] before them: every call was given that object,
    and saw in it what the call before it left. *)
Fixpoint shared_context (context : positive) (current : Context)
    (events : list Event) : Prop :=
  match events with
  | [] => True
  | ev :: events =>
      match hook_call ev with
      | Some (c, seen, after) =>
          c = context /\ seen = current /\ shared_context context after events
      | None => shared_context context current events
      end
  end.

(** The properties of the shared object after [events]. *)
Fixpoint context_after (current : Context) (events : list Event) : Context :=
  match events with
  | [] => current
  | ev :: events =>
      match hook_call ev with
      | Some (_, _, after) => context_after after events
      | None => context_after current events
      end
  end.

(** A computation that runs with the object at [context] allocated: it adds
    to the trace, its hook calls share the object, and the heap differs at
    most in the properties of that object. *)
Definition steady {A} (context : positive) (m : Exec A) : Prop :=
  forall w current,
    heap w !! context = Some current ->
    exists events,
      trace (m w).2 = trace w ++ events
      /\ shared_context context current events
      /\ heap (m w).2 = <[context := context_after current events]> (heap w).

(** *** [buildThunks]

    The bindings the closure captures are the variables of the section:
    [baseQuery], [context.endpointDefinitions], [serializeQueryArgs], and
    immer's [isDraftable] and [produceWithPatches]. The state the thunks read
    is the slice under [reducerPath]. *)

Section buildThunks.

Variable baseQuery : BaseQueryFn.
Variable endpointDefinitions : EndpointDefinitions.
Variable serializeQueryArgs : value -> option EndpointDefinition -> string -> string.
Variable isDraftable : value -> bool.
Variable produceWithPatches : value -> (value -> value) -> value * list Patch * list Patch.

(** The cache key of an endpoint and an argument:
    [serializeQueryArgs({ queryArgs, endpointDefinition, endpointName })]. *)
Definition computedKey (endpointName : string) (queryArgs : value) : string :=
  serializeQueryArgs queryArgs (endpointDefinitions !! endpointName) endpointName.

(** Modelled from the spec: the entry that stands for a key the cache does
    not hold ([buildSelectors] is not among the sources). Its status is the
    first of [uninitialized | pending | fulfilled | rejected], and nothing
    else is known of it. *)
Definition defaultQuerySubState : QuerySubState :=
  {| status := uninitialized; requestId := None; ApiState.data := None;
     ApiState.error := None; ApiState.startedTimeStamp := None;
     ApiState.fulfilledTimeStamp := None |}.

(** Modelled from the spec: the selector [api.endpoints[endpointName].select]
    ([buildSelectors] is not among the sources). A cache entry is keyed by
    the serialized pair of endpoint name and argument; where the table has no
    entry for the key the selector answers with the uninitialized one. *)
Definition select (endpointName : string) (args : value) (state : CombinedState)
  : QuerySubState :=
  default defaultQuerySubState (queries state !! computedKey endpointName args).

(** Modelled from the spec: the action creator
    [api.endpoints[endpointName].initiate] ([buildInitiate] is not among the
    sources). The serializer computes the key, and the query thunk is
    dispatched for it with the forced-refetch flag that was asked for; the
    caller becomes a subscriber. The result is the argument the query thunk is
    dispatched with. *)
Definition initiate (endpointName : string) (arg : value)
    (forceRefetch : option BoolOrNumber) (now : float) : QueryThunkArg :=
  {| queryCacheKey := computedKey endpointName arg;
     subscribe := Some true;
     forceRefetch := forceRefetch;
     originalArgs := arg;
     endpointName := endpointName;
     startedTimeStamp := now |}.

(** [patchQueryResult(endpointName, args, patches)(dispatch)]: the actions
    dispatched. The thunk returns nothing. *)
Definition patchQueryResult (endpointName : string) (args : value)
    (patches : list Patch) : list InternalAction :=
  let endpointDefinition := endpointDefinitions !! endpointName in
  [queryResultPatched (serializeQueryArgs args endpointDefinition endpointName) patches].

(** [updateQueryResult(endpointName, args, updateRecipe)(dispatch, getState)]:
    the value returned and the actions dispatched. *)
Definition updateQueryResult (endpointName : string) (args : value)
    (updateRecipe : value -> value) (state : CombinedState)
  : PatchCollection * list InternalAction :=
  let currentState := select endpointName args state in
  let ret := {| patches := []; inversePatches := [] |} in
  if bool_decide (status currentState = uninitialized) then (ret, [])
  else
    let ret :=
      match ApiState.data currentState with
      | Some data =>
          if isDraftable data then
            let '(_, patches', inversePatches') := produceWithPatches data updateRecipe in
            {| patches := patches ret ++ patches';
               inversePatches := inversePatches ret ++ inversePatches' |}
          else
            let value := updateRecipe data in
            {| patches := patches ret ++ [{| op := replace; path := []; patch_value := value |}];
               inversePatches := inversePatches ret
                                 ++ [{| op := replace; path := []; patch_value := data |}] |}
      | None => ret
      end in
    (ret, patchQueryResult endpointName args (patches ret)).

(** The transport step of [executeEndpoint] (the [if (endpointDefinition.query)]
    statement): the result awaited, and the [transformResponse] in force after
    it. An endpoint with neither [query] nor [queryFn] makes the call of
    [queryFn] a [TypeError]. [queryFn] is given the callback
    [(arg) => baseQuery(arg, baseQueryApi, extraOptions)]; the promise it
    returns stands for its whole run, the calls it makes through the
    callback included. *)
Definition runTransport (endpointDefinition : EndpointDefinition) (arg : ThunkArg)
  : Exec (QueryReturnValue * (value -> value -> Async value)) :=
  let transformResponse := fun v (_ : value) => resolved (defaultTransformResponse v) in
  match query endpointDefinition with
  | Some query =>
      request ← call (EvQuery (arg_originalArgs arg)) (query (arg_originalArgs arg));
      result ← await (EvBaseQuery request (extraOptions endpointDefinition))
                     (baseQuery request (extraOptions endpointDefinition));
      mret (result,
            match EndpointDefinitions.transformResponse endpointDefinition with
            | Some f => f
            | None => transformResponse
            end)
  | None =>
      match queryFn endpointDefinition with
      | Some queryFn =>
          result ← await (EvQueryFn (arg_originalArgs arg) (extraOptions endpointDefinition))
                         (queryFn (arg_originalArgs arg) (extraOptions endpointDefinition)
                                  (fun a => baseQuery a (extraOptions endpointDefinition)));
          mret (result, transformResponse)
      | None => throw (OtherError TypeError)
      end
  end.

(** The three statements of [executeEndpoint] that call a lifecycle hook,
    each guarded by the hook being defined. [context] is the address of the
    object in [queryApi.context]. *)
Definition callOnStart (endpointDefinition : EndpointDefinition) (arg : ThunkArg)
    (context : positive) : Exec unit :=
  match onStart endpointDefinition with
  | Some onStart =>
      call_hook context
        (fun seen after => EvOnStart context seen after (arg_originalArgs arg))
        (fun seen => onStart (arg_originalArgs arg) seen)
  | None => mret tt
  end.

Definition callOnSuccess (endpointDefinition : EndpointDefinition) (arg : ThunkArg)
    (context : positive) (result : QueryReturnValue) : Exec unit :=
  match onSuccess endpointDefinition with
  | Some onSuccess =>
      call_hook context
        (fun seen after => EvOnSuccess context seen after (arg_originalArgs arg)
                                      (BaseQueryTypes.data result) (meta result))
        (fun seen => onSuccess (arg_originalArgs arg) seen
                               (BaseQueryTypes.data result) (meta result))
  | None => mret tt
  end.

(** [error instanceof HandledError ? error.value : error] and
    [error instanceof HandledError ? error.meta : undefined]. *)
Definition error_value (error : Thrown) : value :=
  match error with
  | HandledError value _ => value
  | OtherError e => e
  end.

Definition error_meta (error : Thrown) : value :=
  match error with
  | HandledError _ meta => meta
  | OtherError _ => VUndefined
  end.

Definition callOnError (endpointDefinition : EndpointDefinition) (arg : ThunkArg)
    (context : positive) (error : Thrown) : Exec unit :=
  match onError endpointDefinition with
  | Some onError =>
      call_hook context
        (fun seen after => EvOnError context seen after (arg_originalArgs arg)
                                    (error_value error) (error_meta error))
        (fun seen => onError (arg_originalArgs arg) seen
                             (error_value error) (error_meta error))
  | None => mret tt
  end.

(** The body of the [try] statement of [executeEndpoint]. *)
Definition tryBlock (endpointDefinition : EndpointDefinition) (arg : ThunkArg)
    (context : positive) : Exec PayloadCreatorResult :=
  transport ← runTransport endpointDefinition arg;
  let result := fst transport in
  let transformResponse := snd transport in
  if ToBoolean (BaseQueryTypes.error result)
  then throw (HandledError (BaseQueryTypes.error result) (meta result))
  else
    callOnSuccess endpointDefinition arg context result;;
    now ← Date_now;
    transformed ← await (EvTransformResponse (BaseQueryTypes.data result) (meta result))
                        (transformResponse (BaseQueryTypes.data result) (meta result));
    mret (FulfillWith {| fulfilledTimeStamp := now; result := transformed |}).

(** The [catch (error)] clause of [executeEndpoint]. *)
Definition catchBlock (endpointDefinition : EndpointDefinition) (arg : ThunkArg)
    (context : positive) (error : Thrown) : Exec PayloadCreatorResult :=
  callOnError endpointDefinition arg context error;;
  match error with
  | HandledError value _ => mret (RejectWithValue value)
  | OtherError _ => throw error
  end.

(** [executeEndpoint(arg, { signal, rejectWithValue, ...api })]. Reading
    [onStart] of an endpoint that is not defined is a [TypeError], thrown
    before the [try] statement is entered. *)
Definition executeEndpoint (arg : ThunkArg) : Exec PayloadCreatorResult :=
  let endpointDefinition := endpointDefinitions !! arg_endpointName arg in
  context ← new_context;
  match endpointDefinition with
  | None => throw (OtherError TypeError)
  | Some endpointDefinition =>
      callOnStart endpointDefinition arg context;;
      try_catch (tryBlock endpointDefinition arg context)
                (catchBlock endpointDefinition arg context)
  end.

(** *** What an execution is given

    The inputs of an execution, read off the endpoint definition and the
    transport: what the transport step comes to, and the properties the hooks
    leave in the context. The theorems relate [executeEndpoint] to them. *)

(** The transport step resolves to [response]: the request builder returns a
    request for which [baseQuery] resolves to it, or, for an endpoint without
    [query], [queryFn] resolves to it. *)
Definition transport_resolves (endpointDefinition : EndpointDefinition) (args : value)
    (response : QueryReturnValue) : Prop :=
  match query endpointDefinition with
  | Some query =>
      exists request,
        query args = Normal request
        /\ settles (baseQuery request (extraOptions endpointDefinition)) = Normal response
  | None =>
      exists queryFn,
        EndpointDefinitions.queryFn endpointDefinition = Some queryFn
        /\ settles (queryFn args (extraOptions endpointDefinition)
                            (fun a => baseQuery a (extraOptions endpointDefinition)))
           = Normal response
  end.

(** The transport step throws [e]: the request builder throws it, or
    [baseQuery] rejects with it, or [queryFn] does; calling a [queryFn] that
    is not there is a [TypeError]. *)
Definition transport_throws (endpointDefinition : EndpointDefinition) (args : value)
    (e : value) : Prop :=
  match query endpointDefinition with
  | Some query =>
      query args = Throws e
      \/ exists request,
           query args = Normal request
           /\ settles (baseQuery request (extraOptions endpointDefinition)) = Throws e
  | None =>
      match queryFn endpointDefinition with
      | Some queryFn =>
          settles (queryFn args (extraOptions endpointDefinition)
                           (fun a => baseQuery a (extraOptions endpointDefinition)))
          = Throws e
      | None => e = TypeError
      end
  end.

(** The properties of the context once [onStart] has been called on the new
    object, and once [onSuccess] has been called after it with the data and
    meta of [response]. *)
Definition context_started (endpointDefinition : EndpointDefinition) (args : value)
  : Context :=
  match onStart endpointDefinition with
  | Some onStart => hook_context (onStart args ∅)
  | None => ∅
  end.

Definition context_succeeded (endpointDefinition : EndpointDefinition) (args : value)
    (response : QueryReturnValue) : Context :=
  match onSuccess endpointDefinition with
  | Some onSuccess =>
      hook_context (onSuccess args (context_started endpointDefinition args)
                              (BaseQueryTypes.data response) (meta response))
  | None => context_started endpointDefinition args
  end.

(** The [condition] of [queryThunk], and the locals it computes first. [now]
    is what [Number(new Date())] reads. *)
Definition requestState (arg : QueryThunkArg) (state : CombinedState)
  : option QuerySubState :=
  queries state !! queryCacheKey arg.

Definition fulfilledVal (arg : QueryThunkArg) (state : CombinedState) : option float :=
  requestState arg state ≫= ApiState.fulfilledTimeStamp.

Definition refetchVal (arg : QueryThunkArg) (state : CombinedState)
  : option BoolOrNumber :=
  let baseFetchOnMountOrArgChange := refetchOnMountOrArgChange (config state) in
  nullish_coalescing (forceRefetch arg)
                     (logical_and (subscribe arg) baseFetchOnMountOrArgChange).

Definition condition (arg : QueryThunkArg) (state : CombinedState) (now : float) : bool :=
  if bool_decide (status <$> requestState arg state = Some pending) then false
  else if truthy_timestamp (fulfilledVal arg state) then
    if truthy (refetchVal arg state) then
      is_true (refetchVal arg state)
      || ge (seconds_since now (Number (fulfilledVal arg state)))
            (ToNumber (refetchVal arg state))
    else false
  else true.

Definition hasTheForce (options : PrefetchOptions) : bool :=
  bool_decide (is_Some (force options)).

Definition hasMaxAge (options : PrefetchOptions) : bool :=
  bool_decide (is_Some (ifOlderThan options)).

(** [prefetchThunk(endpointName, arg, options)(dispatch, getState)]: the
    arguments the query thunk is dispatched with, through [initiate]. [now]
    is what [Number(new Date())] reads. *)
Definition prefetchThunk (endpointName : string) (arg : value)
    (options : PrefetchOptions) (state : CombinedState) (now : float)
  : list QueryThunkArg :=
  let force := hasTheForce options && default false (BuildThunks.force options) in
  let maxAge := if hasMaxAge options then ifOlderThan options else Some (IsBool false) in
  let queryAction := fun force : bool =>
    initiate endpointName arg (Some (IsBool force)) now in
  let latestStateValue := select endpointName arg state in
  if force then [queryAction true]
  else if truthy maxAge then
    let lastFulfilledTs := ApiState.fulfilledTimeStamp latestStateValue in
    if negb (truthy_timestamp lastFulfilledTs) then [queryAction true]
    else
      let shouldRetrigger :=
        ge (seconds_since now (Number_new_Date lastFulfilledTs)) (ToNumber maxAge) in
      if shouldRetrigger then [queryAction true] else []
  else [queryAction false].

(** Whether a dispatch of [queryThunk] with [arg] runs the payload creator:
    [createAsyncThunk] does unless [condition] returns [false]. *)
Definition starts_query (state : CombinedState) (now : float) (arg : QueryThunkArg) : bool :=
  condition arg state now.

(** Whether the prefetch makes a query run: one of the query thunks it
    dispatches passes the run condition. The two clock readings are those of
    [prefetchThunk] and of [condition]. *)
Definition prefetch_performs_query (endpointName : string) (arg : value)
    (options : PrefetchOptions) (state : CombinedState) (now now' : float) : bool :=
  existsb (starts_query state now') (prefetchThunk endpointName arg options state now).

End buildThunks.

(** *** [calculateProvidedByThunk] *)

(** The action a dispatched thunk resolves to, as [createAsyncThunk] builds
    it: [fulfilled] with the [ThunkResult] as payload, or [rejected] with the
    value given to [rejectWithValue] as payload when
    [meta.rejectedWithValue] is set. *)
Inductive ThunkAction :=
| ActionFulfilled (arg : ThunkArg) (requestId : string) (payload : ThunkResult)
| ActionRejected (arg : ThunkArg) (requestId : string) (rejectedWithValue : bool)
                 (payload : value) (error : value).

Definition action_arg (action : ThunkAction) : ThunkArg :=
  match action with
  | ActionFulfilled arg _ _ => arg
  | ActionRejected arg _ _ _ _ => arg
  end.

(** [isFulfilled(action)] and [isRejectedWithValue(action)] of Redux Toolkit. *)
Definition isFulfilled (action : ThunkAction) : bool :=
  match action with
  | ActionFulfilled _ _ _ => true
  | ActionRejected _ _ _ _ _ => false
  end.

Definition isRejectedWithValue (action : ThunkAction) : bool :=
  match action with
  | ActionFulfilled _ _ _ => false
  | ActionRejected _ _ rejectedWithValue _ _ => rejectedWithValue
  end.

(** [action.payload.result] and [action.payload]. *)
Definition payload_result (action : ThunkAction) : value :=
  match action with
  | ActionFulfilled _ _ payload => result payload
  | ActionRejected _ _ _ _ _ => VUndefined
  end.

Definition payload_value (action : ThunkAction) : value :=
  match action with
  | ActionFulfilled _ _ _ => VUndefined
  | ActionRejected _ _ _ payload _ => payload
  end.

(** [type: 'provides' | 'invalidates'] and [endpointDefinition[type]]. *)
Inductive DescriptionKey := provides_key | invalidates_key.

Definition description (type : DescriptionKey) (endpointDefinition : EndpointDefinition)
  : option ResultDescription :=
  match type with
  | provides_key => provides endpointDefinition
  | invalidates_key => invalidates endpointDefinition
  end.

(** [calculateProvidedByThunk(action, type, endpointDefinitions, assertEntityType)].
    Reading [type] of an endpoint that is not defined is a [TypeError]. *)
Definition calculateProvidedByThunk (action : ThunkAction) (type : DescriptionKey)
    (endpointDefinitions : EndpointDefinitions) (assertEntityType : AssertEntityTypes)
  : Completion (list FullEntityDescription) :=
  match endpointDefinitions !! arg_endpointName (action_arg action) with
  | None => Throws TypeError
  | Some endpointDefinition =>
      Normal (calculateProvidedBy
                (description type endpointDefinition)
                (if isFulfilled action then payload_result action else VUndefined)
                (if isRejectedWithValue action then payload_value action else VUndefined)
                (arg_originalArgs (action_arg action))
                assertEntityType)
  end.

(** Modelled from the spec: what the invalidation engine computes when an
    execution has settled (the middleware that calls
    [calculateProvidedByThunk] is not among the sources). On the fulfilment
    or the rejection of a mutation it computes the invalidated tag set from
    the mutation's [invalidates] descriptor; the settling of a query
    invalidates nothing. *)
Definition invalidatedBy (action : ThunkAction)
    (endpointDefinitions : EndpointDefinitions) (assertEntityType : AssertEntityTypes)
  : option (Completion (list FullEntityDescription)) :=
  match action_arg action with
  | OfMutation _ =>
      Some (calculateProvidedByThunk action invalidates_key endpointDefinitions
              assertEntityType)
  | OfQuery _ => None
  end.

End BuildThunks.

(** ** The life of a cache entry under dispatches of the query thunk *)

Module Lifecycle.
Import Js BaseQueryTypes EndpointDefinitions ApiState BuildThunks.

(** The cache together with the executions of the query thunk that are in
    flight, each known by its cache key and request id. *)
Record Store := {
  state : CombinedState;
  inflight : list (string * string)
}.

(** The actions of the life of a cache entry, as they reach the reducer of
    the slice: the [pending] action of the query thunk, its [fulfilled] or
    [rejected] action, and the removal of an entry. *)
Inductive SliceAction :=
| pendingAction (arg : QueryThunkArg) (requestId : string) (now : float)
| settledAction (queryCacheKey : string) (requestId : string)
                (outcome : Outcome PayloadCreatorResult)
| removedAction (queryCacheKey : string).

Inductive LifecycleEvent :=
| Dispatch (arg : QueryThunkArg) (requestId : string) (now : float)
| Settle (queryCacheKey : string) (requestId : string)
         (outcome : Outcome PayloadCreatorResult)
| Remove (queryCacheKey : string).

(** The executions in flight for a key. *)
Definition inflight_for (key : string) (s : Store) : list (string * string) :=
  filter (fun f => f.1 = key) (inflight s).

(** The cache holds a pending entry for every execution in flight. *)
Definition tracked (s : Store) : Prop :=
  Forall (fun f => status <$> queries (state s) !! f.1 = Some pending) (inflight s).

Section store.

(** The reducer of the slice ([buildSlice] is not among the sources) is what
    the store is built over. *)
Variable reducer : SliceAction -> CombinedState -> CombinedState.

(** One event. A dispatch whose run [condition] (the source's) fails starts
    nothing; one that passes has its [pending] action reduced in the same
    turn and is in flight from then on. An execution in flight may settle at
    any later event; settling what is not in flight is no event of the
    system. The removal of an entry does not end the execution that is in
    flight for it. *)
Definition step (s : Store) (ev : LifecycleEvent) : Store :=
  match ev with
  | Dispatch arg requestId now =>
      if condition arg (state s) now
      then {| state := reducer (pendingAction arg requestId now) (state s);
              inflight := (queryCacheKey arg, requestId) :: inflight s |}
      else s
  | Settle key requestId outcome =>
      if bool_decide ((key, requestId) ∈ inflight s)
      then {| state := reducer (settledAction key requestId outcome) (state s);
              inflight := filter (fun f => f ≠ (key, requestId)) (inflight s) |}
      else s
  | Remove key =>
      {| state := reducer (removedAction key) (state s); inflight := inflight s |}
  end.

Definition run (events : list LifecycleEvent) (s : Store) : Store :=
  foldl step s events.

(** The store is [tracked] whenever an event of the run is about to
    happen. *)
Fixpoint tracked_run (events : list LifecycleEvent) (s : Store) : Prop :=
  match events with
  | [] => True
  | ev :: events => tracked s /\ tracked_run events (step s ev)
  end.

End store.

(** Modelled from the spec: the write of the slice reducer on the [pending]
    action of the query thunk ([buildSlice] is not among the sources). An
    entry is created on the first dispatch for its key; it keeps its [data]
    and [fulfilledTimeStamp] through later pending states; [requestId] names
    the most recent execution. *)
Definition writePending (key requestId : string) (now : float)
    (state : CombinedState) : CombinedState :=
  let previous := default defaultQuerySubState (queries state !! key) in
  {| queries :=
       <[key := {| status := pending;
                   ApiState.requestId := Some requestId;
                   ApiState.data := ApiState.data previous;
                   ApiState.error := ApiState.error previous;
                   ApiState.startedTimeStamp := Some now;
                   ApiState.fulfilledTimeStamp := ApiState.fulfilledTimeStamp previous |}]>
       (queries state);
     config := config state |}.

(** Modelled from the spec: the entry after the [fulfilled] or [rejected]
    action of the query thunk ([buildSlice] is not among the sources). An
    entry goes pending -> fulfilled | rejected; fulfilment stores the result
    and its time stamp, rejection stores the error and keeps the [data] of an
    earlier fulfilment. *)
Definition settled (outcome : Outcome PayloadCreatorResult) (entry : QuerySubState)
  : QuerySubState :=
  match outcome with
  | Returned (FulfillWith r) =>
      {| status := fulfilled;
         ApiState.requestId := ApiState.requestId entry;
         ApiState.data := Some (result r);
         ApiState.error := None;
         ApiState.startedTimeStamp := ApiState.startedTimeStamp entry;
         ApiState.fulfilledTimeStamp := Some (BuildThunks.fulfilledTimeStamp r) |}
  | Returned (RejectWithValue payload) =>
      {| status := rejected;
         ApiState.requestId := ApiState.requestId entry;
         ApiState.data := ApiState.data entry;
         ApiState.error := Some payload;
         ApiState.startedTimeStamp := ApiState.startedTimeStamp entry;
         ApiState.fulfilledTimeStamp := ApiState.fulfilledTimeStamp entry |}
  | Threw e =>
      {| status := rejected;
         ApiState.requestId := ApiState.requestId entry;
         ApiState.data := ApiState.data entry;
         ApiState.error :=
           Some (match e with HandledError v _ => v | OtherError v => v end);
         ApiState.startedTimeStamp := ApiState.startedTimeStamp entry;
         ApiState.fulfilledTimeStamp := ApiState.fulfilledTimeStamp entry |}
  end.

(** Modelled from the spec: the write of the slice reducer on the [fulfilled]
    and [rejected] actions ([buildSlice] is not among the sources). A
    response whose request id is not the entry's current one is discarded. *)
Definition writeSettled (key requestId : string)
    (outcome : Outcome PayloadCreatorResult) (state : CombinedState) : CombinedState :=
  match queries state !! key with
  | Some entry =>
      if bool_decide (ApiState.requestId entry = Some requestId)
      then {| queries := <[key := settled outcome entry]> (queries state);
              config := config state |}
      else state
  | None => state
  end.

(** Modelled from the spec: the reducer of the slice ([buildSlice] is not
    among the sources). An entry is removed when its subscriber count has
    reached zero and the eviction grace period has elapsed, which the store
    is told by the removal action; that the execution of a removed entry goes
    on is [step]'s. *)
Definition sliceReducer (action : SliceAction) (state : CombinedState) : CombinedState :=
  match action with
  | pendingAction arg requestId now => writePending (queryCacheKey arg) requestId now state
  | settledAction key requestId outcome => writeSettled key requestId outcome state
  | removedAction key =>
      {| queries := delete key (queries state); config := config state |}
  end.

End Lifecycle.

(** ** Concrete scenarios *)

Module Scenarios.
Import Js BaseQueryTypes EndpointDefinitions ApiState BuildThunks.

(** Two readings of the clock, one minute apart. *)
Definition t0 : float := 1600000000000%float.
Definition t1 : float := 1600000060000%float.

(** A serializer that keys the cache by endpoint name alone. *)
Definition serializeByName : value -> option EndpointDefinition -> string -> string :=
  fun _ _ endpointName => endpointName.

Definition entry_fulfilled_at (ts : float) : QuerySubState :=
  {| status := fulfilled;
     requestId := Some "request-1"%string;
     ApiState.data := Some (VStr "Ada");
     ApiState.error := None;
     ApiState.startedTimeStamp := Some ts;
     ApiState.fulfilledTimeStamp := Some ts |}.

Definition entry_pending : QuerySubState :=
  {| status := pending;
     requestId := Some "request-1"%string;
     ApiState.data := None;
     ApiState.error := None;
     ApiState.startedTimeStamp := Some t0;
     ApiState.fulfilledTimeStamp := None |}.

Definition no_entries : CombinedState :=
  {| queries := ∅; config := {| refetchOnMountOrArgChange := IsBool false |} |}.

(** The cache after [getUser] was fulfilled at [t0]. *)
Definition getUser_cached : CombinedState :=
  {| queries := {[ "getUser"%string := entry_fulfilled_at t0 ]};
     config := {| refetchOnMountOrArgChange := IsBool false |} |}.

Definition getUser_pending : CombinedState :=
  {| queries := {[ "getUser"%string := entry_pending ]};
     config := {| refetchOnMountOrArgChange := IsBool false |} |}.

(** A serializer that tells the call from the endpoint, for the scenarios
    whose argument is [1], and the cache after [getUser(1)] was fulfilled at
    [t0] under the key it computes. *)
Definition serializeCall : value -> option EndpointDefinition -> string -> string :=
  fun _ _ endpointName => endpointName +:+ "(1)".

Definition getUser_1_cached : CombinedState :=
  {| queries := {[ "getUser(1)"%string := entry_fulfilled_at t0 ]};
     config := {| refetchOnMountOrArgChange := IsBool false |} |}.

Definition getUser_1_arg (forceRefetch : option BoolOrNumber) : QueryThunkArg :=
  {| queryCacheKey := "getUser(1)";
     subscribe := Some true;
     forceRefetch := forceRefetch;
     originalArgs := VNum 1%float;
     endpointName := "getUser";
     startedTimeStamp := t1 |}.

Definition getUser_arg (forceRefetch : option BoolOrNumber) : QueryThunkArg :=
  {| queryCacheKey := "getUser";
     subscribe := Some true;
     forceRefetch := forceRefetch;
     originalArgs := VNum 1%float;
     endpointName := "getUser";
     startedTimeStamp := t1 |}.

(** The query of the lifecycle tests: [onStart] dispatches [setCount(0)],
    [onSuccess] dispatches [setCount(1)], [onError] dispatches
    [setCount(-1)]. Here [onStart] also stashes the argument in the context,
    and the two later hooks dispatch what they find there. *)
Definition setCount (n : float) : value :=
  VObj [("type"%string, VStr "setCount"); ("payload"%string, VNum n)].

Definition stash_of (context : Context) : value :=
  default VUndefined (context !! "stash"%string).

Definition lifecycle_query : EndpointDefinition :=
  {| definitionType := query_type;
     query := Some (fun _ => Normal (VStr "/success"));
     queryFn := None;
     transformResponse := Some (fun data meta => {| elapsed := 5%float;
                                                   settles := Normal (VObj [("body"%string, data)]) |});
     extraOptions := VUndefined;
     provides := Some (DescriptionArray [BareType "User"]);
     invalidates := None;
     onStart := Some (fun arg context =>
       {| hook_context := <["stash"%string := arg]> context;
          hook_dispatched := [setCount 0%float];
          hook_elapsed := 1%float;
          hook_throws := None |});
     onError := Some (fun arg context error meta =>
       {| hook_context := context;
          hook_dispatched := [setCount (-1)%float; stash_of context];
          hook_elapsed := 2%float;
          hook_throws := None |});
     onSuccess := Some (fun arg context data meta =>
       {| hook_context := context;
          hook_dispatched := [setCount 1%float; stash_of context];
          hook_elapsed := 3%float;
          hook_throws := None |}) |}.

(** The same endpoint with an [onStart] that throws. *)
Definition query_onStart_throws : EndpointDefinition :=
  {| definitionType := query_type;
     query := query lifecycle_query;
     queryFn := None;
     transformResponse := None;
     extraOptions := VUndefined;
     provides := None;
     invalidates := None;
     onStart := Some (fun arg context =>
       {| hook_context := context;
          hook_dispatched := [];
          hook_elapsed := 1%float;
          hook_throws := Some (VStr "onStart failed") |});
     onError := onError lifecycle_query;
     onSuccess := onSuccess lifecycle_query |}.

(** A mutation that invalidates the user it was called for once it has a
    result, and the session as well when it is given an error. *)
Definition user_tag (arg : value) : EntityDescription :=
  FullDescription {| type := "User";
                     id := match arg with
                           | VNum n => Some (IdNumber n)
                           | _ => None
                           end |}.

Definition changed_by (result error arg : value) : list EntityDescription :=
  if ToBoolean error then [BareType "Session"; user_tag arg]
  else if ToBoolean result then [user_tag arg]
  else [].

Definition updateUser : EndpointDefinition :=
  {| definitionType := mutation_type;
     query := Some (fun arg => Normal arg);
     queryFn := None;
     transformResponse := None;
     extraOptions := VUndefined;
     provides := None;
     invalidates := Some (DescriptionFn changed_by);
     onStart := None;
     onError := None;
     onSuccess := None |}.

(** The lifecycle query with an [onSuccess] that throws, with a
    [transformResponse] that rejects, and with a request builder that
    throws. *)
Definition query_onSuccess_throws : EndpointDefinition :=
  {| definitionType := query_type;
     query := query lifecycle_query;
     queryFn := None;
     transformResponse := None;
     extraOptions := VUndefined;
     provides := None;
     invalidates := None;
     onStart := onStart lifecycle_query;
     onError := onError lifecycle_query;
     onSuccess := Some (fun arg context data meta =>
       {| hook_context := <["seen"%string := data]> context;
          hook_dispatched := [];
          hook_elapsed := 3%float;
          hook_throws := Some (VStr "onSuccess failed") |}) |}.

Definition query_transform_rejects : EndpointDefinition :=
  {| definitionType := query_type;
     query := query lifecycle_query;
     queryFn := None;
     transformResponse := Some (fun data meta =>
       {| elapsed := 5%float; settles := Throws (VStr "transform failed") |});
     extraOptions := VUndefined;
     provides := None;
     invalidates := None;
     onStart := onStart lifecycle_query;
     onError := onError lifecycle_query;
     onSuccess := onSuccess lifecycle_query |}.

Definition query_builder_throws : EndpointDefinition :=
  {| definitionType := query_type;
     query := Some (fun _ => Throws (VStr "no such route"));
     queryFn := None;
     transformResponse := None;
     extraOptions := VUndefined;
     provides := None;
     invalidates := None;
     onStart := onStart lifecycle_query;
     onError := onError lifecycle_query;
     onSuccess := onSuccess lifecycle_query |}.

Definition endpoints : EndpointDefinitions :=
  {[ "query"%string := lifecycle_query;
     "broken"%string := query_onStart_throws;
     "onSuccessThrows"%string := query_onSuccess_throws;
     "transformRejects"%string := query_transform_rejects;
     "builderThrows"%string := query_builder_throws;
     "updateUser"%string := updateUser ]}.

(** Three transports: one that answers, one that reports an error with meta
    data, one that reports the empty string as its error. *)
Definition success_response : value := VObj [("value"%string, VStr "success")].
Definition error_500 : value := VObj [("status"%string, VNum 500%float)].
Definition response_meta : value := VObj [("statusText"%string, VStr "Internal Server Error")].

Definition answering : BaseQueryFn :=
  fun _ _ => {| elapsed := 25%float;
                settles := Normal {| BaseQueryTypes.error := VUndefined;
                                     BaseQueryTypes.data := success_response;
                                     meta := VUndefined |} |}.

Definition failing : BaseQueryFn :=
  fun _ _ => {| elapsed := 25%float;
                settles := Normal {| BaseQueryTypes.error := error_500;
                                     BaseQueryTypes.data := VUndefined;
                                     meta := response_meta |} |}.

Definition failing_with_empty_string : BaseQueryFn :=
  fun _ _ => {| elapsed := 25%float;
                settles := Normal {| BaseQueryTypes.error := VStr "";
                                     BaseQueryTypes.data := VUndefined;
                                     meta := response_meta |} |}.

(** A transport that is down: the call rejects. *)
Definition unreachable : BaseQueryFn :=
  fun _ _ => {| elapsed := 25%float; settles := Throws (VStr "network down") |}.

Definition thunk_arg (endpointName : string) : ThunkArg :=
  OfQuery {| queryCacheKey := endpointName;
             subscribe := Some true;
             forceRefetch := None;
             originalArgs := VNum 1%float;
             endpointName := endpointName;
             startedTimeStamp := t0 |}.

Definition mutation_arg : ThunkArg :=
  OfMutation {| mutation_originalArgs := VNum 1%float;
                mutation_endpointName := "updateUser";
                track := Some true;
                mutation_startedTimeStamp := t0 |}.

(** A world in which nothing has run yet. *)
Definition quiet : World := {| heap := ∅; clock := t0; trace := [] |}.

End Scenarios.

(** ** Reading the events of one execution *)

Module TraceReading.
Import Js BaseQueryTypes EndpointDefinitions BuildThunks.

(** The calls [executeEndpoint] makes into user code and to the clock, named
    after the callee; the transport is [baseQuery] or [queryFn]. *)
Inductive Call :=
| OnStart | Query | Transport | OnSuccess | DateNow | TransformResponse | OnError.

#[global] Instance Call_eq_dec : EqDecision Call.
Proof. solve_decision. Defined.

(** The call an event records. An action a hook dispatched is no call of the
    executor. *)
Definition call_of (ev : Event) : option Call :=
  match ev with
  | EvOnStart _ _ _ _ => Some OnStart
  | EvQuery _ => Some Query
  | EvBaseQuery _ _ | EvQueryFn _ _ => Some Transport
  | EvOnSuccess _ _ _ _ _ _ => Some OnSuccess
  | EvDateNow _ => Some DateNow
  | EvTransformResponse _ _ => Some TransformResponse
  | EvOnError _ _ _ _ _ _ => Some OnError
  | EvDispatch _ => None
  end.

(** Where the call stands in the text of [executeEndpoint], top to bottom. *)
Definition position (c : Call) : nat :=
  match c with
  | OnStart => 0
  | Query => 1
  | Transport => 2
  | OnSuccess => 3
  | DateNow => 4
  | TransformResponse => 5
  | OnError => 6
  end.

(** The calls of a trace, oldest first. *)
Definition calls (events : list Event) : list Call := omap call_of events.

(** The events a computation adds to the trace of the world it starts in. *)
Definition events_of {A} (m : Exec A) (w : World) : list Event :=
  drop (length (trace w)) (trace (m w).2).

(** What [executeEndpoint] comes to when [error] is caught: the value an
    execution that caught it returns or throws once [onError] has returned. A
    [HandledError] becomes [rejectWithValue(error.value)]; anything else is
    thrown again. *)
Definition rethrown (error : Thrown) : Outcome PayloadCreatorResult :=
  match error with
  | HandledError value _ => Returned (RejectWithValue value)
  | OtherError _ => Threw error
  end.

(** An execution that ended with [outcome], having added [events], went
    through the [catch] clause with [error]: [onError], if the endpoint
    defines it, was called on the object at [context], which held [seen],
    with the value and meta of a [HandledError] or with the error itself and
    [undefined]; the execution threw what [onError] threw, if it threw, and
    came to [rethrown error] otherwise. *)
Definition caught (endpointDefinition : EndpointDefinition) (args : value)
    (context : positive) (seen : Context) (error : Thrown)
    (outcome : Outcome PayloadCreatorResult) (events : list Event) : Prop :=
  match onError endpointDefinition with
  | Some onError =>
      EvOnError context seen
                (hook_context (onError args seen (error_value error) (error_meta error)))
                args (error_value error) (error_meta error)
        ∈ events
      /\ outcome
         = match hook_throws (onError args seen (error_value error) (error_meta error)) with
           | Some e => Threw (OtherError e)
           | None => rethrown error
           end
  | None => (OnError ∉ calls events) /\ outcome = rethrown error
  end.

(** A hook call that is the endpoint's hook applied to what it was given:
    the properties the event records as left are those the hook leaves when
    called on the argument, the properties seen and the values of the
    event. *)
Definition hook_applied (endpointDefinition : EndpointDefinition) (ev : Event) : Prop :=
  match ev with
  | EvOnStart _ seen after arg =>
      exists onStart,
        EndpointDefinitions.onStart endpointDefinition = Some onStart
        /\ after = hook_context (onStart arg seen)
  | EvOnSuccess _ seen after arg data meta =>
      exists onSuccess,
        EndpointDefinitions.onSuccess endpointDefinition = Some onSuccess
        /\ after = hook_context (onSuccess arg seen data meta)
  | EvOnError _ seen after arg error meta =>
      exists onError,
        EndpointDefinitions.onError endpointDefinition = Some onError
        /\ after = hook_context (onError arg seen error meta)
  | _ => True
  end.

(** An execution that ran to [run], having added [events], fulfilled with
    [transformed]: the clock was read and then the transform was called on
    [data] and [meta], as the last two events and neither of them before;
    the result holds that clock reading and the transformed value, and at the
    end the clock stands at the reading plus the time [took] by the
    transform. *)
Definition fulfilled_by (transformed : value) (took : float) (data meta : value)
    (run : Outcome PayloadCreatorResult * World) (events : list Event) : Prop :=
  exists before t,
    events = before ++ [EvDateNow t; EvTransformResponse data meta]
    /\ (DateNow ∉ calls before)
    /\ (TransformResponse ∉ calls before)
    /\ run.1 = Returned (FulfillWith {| fulfilledTimeStamp := t; result := transformed |})
    /\ clock run.2 = PrimFloat.add t took.

(** A computation that adds to the trace, and only events that satisfy
    [Q]. *)
Definition adds {A} (Q : Event -> Prop) (m : Exec A) : Prop :=
  forall w,
    exists events,
      trace (m w).2 = trace w ++ events /\ Forall Q events.

(** A computation that keeps to the text between the positions [lo] and
    [hi]: it adds to the trace, and the calls it adds stand at positions from
    [lo] up to, not including, [hi], each further down than the one before. *)
Definition in_order {A} (lo hi : nat) (m : Exec A) : Prop :=
  forall w,
    exists events,
      trace (m w).2 = trace w ++ events
      /\ StronglySorted lt (position <$> calls events)
      /\ Forall (fun n => lo <= n < hi) (position <$> calls events).

End TraceReading.

(** ** The action matchers of [core/buildThunks.ts] *)

Module Matchers.

(** What the matchers read of an action: its [type], and
    [action?.meta?.arg?.endpointName], which is [undefined] as soon as one
    link of the chain is missing. *)
Record AnyAction := {
  type : string;
  meta_arg_endpointName : option string
}.

(** An async thunk of Redux Toolkit: its three action creators have the types
    [typePrefix/pending], [typePrefix/fulfilled] and [typePrefix/rejected],
    and [isPending(thunk)], [isFulfilled(thunk)] and [isRejected(thunk)]
    compare the type of an action with them. *)
Record AsyncThunk := {
  typePrefix : string
}.

Definition isPending (thunk : AsyncThunk) (action : AnyAction) : bool :=
  bool_decide (type action = typePrefix thunk +:+ "/pending").

Definition isFulfilled (thunk : AsyncThunk) (action : AnyAction) : bool :=
  bool_decide (type action = typePrefix thunk +:+ "/fulfilled").

Definition isRejected (thunk : AsyncThunk) (action : AnyAction) : bool :=
  bool_decide (type action = typePrefix thunk +:+ "/rejected").

(** [isAllOf(m1, m2)]. *)
Definition isAllOf (m1 m2 : AnyAction -> bool) (action : AnyAction) : bool :=
  m1 action && m2 action.

(** The thunks [buildThunks] creates for a [reducerPath]. *)
Definition queryThunk (reducerPath : string) : AsyncThunk :=
  {| typePrefix := reducerPath +:+ "/executeQuery" |}.

Definition mutationThunk (reducerPath : string) : AsyncThunk :=
  {| typePrefix := reducerPath +:+ "/executeMutation" |}.

Definition matchesEndpoint (endpointName : string) (action : AnyAction) : bool :=
  bool_decide (meta_arg_endpointName action = Some endpointName).

Record Matchers := {
  matchPending : AnyAction -> bool;
  matchFulfilled : AnyAction -> bool;
  matchRejected : AnyAction -> bool
}.

Definition buildMatchThunkActions (thunk : AsyncThunk) (endpointName : string) : Matchers :=
  {| matchPending := isAllOf (isPending thunk) (matchesEndpoint endpointName);
     matchFulfilled := isAllOf (isFulfilled thunk) (matchesEndpoint endpointName);
     matchRejected := isAllOf (isRejected thunk) (matchesEndpoint endpointName) |}.

End Matchers.

(** ** [src/react-hooks/buildHooks.ts] *)

Module BuildHooks.
Import Js ApiState BuildThunks.

(** [QuerySubState & RequestStatusFlags]: the entry [select] hands to the
    hooks, with the four flags beside its status. *)
Record SelectedState := {
  status : QueryStatus;
  originalArgs : value;
  requestId : option string;
  data : value;
  error : value;
  startedTimeStamp : option float;
  fulfilledTimeStamp : option float;
  isUninitialized : bool;
  isLoading : bool;
  isSuccess : bool;
  isError : bool
}.

(** [UseQueryStateDefaultResult]: the properties of the selected state, of
    which the selector sets some anew, and [isFetching]. *)
Record UseQueryStateDefaultResult := {
  substate : SelectedState;
  isFetching : bool
}.

(** [a ?? b] on values. *)
Definition nullish (v : value) : bool :=
  match v with
  | VUndefined | VNull => true
  | _ => false
  end.

Definition nullish_coalescing (a b : value) : value :=
  if nullish a then b else a.

(** [lastResult?.data]. *)
Definition lastResult_data (lastResult : option UseQueryStateDefaultResult) : value :=
  match lastResult with
  | Some lastResult => data (substate lastResult)
  | None => VUndefined
  end.

Definition defaultQueryStateSelector (currentState : SelectedState)
    (lastResult : option UseQueryStateDefaultResult) : UseQueryStateDefaultResult :=
  let data' :=
    nullish_coalescing
      (if isSuccess currentState then data currentState else lastResult_data lastResult)
      (data currentState) in
  let isFetching' := isLoading currentState in
  let isLoading' := negb (ToBoolean data') && isFetching' in
  let isSuccess' := isSuccess currentState || (isFetching' && ToBoolean data') in
  {| substate :=
       {| status := status currentState;
          originalArgs := originalArgs currentState;
          requestId := requestId currentState;
          data := data';
          error := error currentState;
          startedTimeStamp := startedTimeStamp currentState;
          fulfilledTimeStamp := fulfilledTimeStamp currentState;
          isUninitialized := isUninitialized currentState;
          isLoading := isLoading';
          isSuccess := isSuccess';
          isError := isError currentState |};
     isFetching := isFetching' |}.

Definition noPendingQueryStateSelector (currentState : SelectedState)
    (lastResult : option UseQueryStateDefaultResult) : UseQueryStateDefaultResult :=
  let selected := defaultQueryStateSelector currentState lastResult in
  if isUninitialized (substate selected) then
    {| substate :=
         {| status := pending;
            originalArgs := originalArgs (substate selected);
            requestId := requestId (substate selected);
            data := data (substate selected);
            error := error (substate selected);
            startedTimeStamp := startedTimeStamp (substate selected);
            fulfilledTimeStamp := fulfilledTimeStamp (substate selected);
            isUninitialized := false;
            isLoading := true;
            isSuccess := isSuccess (substate selected);
            isError := isError (substate selected) |};
       isFetching := true |}
  else selected.

(** A [PrefetchOptions] object as the spread sees it: a property is missing
    ([None]), or there with a value that may be [undefined] ([Some None]). *)
Record PrefetchOptionsObject := {
  force_property : option (option bool);
  ifOlderThan_property : option (option BoolOrNumber)
}.

(** What [prefetchThunk] reads of the object. It reads [force] as
    ['force' in options && options.force] and tests the result for truthiness
    only, and [ifOlderThan] likewise: a property that is [undefined] and a
    property that is missing take it the same way. *)
Definition read_options (options : PrefetchOptionsObject) : PrefetchOptions :=
  {| force := mjoin (force_property options);
     ifOlderThan := mjoin (ifOlderThan_property options) |}.

(** [{ ...defaultOptions, ...options }], each of the two possibly
    [undefined]: an own property of [options] wins, whatever its value. *)
Definition spread (defaultOptions options : option PrefetchOptionsObject)
  : PrefetchOptionsObject :=
  {| force_property :=
       match options ≫= force_property with
       | Some property => Some property
       | None => defaultOptions ≫= force_property
       end;
     ifOlderThan_property :=
       match options ≫= ifOlderThan_property with
       | Some property => Some property
       | None => defaultOptions ≫= ifOlderThan_property
       end |}.

Section buildHooks.

Variable endpointDefinitions : EndpointDefinitions.EndpointDefinitions.
Variable serializeQueryArgs :
  value -> option EndpointDefinitions.EndpointDefinition -> string -> string.

(** [usePrefetch(endpointName, defaultOptions)]: the callback it returns,
    given the argument and the options of the call site, dispatches
    [api.util.prefetchThunk] with the merged options; the result is what that
    thunk dispatches. *)
Definition usePrefetch (endpointName : string)
    (defaultOptions : option PrefetchOptionsObject)
    (arg : value) (options : option PrefetchOptionsObject)
    (state : CombinedState) (now : float) : list QueryThunkArg :=
  prefetchThunk endpointDefinitions serializeQueryArgs endpointName arg
    (read_options (spread defaultOptions options)) state now.

End buildHooks.

End BuildHooks.

(** * Properties *)

Import Js BaseQueryTypes EndpointDefinitions ApiState BuildThunks Lifecycle Scenarios.

(** ** Truthiness *)

Lemma truthy_false_cases (x : option BoolOrNumber) :
  truthy x = false <->
  x = None \/ x = Some (IsBool false)
  \/ exists n, x = Some (IsNumber n) /\ truthy_number n = false.
Proof.
  split.
  - destruct x as [[[|]|n]|]; simpl; intros H; try discriminate; eauto.
  - intros [-> | [-> | (n & -> & Hn)]]; simpl; auto.
Qed.

Lemma truthy_true_cases (x : option BoolOrNumber) :
  truthy x = true <->
  x = Some (IsBool true)
  \/ exists n, x = Some (IsNumber n) /\ truthy_number n = true.
Proof.
  split.
  - destruct x as [[[|]|n]|]; simpl; intros H; try discriminate; eauto.
  - intros [-> | (n & -> & Hn)]; simpl; auto.
Qed.

(** ** The run condition of the query thunk *)

Lemma condition_pending arg state now :
  status <$> requestState arg state = Some pending ->
  condition arg state now = false.
Proof.
  intros H. unfold condition. rewrite bool_decide_eq_true_2; auto.
Qed.

Lemma condition_not_pending arg state now :
  status <$> requestState arg state <> Some pending ->
  condition arg state now =
  if truthy_timestamp (fulfilledVal arg state) then
    if truthy (refetchVal arg state) then
      is_true (refetchVal arg state)
      || ge (seconds_since now (Number (fulfilledVal arg state)))
            (ToNumber (refetchVal arg state))
    else false
  else true.
Proof.
  intros H. unfold condition. rewrite bool_decide_eq_false_2; auto.
Qed.

(** X16. The run condition, as the code has it. It returns [false] exactly
    when the entry under the [queryCacheKey] of the argument is pending, or
    that entry has a truthy fulfilled time stamp and the refetch value is
    absent, [false], a number that is falsy (zero or [NaN]) or a number
    greater than the age [(now - fulfilledTimeStamp) / 1000] of the entry;
    and with [forceRefetch: true] it returns [true] unless the entry is
    pending. *)
Theorem condition_skips_exactly arg state now :
  (condition arg state now = false <->
     status <$> queries state !! queryCacheKey arg = Some pending
     \/ (truthy_timestamp (queries state !! queryCacheKey arg ≫= ApiState.fulfilledTimeStamp)
         = true
         /\ (refetchVal arg state = None
             \/ refetchVal arg state = Some (IsBool false)
             \/ exists n, refetchVal arg state = Some (IsNumber n)
                  /\ (truthy_number n = false
                      \/ ge (seconds_since now
                                (Number (queries state !! queryCacheKey arg
                                         ≫= ApiState.fulfilledTimeStamp))) n = false))))
  /\ (forceRefetch arg = Some (IsBool true) ->
      (condition arg state now = true <->
       status <$> queries state !! queryCacheKey arg <> Some pending)).
Proof.
  change (queries state !! queryCacheKey arg) with (requestState arg state).
  change (requestState arg state ≫= ApiState.fulfilledTimeStamp)
    with (fulfilledVal arg state).
  split.
  - destruct (decide (status <$> requestState arg state = Some pending)) as [Hp|Hp].
    { rewrite condition_pending by exact Hp. tauto. }
    rewrite condition_not_pending by exact Hp.
    destruct (truthy_timestamp (fulfilledVal arg state)) eqn:Hf.
    2:{ split; [discriminate|]. intros [?|[? _]]; [contradiction|discriminate]. }
    destruct (refetchVal arg state) as [[[|]|n]|] eqn:Hr; simpl.
    + split; [discriminate|].
      intros [?|[_ [?|[?|(n & ? & _)]]]]; try contradiction; discriminate.
    + split; [|reflexivity]. intros _. right. split; [reflexivity|]. auto.
    + destruct (truthy_number n) eqn:Hn.
      * split.
        -- intros Hge. right. split; [reflexivity|]. right. right.
           exists n. auto.
        -- intros [?|[_ [?|[?|(m & Hm & [Hm'|Hm'])]]]];
             try contradiction; try discriminate;
             injection Hm as <-; congruence.
      * split; [|reflexivity]. intros _. right. split; [reflexivity|].
        right. right. exists n. auto.
    + split; [|reflexivity]. intros _. right. split; [reflexivity|]. auto.
  - intros Hforce. split.
    + intros Hc Hp. rewrite condition_pending in Hc by exact Hp. discriminate.
    + intros Hp. rewrite condition_not_pending by exact Hp.
      unfold refetchVal. rewrite Hforce. simpl.
      destruct (truthy_timestamp _); reflexivity.
Qed.

(** C1. The condition at a refetch value of zero. The entry of [getUser(1)],
    kept under the key ["getUser(1)"] and under no other, was fulfilled a
    minute ago and is not pending; the refetch value is the number [0],
    neither absent nor [false], and the age of the entry, sixty seconds, is
    at least [0] seconds: the claim has the thunk proceed, and the condition
    returns [false]. With a refetch value of half a second it returns
    [true]. *)
Lemma condition_zero_refetch_skips :
  queries getUser_1_cached !! queryCacheKey (getUser_1_arg (Some (IsNumber 0%float)))
    = Some (entry_fulfilled_at t0)
  /\ queries getUser_1_cached !! endpointName (getUser_1_arg (Some (IsNumber 0%float)))
     = None
  /\ status (entry_fulfilled_at t0) = fulfilled
  /\ ApiState.fulfilledTimeStamp (entry_fulfilled_at t0) = Some t0
  /\ forceRefetch (getUser_1_arg (Some (IsNumber 0%float))) = Some (IsNumber 0%float)
  /\ seconds_since t1 t0 = 60%float
  /\ ge (seconds_since t1 t0) 0%float = true
  /\ condition (getUser_1_arg (Some (IsNumber 0%float))) getUser_1_cached t1 = false
  /\ condition (getUser_1_arg (Some (IsNumber 0.5%float))) getUser_1_cached t1 = true.
Proof. repeat split; vm_compute; reflexivity. Qed.

Example condition_force_proceeds :
  condition (getUser_arg (Some (IsBool true))) getUser_cached t1 = true
  /\ condition (getUser_arg (Some (IsBool true))) getUser_pending t1 = false
  /\ condition (getUser_arg None) no_entries t1 = true
  /\ condition (getUser_arg (Some (IsNumber 30%float))) getUser_cached t1 = true
  /\ condition (getUser_arg (Some (IsNumber 90%float))) getUser_cached t1 = false.
Proof. repeat split; vm_compute; reflexivity. Qed.

(** ** The prefetch thunk *)

Section prefetch.

Variable endpointDefinitions : EndpointDefinitions.
Variable serializeQueryArgs : value -> option EndpointDefinition -> string -> string.

#[local] Abbreviation key := (computedKey endpointDefinitions serializeQueryArgs).
#[local] Abbreviation prefetchThunk := (prefetchThunk endpointDefinitions serializeQueryArgs).
#[local] Abbreviation initiate := (initiate endpointDefinitions serializeQueryArgs).
#[local] Abbreviation performs :=
  (prefetch_performs_query endpointDefinitions serializeQueryArgs).

Lemma select_fulfilledTimeStamp endpointName arg state :
  ApiState.fulfilledTimeStamp (select endpointDefinitions serializeQueryArgs endpointName arg state)
  = queries state !! key endpointName arg ≫= ApiState.fulfilledTimeStamp.
Proof.
  unfold select. destruct (queries state !! _); reflexivity.
Qed.

Lemma starts_query_forced endpointName arg state now now' :
  starts_query state now' (initiate endpointName arg (Some (IsBool true)) now)
  = negb (bool_decide (status <$> queries state !! key endpointName arg = Some pending)).
Proof.
  unfold starts_query, condition, requestState, fulfilledVal, refetchVal. simpl.
  destruct (bool_decide _); [reflexivity|]. simpl.
  destruct (truthy_timestamp _); reflexivity.
Qed.

Lemma starts_query_unforced endpointName arg state now now' :
  starts_query state now' (initiate endpointName arg (Some (IsBool false)) now)
  = negb (bool_decide (status <$> queries state !! key endpointName arg = Some pending))
    && negb (truthy_timestamp (queries state !! key endpointName arg
                               ≫= ApiState.fulfilledTimeStamp)).
Proof.
  unfold starts_query, condition, requestState, fulfilledVal, refetchVal. simpl.
  destruct (bool_decide _); [reflexivity|]. simpl.
  destruct (truthy_timestamp _); reflexivity.
Qed.

Lemma prefetchThunk_no_options endpointName arg state now :
  prefetchThunk endpointName arg {| force := None; ifOlderThan := None |} state now
  = [initiate endpointName arg (Some (IsBool false)) now].
Proof. reflexivity. Qed.

(** C7. Called with neither [force] nor [ifOlderThan], the prefetch makes the
    query run exactly when the entry for the key is not pending and has no
    fulfilled time stamp: it does when there is no entry, and it does not
    when the entry has one. *)
Theorem prefetch_without_options endpointName arg state now now' :
  (performs endpointName arg {| force := None; ifOlderThan := None |} state now now' = true
   <-> status <$> queries state !! key endpointName arg <> Some pending
       /\ truthy_timestamp (queries state !! key endpointName arg
                            ≫= ApiState.fulfilledTimeStamp) = false)
  /\ (queries state !! key endpointName arg = None ->
      performs endpointName arg {| force := None; ifOlderThan := None |} state now now' = true)
  /\ (forall entry,
        queries state !! key endpointName arg = Some entry ->
        truthy_timestamp (ApiState.fulfilledTimeStamp entry) = true ->
        performs endpointName arg {| force := None; ifOlderThan := None |} state now now' = false).
Proof.
  assert (Hrun : performs endpointName arg {| force := None; ifOlderThan := None |} state now now'
    = negb (bool_decide (status <$> queries state !! key endpointName arg = Some pending))
      && negb (truthy_timestamp (queries state !! key endpointName arg
                                 ≫= ApiState.fulfilledTimeStamp))).
  { unfold prefetch_performs_query.
    rewrite prefetchThunk_no_options. simpl.
    rewrite orb_false_r. apply starts_query_unforced. }
  rewrite Hrun. split; [|split].
  - rewrite andb_true_iff, !negb_true_iff, bool_decide_eq_false. tauto.
  - intros ->. reflexivity.
  - intros entry -> Hts. simpl. rewrite Hts. apply andb_false_r.
Qed.

Lemma prefetchThunk_ifOlderThan endpointName arg force n state now :
  force = None \/ force = Some false ->
  prefetchThunk endpointName arg {| force := force; ifOlderThan := Some (IsNumber n) |} state now
  = if truthy_number n then
      if negb (truthy_timestamp (queries state !! key endpointName arg
                                 ≫= ApiState.fulfilledTimeStamp))
         || ge (seconds_since now (Number_new_Date (queries state !! key endpointName arg
                                                    ≫= ApiState.fulfilledTimeStamp))) n
      then [initiate endpointName arg (Some (IsBool true)) now]
      else []
    else [initiate endpointName arg (Some (IsBool false)) now].
Proof.
  intros Hforce.
  unfold BuildThunks.prefetchThunk, hasTheForce, hasMaxAge.
  rewrite select_fulfilledTimeStamp.
  assert (Hf : bool_decide (is_Some force) && default false force = false)
    by (destruct Hforce as [-> | ->]; reflexivity).
  cbn [BuildThunks.force BuildThunks.ifOlderThan]. rewrite Hf.
  rewrite bool_decide_eq_true_2 by eauto. cbn [truthy ToNumber].
  destruct (truthy_number n); [|reflexivity].
  destruct (truthy_timestamp _); cbn [negb orb]; [|reflexivity].
  destruct (ge _ _); reflexivity.
Qed.

(** X17. The prefetch with a numeric [ifOlderThan], as the code has it.
    Without [force], an [ifOlderThan] of [n] that is truthy (not zero, not
    [NaN]) makes the prefetch dispatch a forced query exactly when the entry
    has no fulfilled time stamp or [(now - fulfilledTimeStamp) / 1000 >= n],
    the stamp being the time value that [new Date] gives back, and the query
    then runs unless the entry is pending. With a falsy [n], zero included,
    the thunk takes the branch of a call without options: the query is
    dispatched unforced and runs exactly when the entry is not pending and
    has no fulfilled time stamp. *)
Theorem prefetch_ifOlderThan endpointName arg force n state now now' :
  force = None \/ force = Some false ->
  (truthy_number n = true ->
   prefetchThunk endpointName arg {| force := force; ifOlderThan := Some (IsNumber n) |} state now
   = (if negb (truthy_timestamp (queries state !! key endpointName arg
                                 ≫= ApiState.fulfilledTimeStamp))
         || ge (seconds_since now (Number_new_Date (queries state !! key endpointName arg
                                                    ≫= ApiState.fulfilledTimeStamp))) n
      then [initiate endpointName arg (Some (IsBool true)) now]
      else [])
   /\ ((forall ts, queries state !! key endpointName arg ≫= ApiState.fulfilledTimeStamp = Some ts ->
                   TimeClip ts = ts) ->
       (performs endpointName arg {| force := force; ifOlderThan := Some (IsNumber n) |}
                 state now now' = true
        <-> status <$> queries state !! key endpointName arg <> Some pending
            /\ (truthy_timestamp (queries state !! key endpointName arg
                                  ≫= ApiState.fulfilledTimeStamp) = false
                \/ ge (seconds_since now (Number (queries state !! key endpointName arg
                                                   ≫= ApiState.fulfilledTimeStamp))) n = true))))
  /\ (truthy_number n = false ->
      prefetchThunk endpointName arg {| force := force; ifOlderThan := Some (IsNumber n) |} state now
      = [initiate endpointName arg (Some (IsBool false)) now]
      /\ (performs endpointName arg {| force := force; ifOlderThan := Some (IsNumber n) |}
                   state now now' = true
          <-> status <$> queries state !! key endpointName arg <> Some pending
              /\ truthy_timestamp (queries state !! key endpointName arg
                                   ≫= ApiState.fulfilledTimeStamp) = false)).
Proof.
  intros Hforce.
  pose proof (prefetchThunk_ifOlderThan endpointName arg force n state now Hforce) as Heq.
  unfold prefetch_performs_query.
  rewrite Heq. clear Heq.
  split; intros Hn; rewrite Hn.
  - split; [reflexivity|]. intros Hclip.
    assert (Hdate : Number_new_Date (queries state !! key endpointName arg
                                     ≫= ApiState.fulfilledTimeStamp)
                  = Number (queries state !! key endpointName arg
                            ≫= ApiState.fulfilledTimeStamp) \/
                    truthy_timestamp (queries state !! key endpointName arg
                                      ≫= ApiState.fulfilledTimeStamp) = false).
    { destruct (queries state !! key endpointName arg ≫= ApiState.fulfilledTimeStamp)
        as [ts|] eqn:Hts; [left|right; reflexivity].
      unfold Number_new_Date. simpl. apply Hclip. reflexivity. }
    destruct (truthy_timestamp _) eqn:Hts; cbn [negb orb].
    + destruct Hdate as [-> | ?]; [|discriminate].
      destruct (ge _ _) eqn:Hge.
      * cbn [existsb]. rewrite orb_false_r.
        rewrite starts_query_forced, negb_true_iff, bool_decide_eq_false. tauto.
      * cbn [existsb]. split; [discriminate|].
        intros [_ [?|?]]; discriminate.
    + cbn [existsb]. rewrite orb_false_r.
      rewrite starts_query_forced, negb_true_iff, bool_decide_eq_false. tauto.
  - split; [reflexivity|].
    cbn [existsb]. rewrite orb_false_r.
    rewrite starts_query_unforced, andb_true_iff, !negb_true_iff, bool_decide_eq_false.
    tauto.
Qed.

End prefetch.

Lemma prefetch_ifOlderThan_witness :
  prefetchThunk ∅ serializeByName "getUser" (VNum 1%float)
    {| force := None; ifOlderThan := Some (IsNumber 30%float) |} getUser_cached t1
  = [initiate ∅ serializeByName "getUser" (VNum 1%float) (Some (IsBool true)) t1].
Proof.
  destruct (prefetch_ifOlderThan ∅ serializeByName "getUser" (VNum 1%float) None
              30%float getUser_cached t1 t1 (or_introl eq_refl)) as [H _].
  destruct (H eq_refl) as [-> _]. reflexivity.
Defined.

(** C5. The prefetch at [ifOlderThan: 0]. The entry of [getUser(1)] was
    fulfilled a minute ago and is not pending, and its age is at least [0]
    seconds: the claim has the prefetch proceed, as for an entry that is
    always stale. The thunk dispatches the query without the force flag, as
    it does for a call without options, and the run condition skips it. With
    [ifOlderThan] half a second the query is dispatched forced and runs. *)
Lemma prefetch_ifOlderThan_zero_is_off :
  queries getUser_1_cached !! computedKey ∅ serializeCall "getUser" (VNum 1%float)
    = Some (entry_fulfilled_at t0)
  /\ queries getUser_1_cached !! "getUser"%string = None
  /\ status (entry_fulfilled_at t0) = fulfilled
  /\ ApiState.fulfilledTimeStamp (entry_fulfilled_at t0) = Some t0
  /\ ge (seconds_since t1 t0) 0%float = true
  /\ prefetchThunk ∅ serializeCall "getUser" (VNum 1%float)
       {| force := None; ifOlderThan := Some (IsNumber 0%float) |} getUser_1_cached t1
     = [initiate ∅ serializeCall "getUser" (VNum 1%float) (Some (IsBool false)) t1]
  /\ prefetch_performs_query ∅ serializeCall "getUser" (VNum 1%float)
       {| force := None; ifOlderThan := Some (IsNumber 0%float) |} getUser_1_cached t1 t1
     = false
  /\ prefetchThunk ∅ serializeCall "getUser" (VNum 1%float)
       {| force := None; ifOlderThan := Some (IsNumber 0.5%float) |} getUser_1_cached t1
     = [initiate ∅ serializeCall "getUser" (VNum 1%float) (Some (IsBool true)) t1]
  /\ prefetch_performs_query ∅ serializeCall "getUser" (VNum 1%float)
       {| force := None; ifOlderThan := Some (IsNumber 0.5%float) |} getUser_1_cached t1 t1
     = true.
Proof. repeat split; vm_compute; reflexivity. Qed.

Example prefetch_spec_examples :
  prefetch_performs_query ∅ serializeByName "getUser" (VNum 1%float)
    {| force := None; ifOlderThan := None |} no_entries t1 t1 = true
  /\ prefetch_performs_query ∅ serializeByName "getUser" (VNum 1%float)
       {| force := None; ifOlderThan := None |} getUser_cached t0 t0 = false
  /\ prefetch_performs_query ∅ serializeByName "getUser" (VNum 1%float)
       {| force := None; ifOlderThan := Some (IsNumber 30%float) |} getUser_cached t1 t1 = true
  /\ TimeClip t0 = t0.
Proof. repeat split; vm_compute; reflexivity. Qed.

(** ** The manual cache patches *)

Section patches.

Variable endpointDefinitions : EndpointDefinitions.
Variable serializeQueryArgs : value -> option EndpointDefinition -> string -> string.
Variable isDraftable : value -> bool.
Variable produceWithPatches : value -> (value -> value) -> value * list Patch * list Patch.

(** C8 (as amended). [updateQueryResult] is a no-op where the cache has no
    entry for the key: it returns the empty patch sets and dispatches nothing.
    [patchQueryResult] does not look at the cache: it always dispatches one
    [queryResultPatched] action with the key and the patches it was given. *)
Theorem patch_thunks_without_entry endpointName args updateRecipe patches state :
  (queries state !! computedKey endpointDefinitions serializeQueryArgs endpointName args
     = None ->
   updateQueryResult endpointDefinitions serializeQueryArgs isDraftable produceWithPatches
     endpointName args updateRecipe state
   = ({| BuildThunks.patches := []; inversePatches := [] |}, []))
  /\ patchQueryResult endpointDefinitions serializeQueryArgs endpointName args patches
     = [queryResultPatched
          (computedKey endpointDefinitions serializeQueryArgs endpointName args)
          patches].
Proof.
  split; [|reflexivity].
  intros Hnone. unfold updateQueryResult, select. rewrite Hnone. reflexivity.
Qed.

End patches.

(** C8, the claim as stated fails for [patchQueryResult]: with no entry in
    the cache it still dispatches the patch action. *)
Lemma patchQueryResult_dispatches_without_entry :
  queries no_entries !! "getUser"%string = None
  /\ patchQueryResult ∅ serializeByName "getUser" (VNum 1%float)
       [{| op := replace; path := []; patch_value := VStr "Grace" |}]
     = [queryResultPatched "getUser"
          [{| op := replace; path := []; patch_value := VStr "Grace" |}]]
  /\ patchQueryResult ∅ serializeByName "getUser" (VNum 1%float)
       [{| op := replace; path := []; patch_value := VStr "Grace" |}]
     <> [].
Proof.
  split; [vm_compute; reflexivity|]. split; [vm_compute; reflexivity|].
  vm_compute. discriminate.
Qed.

Example updateQueryResult_replaces_cached_value :
  updateQueryResult ∅ serializeByName (fun _ => false) (fun v _ => (v, [], []))
    "getUser" (VNum 1%float) (fun _ => VStr "Grace") getUser_cached
  = ({| BuildThunks.patches := [{| op := replace; path := []; patch_value := VStr "Grace" |}];
        inversePatches := [{| op := replace; path := []; patch_value := VStr "Ada" |}] |},
     [queryResultPatched "getUser"
        [{| op := replace; path := []; patch_value := VStr "Grace" |}]]).
Proof. vm_compute. reflexivity. Qed.

(** ** The tags an endpoint provides or invalidates *)

(** C4. With an [assertEntityTypes] that hands back the tag it is given, a
    function descriptor yields its output on [(result, error, arg)] with
    every bare string [s] expanded to [{ type: s }] and every object kept; a
    static array yields the same expansion of the array, whatever the result,
    error and argument are; an absent descriptor yields the empty list. *)
Theorem calculateProvidedBy_expands (assertEntityTypes : AssertEntityTypes)
    (result error queryArg : value) :
  (forall t, assertEntityTypes t = t) ->
  (forall f,
     calculateProvidedBy (Some (DescriptionFn f)) result error queryArg assertEntityTypes
     = map expandEntityDescription (f result error queryArg))
  /\ (forall l,
        calculateProvidedBy (Some (DescriptionArray l)) result error queryArg assertEntityTypes
        = map expandEntityDescription l
        /\ forall result' error' queryArg',
             calculateProvidedBy (Some (DescriptionArray l)) result' error' queryArg'
               assertEntityTypes
             = calculateProvidedBy (Some (DescriptionArray l)) result error queryArg
                 assertEntityTypes)
  /\ calculateProvidedBy None result error queryArg assertEntityTypes = []
  /\ (forall s, expandEntityDescription (BareType s) = {| type := s; id := None |})
  /\ (forall d, expandEntityDescription (FullDescription d) = d).
Proof.
  intros Hid.
  assert (Hmap : forall l : list FullEntityDescription, map assertEntityTypes l = l).
  { induction l as [|t l IH]; simpl; [reflexivity|]. rewrite Hid, IH. reflexivity. }
  repeat split; intros; simpl; try reflexivity; apply Hmap.
Qed.

Lemma calculateProvidedBy_expands_witness :
  calculateProvidedBy
    (Some (DescriptionFn (fun _ _ arg =>
       [BareType "Post"; FullDescription {| type := "Post"; id := Some (IdString "1") |}])))
    (VStr "Ada") VUndefined (VNum 1%float) (fun t => t)
  = [{| type := "Post"; id := None |}; {| type := "Post"; id := Some (IdString "1") |}].
Proof.
  exact (proj1 (calculateProvidedBy_expands (fun t => t) (VStr "Ada") VUndefined
                  (VNum 1%float) (fun t => eq_refl)) _).
Defined.


(** ** At most one execution in flight per cache key *)

Lemma NoDup_keys_filter {A B} (P : A * B -> Prop) `{!forall x, Decision (P x)}
    (l : list (A * B)) :
  NoDup l.*1 -> NoDup (filter P l).*1.
Proof.
  induction l as [|[a b] l IH]; simpl; [intros; constructor|].
  rewrite NoDup_cons. intros [Hnotin Hnodup].
  rewrite filter_cons. destruct (decide (P (a, b))); [|auto].
  simpl. apply NoDup_cons. split; [|auto].
  intros Hin. apply Hnotin.
  apply list_elem_of_fmap in Hin as ([a' b'] & -> & Hin).
  apply list_elem_of_filter in Hin as [_ Hin].
  apply list_elem_of_fmap. exists (a', b'). auto.
Qed.

Lemma NoDup_keys_functional {A B} (l : list (A * B)) a b b' :
  NoDup l.*1 -> (a, b) ∈ l -> (a, b') ∈ l -> b = b'.
Proof.
  induction l as [|[a0 b0] l IH]; simpl.
  - intros _ Hin. inversion Hin.
  - rewrite NoDup_cons. intros [Hnotin Hnodup] Hin Hin'.
    apply elem_of_cons in Hin as [Heq | Hin];
      apply elem_of_cons in Hin' as [Heq' | Hin'].
    + congruence.
    + injection Heq as -> ->. exfalso. apply Hnotin.
      apply list_elem_of_fmap. exists (a0, b'). auto.
    + injection Heq' as -> ->. exfalso. apply Hnotin.
      apply list_elem_of_fmap. exists (a0, b). auto.
    + eauto.
Qed.

Lemma NoDup_keys_at_most_one {B} (l : list (string * B)) (key : string) :
  NoDup l.*1 -> length (filter (fun f => f.1 = key) l) <= 1.
Proof.
  induction l as [|[a b] l IH]; simpl; [lia|].
  rewrite NoDup_cons. intros [Hnotin Hnodup].
  rewrite filter_cons. destruct (decide ((a, b).1 = key)) as [Heq|Hne]; [|auto].
  simpl in Heq. subst a. simpl.
  assert (Hnil : filter (fun f : string * B => f.1 = key) l = []).
  { destruct (filter _ l) as [|[a' b'] l'] eqn:Hf; [reflexivity|]. exfalso.
    assert (Hin : (a', b') ∈ filter (fun f : string * B => f.1 = key) l)
      by (rewrite Hf; left).
    apply list_elem_of_filter in Hin as [Ha Hin]. simpl in Ha. subst a'.
    apply Hnotin. apply list_elem_of_fmap. exists (key, b'). auto. }
  rewrite Hnil. simpl. lia.
Qed.

Section store.

Variable reducer : SliceAction -> CombinedState -> CombinedState.

#[local] Abbreviation step := (step reducer).
#[local] Abbreviation run := (run reducer).
#[local] Abbreviation tracked_run := (tracked_run reducer).

Lemma tracked_in_flight_pending s key requestId :
  tracked s -> (key, requestId) ∈ inflight s ->
  status <$> queries (state s) !! key = Some pending.
Proof.
  unfold tracked. rewrite Forall_forall. intros Htracked Hin.
  exact (Htracked _ Hin).
Qed.

(** A dispatch for a key that has an execution in flight, tracked by the
    cache, is skipped. *)
Lemma dispatch_skipped s arg requestId now :
  tracked s -> queryCacheKey arg ∈ (inflight s).*1 ->
  condition arg (state s) now = false
  /\ step s (Dispatch arg requestId now) = s.
Proof.
  intros Htracked Hin.
  apply list_elem_of_fmap in Hin as ([k r] & Hk & Hin). simpl in Hk. subst k.
  assert (Hskip : condition arg (state s) now = false).
  { apply condition_pending. unfold requestState.
    eapply tracked_in_flight_pending; eauto. }
  split; [exact Hskip|]. simpl. rewrite Hskip. reflexivity.
Qed.

Lemma step_NoDup s ev :
  tracked s -> NoDup (inflight s).*1 -> NoDup (inflight (step s ev)).*1.
Proof.
  intros Htracked Hnodup. destruct ev as [arg rid now | key rid outcome | key]; simpl.
  - destruct (condition arg (state s) now) eqn:Hcond; [|exact Hnodup].
    simpl. apply NoDup_cons. split; [|exact Hnodup].
    intros Hin. destruct (dispatch_skipped s arg rid now Htracked Hin) as [Hskip _].
    congruence.
  - destruct (bool_decide _); [|exact Hnodup].
    simpl. apply NoDup_keys_filter, Hnodup.
  - exact Hnodup.
Qed.

Lemma run_NoDup events s :
  tracked_run events s -> NoDup (inflight s).*1 -> NoDup (inflight (run events s)).*1.
Proof.
  revert s. induction events as [|ev events IH]; intros s Htracked Hnodup; [exact Hnodup|].
  destruct Htracked as [Hs Hrest]. simpl. apply IH; [exact Hrest|].
  apply step_NoDup; assumption.
Qed.

Lemma tracked_run_take n events s :
  tracked_run events s -> tracked_run (take n events) s.
Proof.
  revert events s. induction n as [|n IH]; intros [|ev events] s; simpl; auto.
  intros [Hs Hrest]. split; [exact Hs|]. apply IH, Hrest.
Qed.


End store.

(** The reducer of the slice keeps the store tracked through every event but
    the removal of an entry: a run without removals is tracked throughout. *)
Lemma sliceReducer_step_tracked s ev :
  (forall key, ev <> Remove key) ->
  tracked s -> NoDup (inflight s).*1 -> tracked (step sliceReducer s ev).
Proof.
  intros Hev Htracked Hnodup.
  destruct ev as [arg rid now | key rid outcome | key]; simpl.
  - destruct (condition arg (state s) now); [|exact Htracked].
    unfold tracked in *. simpl. constructor.
    + simpl. rewrite lookup_insert_eq. reflexivity.
    + rewrite Forall_forall in *. intros f Hin.
      destruct (decide (f.1 = queryCacheKey arg)) as [->|Hne].
      * rewrite lookup_insert_eq. reflexivity.
      * rewrite lookup_insert_ne by congruence. auto.
  - destruct (bool_decide_reflect ((key, rid) ∈ inflight s)) as [Hin|Hnotin];
      [|exact Htracked].
    unfold tracked in *. simpl. rewrite Forall_forall in *. intros [k r] Hf.
    apply list_elem_of_filter in Hf as [Hne Hf]. simpl.
    assert (Hk : k <> key).
    { intros ->. apply Hne. f_equal.
      exact (NoDup_keys_functional _ _ _ _ Hnodup Hf Hin). }
    pose proof (Htracked _ Hf) as Hp. simpl in Hp.
    unfold writeSettled. destruct (queries (state s) !! key); [|exact Hp].
    destruct (bool_decide _); [|exact Hp].
    simpl. rewrite lookup_insert_ne by congruence. exact Hp.
  - exfalso. exact (Hev key eq_refl).
Qed.

Lemma sliceReducer_tracked_run events s :
  Forall (fun ev => forall key, ev <> Remove key) events ->
  tracked s -> NoDup (inflight s).*1 -> tracked_run sliceReducer events s.
Proof.
  revert s. induction events as [|ev events IH]; intros s Hevents Htracked Hnodup;
    [exact I|].
  apply Forall_cons in Hevents as [Hev Hevents].
  split; [exact Htracked|]. apply IH; [exact Hevents| |].
  - apply sliceReducer_step_tracked; assumption.
  - apply step_NoDup; assumption.
Qed.

(** ** The executor: what a run adds to the trace and to the heap *)

Lemma shared_context_app context current events1 events2 :
  shared_context context current (events1 ++ events2)
  <-> shared_context context current events1
      /\ shared_context context (context_after current events1) events2.
Proof.
  revert current. induction events1 as [|ev events1 IH]; intros current; simpl.
  - tauto.
  - destruct (hook_call ev) as [[[c seen] after]|]; rewrite IH; tauto.
Qed.

Lemma context_after_app current events1 events2 :
  context_after current (events1 ++ events2)
  = context_after (context_after current events1) events2.
Proof.
  revert current. induction events1 as [|ev events1 IH]; intros current; simpl.
  - reflexivity.
  - destruct (hook_call ev) as [[[c seen] after]|]; apply IH.
Qed.

Lemma shared_context_dispatched context current actions :
  shared_context context current (map EvDispatch actions)
  /\ context_after current (map EvDispatch actions) = current.
Proof. induction actions as [|a actions IH]; simpl; auto. Qed.

Lemma steady_unchanged {A} context (m : Exec A) :
  (forall w, exists ev,
      hook_call ev = None
      /\ (m w).2 = {| heap := heap w; clock := (m w).2.(clock); trace := trace w ++ [ev] |}) ->
  steady context m.
Proof.
  intros Hm w current Hcurrent. destruct (Hm w) as (ev & Hev & ->).
  exists [ev]. simpl. rewrite Hev. repeat split.
  symmetry. apply insert_id, Hcurrent.
Qed.

Lemma steady_ret {A} context (a : A) : steady context (mret a).
Proof.
  intros w current Hcurrent. exists []. simpl. rewrite app_nil_r.
  repeat split. symmetry. apply insert_id, Hcurrent.
Qed.

Lemma steady_throw {A} context e : steady context (@throw A e).
Proof.
  intros w current Hcurrent. exists []. simpl. rewrite app_nil_r.
  repeat split. symmetry. apply insert_id, Hcurrent.
Qed.

Lemma steady_call {A} context ev (c : Completion A) :
  hook_call ev = None -> steady context (call ev c).
Proof.
  intros Hev. apply steady_unchanged. intros w. exists ev.
  split; [exact Hev|]. unfold call. destruct c; reflexivity.
Qed.

Lemma steady_await {A} context ev (p : Async A) :
  hook_call ev = None -> steady context (await ev p).
Proof.
  intros Hev. apply steady_unchanged. intros w. exists ev.
  split; [exact Hev|]. unfold await. destruct (settles p); reflexivity.
Qed.

Lemma steady_Date_now context : steady context Date_now.
Proof.
  apply steady_unchanged. intros w. exists (EvDateNow (clock w)).
  split; reflexivity.
Qed.

Lemma steady_call_hook context ev hook :
  (forall seen after, hook_call (ev seen after) = Some (context, seen, after)) ->
  steady context (call_hook context ev hook).
Proof.
  intros Hev w current Hcurrent. unfold call_hook. rewrite Hcurrent. simpl.
  exists (ev current (hook_context (hook current))
          :: map EvDispatch (hook_dispatched (hook current))).
  destruct (shared_context_dispatched context (hook_context (hook current))
              (hook_dispatched (hook current))) as [Hshared Hafter].
  destruct (hook_throws (hook current)); simpl; rewrite Hev, Hafter; auto.
Qed.

Lemma steady_bind {A B} context (m : Exec A) (k : A -> Exec B) :
  steady context m -> (forall a, steady context (k a)) -> steady context (m ≫= k).
Proof.
  intros Hm Hk w current Hcurrent.
  destruct (Hm w current Hcurrent) as (events1 & Htrace1 & Hshared1 & Hheap1).
  unfold mbind, Exec_bind, bind.
  destruct (m w) as [[a|e] w1]; simpl in *; [|eauto].
  assert (Hcurrent1 : heap w1 !! context = Some (context_after current events1))
    by (rewrite Hheap1; apply lookup_insert_eq).
  destruct (Hk a w1 _ Hcurrent1) as (events2 & Htrace2 & Hshared2 & Hheap2).
  exists (events1 ++ events2). split; [|split].
  - rewrite Htrace2, Htrace1, app_assoc. reflexivity.
  - apply shared_context_app. auto.
  - rewrite Hheap2, Hheap1, insert_insert_eq, context_after_app. reflexivity.
Qed.

Lemma steady_try_catch {A} context (m : Exec A) (handler : Thrown -> Exec A) :
  steady context m -> (forall e, steady context (handler e)) ->
  steady context (try_catch m handler).
Proof.
  intros Hm Hk w current Hcurrent.
  destruct (Hm w current Hcurrent) as (events1 & Htrace1 & Hshared1 & Hheap1).
  unfold try_catch.
  destruct (m w) as [[a|e] w1]; simpl in *; [eauto|].
  assert (Hcurrent1 : heap w1 !! context = Some (context_after current events1))
    by (rewrite Hheap1; apply lookup_insert_eq).
  destruct (Hk e w1 _ Hcurrent1) as (events2 & Htrace2 & Hshared2 & Hheap2).
  exists (events1 ++ events2). split; [|split].
  - rewrite Htrace2, Htrace1, app_assoc. reflexivity.
  - apply shared_context_app. auto.
  - rewrite Hheap2, Hheap1, insert_insert_eq, context_after_app. reflexivity.
Qed.

Create HintDb steady.

#[local] Hint Resolve steady_ret steady_throw steady_call steady_await
  steady_Date_now steady_call_hook steady_bind steady_try_catch : steady.

(** ** The calls of an execution, in the order of the text *)

Section call_order.

Import TraceReading.

Lemma calls_app events1 events2 : calls (events1 ++ events2) = calls events1 ++ calls events2.
Proof. apply omap_app. Qed.

Lemma calls_cons ev events :
  calls (ev :: events)
  = match call_of ev with
    | Some c => c :: calls events
    | None => calls events
    end.
Proof. reflexivity. Qed.

Lemma calls_dispatched actions : calls (map EvDispatch actions) = [].
Proof. induction actions as [|a actions IH]; [reflexivity|exact IH]. Qed.

Lemma events_of_trace {A} (m : Exec A) w events :
  trace (m w).2 = trace w ++ events -> events_of m w = events.
Proof. intros Htrace. unfold events_of. rewrite Htrace. apply drop_app_length. Qed.

Lemma ascending_app (l1 l2 : list nat) (mid : nat) :
  StronglySorted lt l1 -> StronglySorted lt l2 ->
  Forall (fun n => n < mid) l1 -> Forall (fun n => mid <= n) l2 ->
  StronglySorted lt (l1 ++ l2).
Proof.
  intros Hsorted1 Hsorted2 Hbelow Habove.
  induction Hsorted1 as [|a l1 Hsorted1 IH Hhead]; [exact Hsorted2|].
  apply Forall_cons in Hbelow as [Ha Hbelow]. simpl. constructor; [exact (IH Hbelow)|].
  apply Forall_app. split; [exact Hhead|].
  eapply Forall_impl; [exact Habove|]. intros n Hn. simpl in Hn. lia.
Qed.

Lemma ascending_NoDup (l : list nat) : StronglySorted lt l -> NoDup l.
Proof.
  induction 1 as [|a l Hsorted IH Hhead]; [constructor|].
  constructor; [|exact IH].
  intros Hin. rewrite Forall_forall in Hhead. specialize (Hhead _ Hin). lia.
Qed.

Lemma in_order_none {A} lo hi (m : Exec A) :
  (forall w, trace (m w).2 = trace w) -> in_order lo hi m.
Proof.
  intros Hsame w. exists []. rewrite app_nil_r.
  split; [apply Hsame|]. split; constructor.
Qed.

Lemma in_order_single {A} lo hi (m : Exec A) ev c actions :
  call_of ev = Some c -> lo <= position c < hi ->
  (forall w, trace (m w).2 = trace w ++ ev :: map EvDispatch actions) ->
  in_order lo hi m.
Proof.
  intros Hcall Hposition Hone w. exists (ev :: map EvDispatch actions).
  split; [apply Hone|].
  rewrite calls_cons, Hcall, calls_dispatched. cbn.
  split; [repeat constructor|]. repeat constructor; lia.
Qed.

Lemma in_order_ret {A} lo hi (a : A) : in_order lo hi (mret a).
Proof. apply in_order_none. reflexivity. Qed.

Lemma in_order_throw {A} lo hi e : in_order lo hi (@throw A e).
Proof. apply in_order_none. reflexivity. Qed.

Lemma in_order_call {A} lo hi ev c (completion : Completion A) :
  call_of ev = Some c -> lo <= position c < hi -> in_order lo hi (call ev completion).
Proof.
  intros Hcall Hposition. apply (in_order_single _ _ _ ev c []); [assumption..|].
  intros w. unfold call. destruct completion; reflexivity.
Qed.

Lemma in_order_await {A} lo hi ev c (p : Async A) :
  call_of ev = Some c -> lo <= position c < hi -> in_order lo hi (await ev p).
Proof.
  intros Hcall Hposition. apply (in_order_single _ _ _ ev c []); [assumption..|].
  intros w. unfold await. destruct (settles p); reflexivity.
Qed.

Lemma in_order_call_hook lo hi context ev c hook :
  (forall seen after, call_of (ev seen after) = Some c) -> lo <= position c < hi ->
  in_order lo hi (call_hook context ev hook).
Proof.
  intros Hcall Hposition w.
  exists (ev (default ∅ (heap w !! context))
             (hook_context (hook (default ∅ (heap w !! context))))
          :: map EvDispatch (hook_dispatched (hook (default ∅ (heap w !! context))))).
  split; [unfold call_hook; destruct (hook_throws _); reflexivity|].
  rewrite calls_cons, Hcall, calls_dispatched. cbn.
  split; [repeat constructor|]. repeat constructor; lia.
Qed.

Lemma in_order_mono {A} lo hi lo' hi' (m : Exec A) :
  lo' <= lo -> hi <= hi' -> in_order lo hi m -> in_order lo' hi' m.
Proof.
  intros Hlo Hhi Hm w. destruct (Hm w) as (events & Htrace & Hsorted & Hrange).
  exists events. split; [exact Htrace|]. split; [exact Hsorted|].
  eapply Forall_impl; [exact Hrange|]. intros n Hn. simpl in Hn. lia.
Qed.

Lemma in_order_join lo mid hi events1 events2 :
  lo <= mid <= hi ->
  StronglySorted lt (position <$> calls events1) ->
  Forall (fun n => lo <= n < mid) (position <$> calls events1) ->
  StronglySorted lt (position <$> calls events2) ->
  Forall (fun n => mid <= n < hi) (position <$> calls events2) ->
  StronglySorted lt (position <$> calls (events1 ++ events2))
  /\ Forall (fun n => lo <= n < hi) (position <$> calls (events1 ++ events2)).
Proof.
  intros Hmid Hsorted1 Hrange1 Hsorted2 Hrange2.
  rewrite calls_app, fmap_app. split.
  - apply (ascending_app _ _ mid); [assumption..| |].
    + eapply Forall_impl; [exact Hrange1|]. intros n Hn. simpl in Hn. lia.
    + eapply Forall_impl; [exact Hrange2|]. intros n Hn. simpl in Hn. lia.
  - apply Forall_app. split.
    + eapply Forall_impl; [exact Hrange1|]. intros n Hn. simpl in Hn. lia.
    + eapply Forall_impl; [exact Hrange2|]. intros n Hn. simpl in Hn. lia.
Qed.

Lemma in_order_bind {A B} lo mid hi (m : Exec A) (k : A -> Exec B) :
  lo <= mid <= hi ->
  in_order lo mid m -> (forall a, in_order mid hi (k a)) -> in_order lo hi (m ≫= k).
Proof.
  intros Hmid Hm Hk w.
  destruct (Hm w) as (events1 & Htrace1 & Hsorted1 & Hrange1).
  unfold mbind, Exec_bind, bind.
  destruct (m w) as [[a|e] w1]; cbn [snd] in Htrace1.
  - destruct (Hk a w1) as (events2 & Htrace2 & Hsorted2 & Hrange2).
    exists (events1 ++ events2).
    split; [rewrite Htrace2, Htrace1, app_assoc; reflexivity|].
    apply (in_order_join lo mid hi); assumption.
  - exists events1. split; [exact Htrace1|]. split; [exact Hsorted1|].
    eapply Forall_impl; [exact Hrange1|]. intros n Hn. simpl in Hn. lia.
Qed.

Lemma in_order_try_catch {A} lo mid hi (m : Exec A) (handler : Thrown -> Exec A) :
  lo <= mid <= hi ->
  in_order lo mid m -> (forall e, in_order mid hi (handler e)) ->
  in_order lo hi (try_catch m handler).
Proof.
  intros Hmid Hm Hhandler w.
  destruct (Hm w) as (events1 & Htrace1 & Hsorted1 & Hrange1).
  unfold try_catch.
  destruct (m w) as [[a|e] w1]; cbn [snd] in Htrace1.
  - exists events1. split; [exact Htrace1|]. split; [exact Hsorted1|].
    eapply Forall_impl; [exact Hrange1|]. intros n Hn. simpl in Hn. lia.
  - destruct (Hhandler e w1) as (events2 & Htrace2 & Hsorted2 & Hrange2).
    exists (events1 ++ events2).
    split; [rewrite Htrace2, Htrace1, app_assoc; reflexivity|].
    apply (in_order_join lo mid hi); assumption.
Qed.

Variable baseQuery : BaseQueryFn.
Variable endpointDefinitions : EndpointDefinitions.

#[local] Abbreviation executeEndpoint := (executeEndpoint baseQuery endpointDefinitions).
#[local] Abbreviation runTransport := (runTransport baseQuery).
#[local] Abbreviation tryBlock := (tryBlock baseQuery).

Lemma in_order_callOnStart endpointDefinition arg context :
  in_order 0 1 (callOnStart endpointDefinition arg context).
Proof.
  unfold callOnStart. destruct (onStart _); [|apply in_order_ret].
  apply (in_order_call_hook _ _ _ _ OnStart); [reflexivity|simpl; lia].
Qed.

Lemma in_order_callOnSuccess endpointDefinition arg context result :
  in_order 3 4 (callOnSuccess endpointDefinition arg context result).
Proof.
  unfold callOnSuccess. destruct (onSuccess _); [|apply in_order_ret].
  apply (in_order_call_hook _ _ _ _ OnSuccess); [reflexivity|simpl; lia].
Qed.

Lemma in_order_callOnError endpointDefinition arg context error :
  in_order 6 7 (callOnError endpointDefinition arg context error).
Proof.
  unfold callOnError. destruct (onError _); [|apply in_order_ret].
  apply (in_order_call_hook _ _ _ _ OnError); [reflexivity|simpl; lia].
Qed.

Lemma in_order_runTransport endpointDefinition arg :
  in_order 1 3 (runTransport endpointDefinition arg).
Proof.
  unfold BuildThunks.runTransport.
  destruct (query _) as [query|]; [|destruct (queryFn _) as [queryFn|]].
  - apply (in_order_bind 1 2 3); [lia| |].
    + apply (in_order_call _ _ _ Query); [reflexivity|simpl; lia].
    + intros request. apply (in_order_bind 2 3 3); [lia| |].
      * apply (in_order_await _ _ _ Transport); [reflexivity|simpl; lia].
      * intros result. apply in_order_ret.
  - apply (in_order_bind 1 3 3); [lia| |].
    + apply (in_order_await _ _ _ Transport); [reflexivity|simpl; lia].
    + intros result. apply in_order_ret.
  - apply in_order_throw.
Qed.

Lemma in_order_tryBlock endpointDefinition arg context :
  in_order 1 6 (tryBlock endpointDefinition arg context).
Proof.
  unfold BuildThunks.tryBlock.
  apply (in_order_bind 1 3 6); [lia|apply in_order_runTransport|].
  intros transport. destruct (ToBoolean _); [apply in_order_throw|].
  apply (in_order_bind 3 4 6); [lia|apply in_order_callOnSuccess|]. intros _.
  apply (in_order_bind 4 5 6); [lia| |].
  - intros w. exists [EvDateNow (clock w)]. split; [reflexivity|].
    cbn. split; repeat constructor; lia.
  - intros now. apply (in_order_bind 5 6 6); [lia| |].
    + apply (in_order_await _ _ _ TransformResponse); [reflexivity|simpl; lia].
    + intros transformed. apply in_order_ret.
Qed.

Lemma in_order_catchBlock endpointDefinition arg context error :
  in_order 6 7 (catchBlock endpointDefinition arg context error).
Proof.
  unfold catchBlock.
  apply (in_order_bind 6 7 7); [lia|apply in_order_callOnError|]. intros _.
  destruct error; [apply in_order_ret|apply in_order_throw].
Qed.

Lemma in_order_executeEndpoint arg : in_order 0 7 (executeEndpoint arg).
Proof.
  unfold BuildThunks.executeEndpoint.
  apply (in_order_bind 0 0 7); [lia| |].
  - apply in_order_none. reflexivity.
  - intros context.
    destruct (endpointDefinitions !! arg_endpointName arg) as [endpointDefinition|];
      [|apply in_order_throw].
    apply (in_order_bind 0 1 7); [lia|apply in_order_callOnStart|]. intros _.
    apply (in_order_try_catch 1 6 7); [lia|apply in_order_tryBlock|].
    intros error. apply in_order_catchBlock.
Qed.

End call_order.

(** ** The executor: how an execution fails, shares its context and fulfils *)

Section execution.

Import TraceReading.

Variable baseQuery : BaseQueryFn.
Variable endpointDefinitions : EndpointDefinitions.

#[local] Abbreviation executeEndpoint := (executeEndpoint baseQuery endpointDefinitions).
#[local] Abbreviation runTransport := (runTransport baseQuery).
#[local] Abbreviation tryBlock := (tryBlock baseQuery).

Lemma steady_callOnStart context endpointDefinition arg :
  steady context (callOnStart endpointDefinition arg context).
Proof. unfold callOnStart. destruct (onStart _); auto with steady. Qed.

Lemma steady_callOnSuccess context endpointDefinition arg result :
  steady context (callOnSuccess endpointDefinition arg context result).
Proof. unfold callOnSuccess. destruct (onSuccess _); auto with steady. Qed.

Lemma steady_callOnError context endpointDefinition arg error :
  steady context (callOnError endpointDefinition arg context error).
Proof. unfold callOnError. destruct (onError _); auto with steady. Qed.

Lemma steady_runTransport context endpointDefinition arg :
  steady context (runTransport endpointDefinition arg).
Proof.
  unfold BuildThunks.runTransport.
  destruct (query _); [|destruct (queryFn _)]; auto 10 with steady.
Qed.

Lemma steady_tryBlock context endpointDefinition arg :
  steady context (tryBlock endpointDefinition arg context).
Proof.
  unfold BuildThunks.tryBlock.
  apply steady_bind; [apply steady_runTransport|]. intros transport.
  destruct (ToBoolean _); [auto with steady|].
  apply steady_bind; [apply steady_callOnSuccess|]. intros _.
  auto 10 with steady.
Qed.

Lemma steady_catchBlock context endpointDefinition arg error :
  steady context (catchBlock endpointDefinition arg context error).
Proof.
  unfold catchBlock.
  apply steady_bind; [apply steady_callOnError|]. intros _.
  destruct error; auto with steady.
Qed.

(** The executor, statement by statement. *)

Lemma executeEndpoint_defined arg w endpointDefinition :
  endpointDefinitions !! arg_endpointName arg = Some endpointDefinition ->
  executeEndpoint arg w
  = match callOnStart endpointDefinition arg (fresh (dom (heap w))) (new_context w).2 with
    | (Returned _, w1) =>
        match tryBlock endpointDefinition arg (fresh (dom (heap w))) w1 with
        | (Returned a, w2) => (Returned a, w2)
        | (Threw e, w2) => catchBlock endpointDefinition arg (fresh (dom (heap w))) e w2
        end
    | (Threw e, w1) => (Threw e, w1)
    end.
Proof.
  intros Hdef. unfold BuildThunks.executeEndpoint, mbind, Exec_bind, bind, try_catch.
  simpl. rewrite Hdef.
  destruct (callOnStart _ _ _ _) as [[[]|e] w1]; reflexivity.
Qed.

Lemma executeEndpoint_undefined arg w :
  endpointDefinitions !! arg_endpointName arg = None ->
  executeEndpoint arg w = (Threw (OtherError TypeError), (new_context w).2).
Proof.
  intros Hdef. unfold BuildThunks.executeEndpoint, mbind, Exec_bind, bind.
  simpl. rewrite Hdef. reflexivity.
Qed.

Lemma tryBlock_unfold endpointDefinition arg context w1 :
  tryBlock endpointDefinition arg context w1
  = match runTransport endpointDefinition arg w1 with
    | (Returned (result, transformResponse), w2) =>
        if ToBoolean (BaseQueryTypes.error result)
        then (Threw (HandledError (BaseQueryTypes.error result) (meta result)), w2)
        else
          match callOnSuccess endpointDefinition arg context result w2 with
          | (Returned _, w3) =>
              (match settles (transformResponse (BaseQueryTypes.data result) (meta result)) with
               | Normal transformed =>
                   Returned (FulfillWith {| fulfilledTimeStamp := clock w3;
                                            result := transformed |})
               | Throws e => Threw (OtherError e)
               end,
               {| heap := heap w3;
                  clock := PrimFloat.add (clock w3)
                             (elapsed (transformResponse (BaseQueryTypes.data result)
                                                         (meta result)));
                  trace := trace w3 ++ [EvDateNow (clock w3);
                                        EvTransformResponse (BaseQueryTypes.data result)
                                                            (meta result)] |})
          | (Threw e, w3) => (Threw e, w3)
          end
    | (Threw e, w2) => (Threw e, w2)
    end.
Proof.
  unfold BuildThunks.tryBlock, mbind, Exec_bind, bind.
  destruct (runTransport _ _ _) as [[[result transformResponse]|e] w2]; [|reflexivity].
  simpl. destruct (ToBoolean _); [reflexivity|].
  destruct (callOnSuccess _ _ _ _ _) as [[[]|e] w3]; [|reflexivity].
  unfold Date_now, await. simpl. rewrite <- app_assoc.
  destruct (settles _); reflexivity.
Qed.

Lemma catchBlock_unfold endpointDefinition arg context error w2 :
  catchBlock endpointDefinition arg context error w2
  = match callOnError endpointDefinition arg context error w2 with
    | (Returned _, w3) =>
        (match error with
         | HandledError value _ => Returned (RejectWithValue value)
         | OtherError _ => Threw error
         end, w3)
    | (Threw e, w3) => (Threw e, w3)
    end.
Proof.
  unfold catchBlock, mbind, Exec_bind, bind.
  destruct (callOnError _ _ _ _ _) as [[[]|e] w3]; [|reflexivity].
  destruct error; reflexivity.
Qed.

Lemma callOnStart_spec endpointDefinition arg context w :
  callOnStart endpointDefinition arg context w
  = match onStart endpointDefinition with
    | Some onStart =>
        let seen := default ∅ (heap w !! context) in
        let outcome := onStart (arg_originalArgs arg) seen in
        (match hook_throws outcome with
         | None => Returned tt
         | Some e => Threw (OtherError e)
         end,
         {| heap := <[context := hook_context outcome]> (heap w);
            clock := PrimFloat.add (clock w) (hook_elapsed outcome);
            trace := trace w ++ EvOnStart context seen (hook_context outcome)
                                          (arg_originalArgs arg)
                             :: map EvDispatch (hook_dispatched outcome) |})
    | None => (Returned tt, w)
    end.
Proof.
  unfold callOnStart, call_hook. destruct (onStart _); [|reflexivity].
  simpl. destruct (hook_throws _); reflexivity.
Qed.

Lemma callOnSuccess_spec endpointDefinition arg context result w :
  callOnSuccess endpointDefinition arg context result w
  = match onSuccess endpointDefinition with
    | Some onSuccess =>
        let seen := default ∅ (heap w !! context) in
        let outcome := onSuccess (arg_originalArgs arg) seen
                                 (BaseQueryTypes.data result) (meta result) in
        (match hook_throws outcome with
         | None => Returned tt
         | Some e => Threw (OtherError e)
         end,
         {| heap := <[context := hook_context outcome]> (heap w);
            clock := PrimFloat.add (clock w) (hook_elapsed outcome);
            trace := trace w ++ EvOnSuccess context seen (hook_context outcome)
                                            (arg_originalArgs arg)
                                            (BaseQueryTypes.data result) (meta result)
                             :: map EvDispatch (hook_dispatched outcome) |})
    | None => (Returned tt, w)
    end.
Proof.
  unfold callOnSuccess, call_hook. destruct (onSuccess _); [|reflexivity].
  simpl. destruct (hook_throws _); reflexivity.
Qed.

Lemma callOnError_spec endpointDefinition arg context error w :
  callOnError endpointDefinition arg context error w
  = match onError endpointDefinition with
    | Some onError =>
        let seen := default ∅ (heap w !! context) in
        let outcome := onError (arg_originalArgs arg) seen
                               (error_value error) (error_meta error) in
        (match hook_throws outcome with
         | None => Returned tt
         | Some e => Threw (OtherError e)
         end,
         {| heap := <[context := hook_context outcome]> (heap w);
            clock := PrimFloat.add (clock w) (hook_elapsed outcome);
            trace := trace w ++ EvOnError context seen (hook_context outcome)
                                          (arg_originalArgs arg)
                                          (error_value error) (error_meta error)
                             :: map EvDispatch (hook_dispatched outcome) |})
    | None => (Returned tt, w)
    end.
Proof.
  unfold callOnError, call_hook. destruct (onError _); [|reflexivity].
  simpl. destruct (hook_throws _); reflexivity.
Qed.

(** A hook call throws what the hook threw, never a [HandledError]. *)
Lemma callOnStart_throws endpointDefinition arg context w e w' :
  callOnStart endpointDefinition arg context w = (Threw e, w') ->
  exists v, e = OtherError v.
Proof.
  rewrite callOnStart_spec. destruct (onStart _); [|discriminate].
  simpl. destruct (hook_throws _); intros [= <- _]; eauto.
Qed.

Lemma callOnSuccess_throws endpointDefinition arg context result w e w' :
  callOnSuccess endpointDefinition arg context result w = (Threw e, w') ->
  exists v, e = OtherError v.
Proof.
  rewrite callOnSuccess_spec. destruct (onSuccess _); [|discriminate].
  simpl. destruct (hook_throws _); intros [= <- _]; eauto.
Qed.

Lemma callOnError_throws endpointDefinition arg context error w e w' :
  callOnError endpointDefinition arg context error w = (Threw e, w') ->
  exists v, e = OtherError v.
Proof.
  rewrite callOnError_spec. destruct (onError _); [|discriminate].
  simpl. destruct (hook_throws _); intros [= <- _]; eauto.
Qed.

Lemma runTransport_throws endpointDefinition arg w e w' :
  runTransport endpointDefinition arg w = (Threw e, w') ->
  exists v, e = OtherError v.
Proof.
  unfold BuildThunks.runTransport, mbind, Exec_bind, bind, call, await, throw.
  destruct (query _) as [q|].
  - destruct (q _); [|intros [= <- _]; eauto].
    simpl. destruct (settles _); [discriminate|intros [= <- _]; eauto].
  - destruct (queryFn _) as [f|]; [|intros [= <- _]; eauto].
    simpl. destruct (settles _); [discriminate|intros [= <- _]; eauto].
Qed.

(** The [transformResponse] in force: the endpoint's own after [query], the
    identity otherwise. *)
Lemma runTransport_transformResponse endpointDefinition arg w result transformResponse w' :
  runTransport endpointDefinition arg w = (Returned (result, transformResponse), w') ->
  transformResponse
  = match query endpointDefinition, EndpointDefinitions.transformResponse endpointDefinition with
    | Some _, Some f => f
    | _, _ => fun v _ => resolved (defaultTransformResponse v)
    end.
Proof.
  unfold BuildThunks.runTransport, mbind, Exec_bind, bind, call, await, throw.
  destruct (query _) as [q|].
  - destruct (q _); [|discriminate].
    simpl. destruct (settles _); [|discriminate].
    intros [= _ <- _]. destruct (EndpointDefinitions.transformResponse _); reflexivity.
  - destruct (queryFn _) as [f|]; [|discriminate].
    simpl. destruct (settles _); [|discriminate].
    intros [= _ <- _]. reflexivity.
Qed.

Lemma executeEndpoint_body arg w endpointDefinition :
  endpointDefinitions !! arg_endpointName arg = Some endpointDefinition ->
  executeEndpoint arg w
  = (callOnStart endpointDefinition arg (fresh (dom (heap w)));;
     try_catch (tryBlock endpointDefinition arg (fresh (dom (heap w))))
               (catchBlock endpointDefinition arg (fresh (dom (heap w)))))
      (new_context w).2.
Proof.
  intros Hdef. unfold BuildThunks.executeEndpoint, mbind, Exec_bind, bind.
  simpl. rewrite Hdef. reflexivity.
Qed.

Lemma in_order_range lo hi events c :
  Forall (fun n => lo <= n < hi) (position <$> calls events) ->
  c ∈ calls events -> lo <= position c < hi.
Proof.
  intros Hrange Hin. rewrite Forall_forall in Hrange.
  apply Hrange, list_elem_of_fmap_2, Hin.
Qed.

(** A transport step that returned has called the transport. *)
Lemma runTransport_returned endpointDefinition arg w transport w' :
  runTransport endpointDefinition arg w = (Returned transport, w') ->
  exists events,
    trace w' = trace w ++ events
    /\ Transport ∈ calls events
    /\ Forall (fun n => 1 <= n < 3) (position <$> calls events).
Proof.
  unfold BuildThunks.runTransport, mbind, Exec_bind, bind, call, await, throw.
  destruct (query _) as [q|].
  - destruct (q _) as [request|]; [|discriminate].
    simpl. destruct (settles _); [|discriminate].
    intros [= _ <-]. cbn [trace]. rewrite <- app_assoc.
    eexists. split; [reflexivity|]. cbn.
    split; [rewrite !elem_of_cons; tauto|]. repeat constructor; lia.
  - destruct (queryFn _) as [f|]; [|discriminate].
    simpl. destruct (settles _); [|discriminate].
    intros [= _ <-]. cbn [trace].
    eexists. split; [reflexivity|]. cbn.
    split; [rewrite !elem_of_cons; tauto|]. repeat constructor; lia.
Qed.

Lemma executeEndpoint_fulfilled_inv arg w r w' :
  executeEndpoint arg w = (Returned (FulfillWith r), w') ->
  exists endpointDefinition w1 response transformResponse w2 w3,
    endpointDefinitions !! arg_endpointName arg = Some endpointDefinition
    /\ callOnStart endpointDefinition arg (fresh (dom (heap w))) (new_context w).2
       = (Returned tt, w1)
    /\ runTransport endpointDefinition arg w1 = (Returned (response, transformResponse), w2)
    /\ ToBoolean (BaseQueryTypes.error response) = false
    /\ callOnSuccess endpointDefinition arg (fresh (dom (heap w))) response w2
       = (Returned tt, w3)
    /\ settles (transformResponse (BaseQueryTypes.data response) (meta response))
       = Normal (result r)
    /\ fulfilledTimeStamp r = clock w3
    /\ trace w' = trace w3 ++ [EvDateNow (clock w3);
                               EvTransformResponse (BaseQueryTypes.data response)
                                                   (meta response)].
Proof.
  destruct (endpointDefinitions !! arg_endpointName arg) as [endpointDefinition|] eqn:Hdef.
  2:{ rewrite (executeEndpoint_undefined _ _ Hdef). discriminate. }
  rewrite (executeEndpoint_defined _ _ _ Hdef).
  destruct (callOnStart _ _ _ _) as [[[]|e] w1] eqn:Hstart; [|discriminate].
  rewrite tryBlock_unfold.
  destruct (runTransport _ _ _) as [[[response transformResponse]|e] w2] eqn:Htransport.
  - destruct (ToBoolean _) eqn:Herror.
    + rewrite catchBlock_unfold.
      destruct (callOnError _ _ _ _ _) as [[[]|e] w3]; discriminate.
    + destruct (callOnSuccess _ _ _ _ _) as [[[]|e] w3] eqn:Hsuccess.
      * destruct (settles _) eqn:Hsettles.
        -- intros [= <- <-]. exists endpointDefinition, w1, response, transformResponse, w2, w3.
           repeat split; try assumption; reflexivity.
        -- rewrite catchBlock_unfold.
           destruct (callOnError _ _ _ _ _) as [[[]|e'] w4]; discriminate.
      * destruct (callOnSuccess_throws _ _ _ _ _ _ _ Hsuccess) as [v ->].
        rewrite catchBlock_unfold.
        destruct (callOnError _ _ _ _ _) as [[[]|e'] w4]; discriminate.
  - destruct (runTransport_throws _ _ _ _ _ Htransport) as [v ->].
    rewrite catchBlock_unfold.
    destruct (callOnError _ _ _ _ _) as [[[]|e'] w4]; discriminate.
Qed.

Lemma executeEndpoint_rejected_inv arg w value w' :
  executeEndpoint arg w = (Returned (RejectWithValue value), w') ->
  exists endpointDefinition w1 response transformResponse w2,
    endpointDefinitions !! arg_endpointName arg = Some endpointDefinition
    /\ callOnStart endpointDefinition arg (fresh (dom (heap w))) (new_context w).2
       = (Returned tt, w1)
    /\ runTransport endpointDefinition arg w1 = (Returned (response, transformResponse), w2)
    /\ ToBoolean (BaseQueryTypes.error response) = true
    /\ value = BaseQueryTypes.error response
    /\ callOnError endpointDefinition arg (fresh (dom (heap w)))
         (HandledError (BaseQueryTypes.error response) (meta response)) w2
       = (Returned tt, w').
Proof.
  destruct (endpointDefinitions !! arg_endpointName arg) as [endpointDefinition|] eqn:Hdef.
  2:{ rewrite (executeEndpoint_undefined _ _ Hdef). discriminate. }
  rewrite (executeEndpoint_defined _ _ _ Hdef).
  destruct (callOnStart _ _ _ _) as [[[]|e] w1] eqn:Hstart; [|discriminate].
  rewrite tryBlock_unfold.
  destruct (runTransport _ _ _) as [[[response transformResponse]|e] w2] eqn:Htransport.
  - destruct (ToBoolean _) eqn:Herror.
    + rewrite catchBlock_unfold.
      destruct (callOnError _ _ _ _ _) as [[[]|e] w3] eqn:HonError; [|discriminate].
      intros [= <- <-]. exists endpointDefinition, w1, response, transformResponse, w2.
      repeat split; try assumption; reflexivity.
    + destruct (callOnSuccess _ _ _ _ _) as [[[]|e] w3] eqn:Hsuccess.
      * destruct (settles _) eqn:Hsettles; [discriminate|].
        rewrite catchBlock_unfold.
        destruct (callOnError _ _ _ _ _) as [[[]|e'] w4]; discriminate.
      * destruct (callOnSuccess_throws _ _ _ _ _ _ _ Hsuccess) as [v ->].
        rewrite catchBlock_unfold.
        destruct (callOnError _ _ _ _ _) as [[[]|e'] w4]; discriminate.
  - destruct (runTransport_throws _ _ _ _ _ Htransport) as [v ->].
    rewrite catchBlock_unfold.
    destruct (callOnError _ _ _ _ _) as [[[]|e'] w4]; discriminate.
Qed.

(** The events of the first two steps of an execution that got past them. *)
Lemma executeEndpoint_first_steps endpointDefinition arg w w1 transport w2 :
  callOnStart endpointDefinition arg (fresh (dom (heap w))) (new_context w).2
    = (Returned tt, w1) ->
  runTransport endpointDefinition arg w1 = (Returned transport, w2) ->
  exists events1 events2,
    trace w2 = trace w ++ events1 ++ events2
    /\ Forall (fun n => 0 <= n < 1) (position <$> calls events1)
    /\ Forall (fun n => 1 <= n < 3) (position <$> calls events2)
    /\ Transport ∈ calls events2.
Proof.
  intros Hstart Htransport.
  destruct (in_order_callOnStart endpointDefinition arg (fresh (dom (heap w)))
              (new_context w).2) as (events1 & Htrace1 & _ & Hrange1).
  rewrite Hstart in Htrace1. cbn [snd new_context trace] in Htrace1.
  destruct (runTransport_returned _ _ _ _ _ Htransport) as (events2 & Htrace2 & Hin & Hrange2).
  exists events1, events2. rewrite Htrace2, Htrace1, <- app_assoc. auto.
Qed.


(** What a computation adds are events of a kind. *)

Lemma adds_none {A} Q (m : Exec A) :
  (forall w, trace (m w).2 = trace w) -> adds Q m.
Proof.
  intros Hsame w. exists []. rewrite app_nil_r. split; [apply Hsame|constructor].
Qed.

Lemma adds_ret {A} Q (a : A) : adds Q (mret a).
Proof. apply adds_none. reflexivity. Qed.

Lemma adds_throw {A} Q e : adds Q (@throw A e).
Proof. apply adds_none. reflexivity. Qed.

Lemma adds_call {A} (Q : Event -> Prop) ev (completion : Completion A) :
  Q ev -> adds Q (call ev completion).
Proof.
  intros Hev w. exists [ev]. split; [|repeat constructor; exact Hev].
  unfold call. destruct completion; reflexivity.
Qed.

Lemma adds_await {A} (Q : Event -> Prop) ev (p : Async A) :
  Q ev -> adds Q (await ev p).
Proof.
  intros Hev w. exists [ev]. split; [|repeat constructor; exact Hev].
  unfold await. destruct (settles p); reflexivity.
Qed.

Lemma adds_Date_now (Q : Event -> Prop) :
  (forall t, Q (EvDateNow t)) -> adds Q Date_now.
Proof.
  intros Hev w. exists [EvDateNow (clock w)]. split; [reflexivity|].
  repeat constructor. apply Hev.
Qed.

Lemma adds_call_hook (Q : Event -> Prop) context ev hook :
  (forall seen, Q (ev seen (hook_context (hook seen)))) ->
  (forall action, Q (EvDispatch action)) ->
  adds Q (call_hook context ev hook).
Proof.
  intros Hev Hdispatch w.
  exists (ev (default ∅ (heap w !! context))
             (hook_context (hook (default ∅ (heap w !! context))))
          :: map EvDispatch (hook_dispatched (hook (default ∅ (heap w !! context))))).
  split; [unfold call_hook; destruct (hook_throws _); reflexivity|].
  constructor; [apply Hev|]. apply Forall_fmap, Forall_true. exact Hdispatch.
Qed.

Lemma adds_bind {A B} Q (m : Exec A) (k : A -> Exec B) :
  adds Q m -> (forall a, adds Q (k a)) -> adds Q (m ≫= k).
Proof.
  intros Hm Hk w. destruct (Hm w) as (events1 & Htrace1 & HQ1).
  unfold mbind, Exec_bind, bind.
  destruct (m w) as [[a|e] w1]; cbn [snd] in Htrace1; [|eauto].
  destruct (Hk a w1) as (events2 & Htrace2 & HQ2).
  exists (events1 ++ events2).
  split; [rewrite Htrace2, Htrace1, app_assoc; reflexivity|].
  apply Forall_app. auto.
Qed.

Lemma adds_call_bind {A B} (Q : Event -> Prop) ev (completion : Completion A)
    (k : A -> Exec B) :
  Q ev -> (forall a, completion = Normal a -> adds Q (k a)) ->
  adds Q (call ev completion ≫= k).
Proof.
  intros Hev Hk w. unfold mbind, Exec_bind, bind, call.
  destruct completion as [a|e].
  - destruct (Hk a eq_refl {| heap := heap w; clock := clock w; trace := trace w ++ [ev] |})
      as (events & Htrace & HQ).
    exists (ev :: events). split; [|constructor; assumption].
    rewrite Htrace. cbn [trace]. rewrite <- app_assoc. reflexivity.
  - exists [ev]. split; [reflexivity|]. repeat constructor. exact Hev.
Qed.

Lemma adds_try_catch {A} Q (m : Exec A) (handler : Thrown -> Exec A) :
  adds Q m -> (forall e, adds Q (handler e)) -> adds Q (try_catch m handler).
Proof.
  intros Hm Hhandler w. destruct (Hm w) as (events1 & Htrace1 & HQ1).
  unfold try_catch.
  destruct (m w) as [[a|e] w1]; cbn [snd] in Htrace1; [eauto|].
  destruct (Hhandler e w1) as (events2 & Htrace2 & HQ2).
  exists (events1 ++ events2).
  split; [rewrite Htrace2, Htrace1, app_assoc; reflexivity|].
  apply Forall_app. auto.
Qed.

(** Every hook call of an execution is the endpoint's hook, applied to what
    the event records. *)
Lemma adds_applied_executeEndpoint arg endpointDefinition :
  endpointDefinitions !! arg_endpointName arg = Some endpointDefinition ->
  adds (hook_applied endpointDefinition) (executeEndpoint arg).
Proof.
  intros Hdef. unfold BuildThunks.executeEndpoint. rewrite Hdef.
  apply adds_bind; [apply adds_none; reflexivity|]. intros context.
  apply adds_bind.
  { unfold callOnStart. destruct (onStart _) as [f|] eqn:Hf; [|apply adds_ret].
    apply adds_call_hook; [|exact (fun _ => I)]. intros seen. simpl. eauto. }
  intros _. apply adds_try_catch.
  - unfold BuildThunks.tryBlock. apply adds_bind.
    { unfold BuildThunks.runTransport.
      destruct (query _); [|destruct (queryFn _)].
      - apply adds_bind; [apply adds_call; exact I|]. intros request.
        apply adds_bind; [apply adds_await; exact I|]. intros result. apply adds_ret.
      - apply adds_bind; [apply adds_await; exact I|]. intros result. apply adds_ret.
      - apply adds_throw. }
    intros transport. destruct (ToBoolean _); [apply adds_throw|].
    apply adds_bind.
    { unfold callOnSuccess. destruct (onSuccess _) as [g|] eqn:Hg; [|apply adds_ret].
      apply adds_call_hook; [|exact (fun _ => I)]. intros seen. simpl. eauto. }
    intros _. apply adds_bind; [apply adds_Date_now; exact (fun _ => I)|]. intros now.
    apply adds_bind; [apply adds_await; exact I|]. intros transformed. apply adds_ret.
  - intros error. unfold catchBlock. apply adds_bind.
    { unfold callOnError. destruct (onError _) as [h|] eqn:Hh; [|apply adds_ret].
      apply adds_call_hook; [|exact (fun _ => I)]. intros seen. simpl. eauto. }
    intros _. destruct error; [apply adds_ret|apply adds_throw].
Qed.

(** The execution, step by step, from what it is given. *)

#[local] Abbreviation transport_resolves := (transport_resolves baseQuery).
#[local] Abbreviation transport_throws := (transport_throws baseQuery).

Lemma new_context_lookup w : heap (new_context w).2 !! fresh (dom (heap w)) = Some ∅.
Proof. apply lookup_insert_eq. Qed.

Lemma callOnStart_returns endpointDefinition arg w :
  (forall onStart,
     EndpointDefinitions.onStart endpointDefinition = Some onStart ->
     hook_throws (onStart (arg_originalArgs arg) ∅) = None) ->
  exists w1,
    callOnStart endpointDefinition arg (fresh (dom (heap w))) (new_context w).2
      = (Returned tt, w1)
    /\ heap w1 !! fresh (dom (heap w))
       = Some (context_started endpointDefinition (arg_originalArgs arg)).
Proof.
  intros Hreturns. rewrite callOnStart_spec. unfold context_started.
  destruct (onStart endpointDefinition) as [f|]; [|eauto using new_context_lookup].
  cbn zeta. rewrite new_context_lookup. cbn [default]. unfold Datatypes.id. rewrite (Hreturns f eq_refl).
  eexists. split; [reflexivity|]. apply lookup_insert_eq.
Qed.

Lemma callOnStart_fails endpointDefinition arg w onStart e :
  EndpointDefinitions.onStart endpointDefinition = Some onStart ->
  hook_throws (onStart (arg_originalArgs arg) ∅) = Some e ->
  exists w1,
    callOnStart endpointDefinition arg (fresh (dom (heap w))) (new_context w).2
      = (Threw (OtherError e), w1).
Proof.
  intros HonStart Hthrows. rewrite callOnStart_spec, HonStart.
  cbn zeta. rewrite new_context_lookup. cbn [default]. unfold Datatypes.id. rewrite Hthrows. eauto.
Qed.

Lemma runTransport_heap endpointDefinition arg w :
  heap (runTransport endpointDefinition arg w).2 = heap w.
Proof.
  unfold BuildThunks.runTransport, mbind, Exec_bind, bind, call, await, throw.
  destruct (query _) as [q|].
  - destruct (q _) as [request|]; [|reflexivity].
    simpl. destruct (settles _); reflexivity.
  - destruct (queryFn _) as [f|]; [|reflexivity].
    simpl. destruct (settles _); reflexivity.
Qed.

Lemma runTransport_resolves endpointDefinition arg response w1 :
  transport_resolves endpointDefinition (arg_originalArgs arg) response ->
  exists transformResponse w2,
    runTransport endpointDefinition arg w1 = (Returned (response, transformResponse), w2)
    /\ heap w2 = heap w1.
Proof.
  intros Hresolves.
  pose proof (runTransport_heap endpointDefinition arg w1) as Hheap. revert Hresolves Hheap.
  unfold BuildThunks.transport_resolves, BuildThunks.runTransport,
    mbind, Exec_bind, bind, call, await.
  destruct (query _) as [q|].
  - intros (request & -> & Hsettles). simpl. rewrite Hsettles. simpl. eauto.
  - intros (f & -> & Hsettles). simpl. rewrite Hsettles. simpl. eauto.
Qed.

Lemma runTransport_rejects endpointDefinition arg e w1 :
  transport_throws endpointDefinition (arg_originalArgs arg) e ->
  exists w2,
    runTransport endpointDefinition arg w1 = (Threw (OtherError e), w2)
    /\ heap w2 = heap w1.
Proof.
  intros Hthrows.
  pose proof (runTransport_heap endpointDefinition arg w1) as Hheap. revert Hthrows Hheap.
  unfold BuildThunks.transport_throws, BuildThunks.runTransport,
    mbind, Exec_bind, bind, call, await, throw.
  destruct (query _) as [q|].
  - intros [-> | (request & -> & Hsettles)]; simpl; [eauto|].
    rewrite Hsettles. simpl. eauto.
  - destruct (queryFn _) as [f|].
    + intros Hsettles. simpl. rewrite Hsettles. simpl. eauto.
    + intros ->. simpl. eauto.
Qed.

(** And back: what the transport step came to is what it was given. *)
Lemma runTransport_returned_resolves endpointDefinition arg w response transformResponse w' :
  runTransport endpointDefinition arg w = (Returned (response, transformResponse), w') ->
  transport_resolves endpointDefinition (arg_originalArgs arg) response.
Proof.
  unfold BuildThunks.transport_resolves, BuildThunks.runTransport,
    mbind, Exec_bind, bind, call, await, throw.
  destruct (query _) as [q|].
  - destruct (q _) as [request|]; [|discriminate].
    simpl. destruct (settles _) eqn:Hsettles; [|discriminate].
    intros [= <- _ _]. eauto.
  - destruct (queryFn _) as [f|]; [|discriminate].
    simpl. destruct (settles _) eqn:Hsettles; [|discriminate].
    intros [= <- _ _]. eauto.
Qed.

Lemma callOnSuccess_at endpointDefinition arg context response w seen :
  heap w !! context = Some seen ->
  callOnSuccess endpointDefinition arg context response w
  = match onSuccess endpointDefinition with
    | Some onSuccess =>
        let outcome := onSuccess (arg_originalArgs arg) seen
                                 (BaseQueryTypes.data response) (meta response) in
        (match hook_throws outcome with
         | None => Returned tt
         | Some e => Threw (OtherError e)
         end,
         {| heap := <[context := hook_context outcome]> (heap w);
            clock := PrimFloat.add (clock w) (hook_elapsed outcome);
            trace := trace w ++ EvOnSuccess context seen (hook_context outcome)
                                            (arg_originalArgs arg)
                                            (BaseQueryTypes.data response) (meta response)
                             :: map EvDispatch (hook_dispatched outcome) |})
    | None => (Returned tt, w)
    end.
Proof. intros Hseen. rewrite callOnSuccess_spec, Hseen. reflexivity. Qed.

(** An execution whose [try] block threw went through the [catch] clause. *)
Lemma executeEndpoint_caught arg w endpointDefinition w1 error w2 seen :
  endpointDefinitions !! arg_endpointName arg = Some endpointDefinition ->
  callOnStart endpointDefinition arg (fresh (dom (heap w))) (new_context w).2
    = (Returned tt, w1) ->
  tryBlock endpointDefinition arg (fresh (dom (heap w))) w1 = (Threw error, w2) ->
  heap w2 !! fresh (dom (heap w)) = Some seen ->
  caught endpointDefinition (arg_originalArgs arg) (fresh (dom (heap w))) seen error
         (executeEndpoint arg w).1 (events_of (executeEndpoint arg) w).
Proof.
  intros Hdef Hstart Htry Hseen.
  destruct (in_order_callOnStart endpointDefinition arg (fresh (dom (heap w)))
              (new_context w).2) as (events1 & Htrace1 & _ & Hrange1).
  rewrite Hstart in Htrace1. cbn [snd new_context trace] in Htrace1.
  destruct (in_order_tryBlock baseQuery endpointDefinition arg (fresh (dom (heap w))) w1)
    as (events2 & Htrace2 & _ & Hrange2).
  rewrite Htry in Htrace2. cbn [snd] in Htrace2.
  assert (Hrun : executeEndpoint arg w
                 = catchBlock endpointDefinition arg (fresh (dom (heap w))) error w2)
    by (rewrite (executeEndpoint_defined _ _ _ Hdef), Hstart, Htry; reflexivity).
  unfold caught, events_of. rewrite Hrun, catchBlock_unfold, callOnError_spec.
  destruct (onError endpointDefinition) as [h|].
  - cbn zeta. rewrite Hseen. cbn [default]. unfold Datatypes.id. split.
    + destruct (hook_throws _); cbn [snd trace];
        rewrite Htrace2, Htrace1, <- !app_assoc, drop_app_length, !elem_of_app;
        right; right; left.
    + destruct (hook_throws _); [reflexivity|]. destruct error; reflexivity.
  - cbn [fst snd]. split; [|destruct error; reflexivity].
    rewrite Htrace2, Htrace1, <- app_assoc, drop_app_length, calls_app, elem_of_app.
    intros [Hc | Hc].
    + apply (in_order_range _ _ _ _ Hrange1) in Hc. simpl in Hc. lia.
    + apply (in_order_range _ _ _ _ Hrange2) in Hc. simpl in Hc. lia.
Qed.

(** The [try] block, from what it is given. *)

Lemma tryBlock_transport_throws endpointDefinition arg context e w1 :
  transport_throws endpointDefinition (arg_originalArgs arg) e ->
  exists w2,
    tryBlock endpointDefinition arg context w1 = (Threw (OtherError e), w2)
    /\ heap w2 = heap w1.
Proof.
  intros Hthrows.
  destruct (runTransport_rejects _ _ _ w1 Hthrows) as (w2 & Htransport & Hheap).
  exists w2. rewrite tryBlock_unfold, Htransport. auto.
Qed.

Lemma tryBlock_error_reported endpointDefinition arg context response w1 :
  transport_resolves endpointDefinition (arg_originalArgs arg) response ->
  ToBoolean (BaseQueryTypes.error response) = true ->
  exists w2,
    tryBlock endpointDefinition arg context w1
      = (Threw (HandledError (BaseQueryTypes.error response) (meta response)), w2)
    /\ heap w2 = heap w1.
Proof.
  intros Hresolves Herror.
  destruct (runTransport_resolves _ _ _ w1 Hresolves)
    as (transformResponse & w2 & Htransport & Hheap).
  exists w2. rewrite tryBlock_unfold, Htransport, Herror. auto.
Qed.

Lemma tryBlock_onSuccess_throws endpointDefinition arg context response w1 seen onSuccess e :
  transport_resolves endpointDefinition (arg_originalArgs arg) response ->
  ToBoolean (BaseQueryTypes.error response) = false ->
  heap w1 !! context = Some seen ->
  EndpointDefinitions.onSuccess endpointDefinition = Some onSuccess ->
  hook_throws (onSuccess (arg_originalArgs arg) seen
                         (BaseQueryTypes.data response) (meta response)) = Some e ->
  exists w3,
    tryBlock endpointDefinition arg context w1 = (Threw (OtherError e), w3)
    /\ heap w3 !! context
       = Some (hook_context (onSuccess (arg_originalArgs arg) seen
                                       (BaseQueryTypes.data response) (meta response))).
Proof.
  intros Hresolves Herror Hseen HonSuccess Hthrows.
  destruct (runTransport_resolves _ _ _ w1 Hresolves)
    as (transformResponse & w2 & Htransport & Hheap).
  rewrite <- Hheap in Hseen.
  rewrite tryBlock_unfold, Htransport, Herror, (callOnSuccess_at _ _ _ _ _ _ Hseen), HonSuccess.
  cbn zeta. rewrite Hthrows. eexists. split; [reflexivity|]. apply lookup_insert_eq.
Qed.

(** The world in which [onSuccess] has returned. *)
Lemma callOnSuccess_returns endpointDefinition arg context response w seen :
  heap w !! context = Some seen ->
  (forall onSuccess,
     EndpointDefinitions.onSuccess endpointDefinition = Some onSuccess ->
     hook_throws (onSuccess (arg_originalArgs arg) seen
                            (BaseQueryTypes.data response) (meta response)) = None) ->
  exists w3,
    callOnSuccess endpointDefinition arg context response w = (Returned tt, w3)
    /\ heap w3 !! context
       = Some (match onSuccess endpointDefinition with
               | Some onSuccess =>
                   hook_context (onSuccess (arg_originalArgs arg) seen
                                           (BaseQueryTypes.data response) (meta response))
               | None => seen
               end).
Proof.
  intros Hseen Hreturns. rewrite (callOnSuccess_at _ _ _ _ _ _ Hseen).
  destruct (onSuccess endpointDefinition) as [g|]; [|eauto].
  cbn zeta. rewrite (Hreturns g eq_refl).
  eexists. split; [reflexivity|]. apply lookup_insert_eq.
Qed.

Lemma tryBlock_transform_rejects endpointDefinition arg context response w1 seen
    query transformResponse e :
  transport_resolves endpointDefinition (arg_originalArgs arg) response ->
  ToBoolean (BaseQueryTypes.error response) = false ->
  heap w1 !! context = Some seen ->
  (forall onSuccess,
     EndpointDefinitions.onSuccess endpointDefinition = Some onSuccess ->
     hook_throws (onSuccess (arg_originalArgs arg) seen
                            (BaseQueryTypes.data response) (meta response)) = None) ->
  EndpointDefinitions.query endpointDefinition = Some query ->
  EndpointDefinitions.transformResponse endpointDefinition = Some transformResponse ->
  settles (transformResponse (BaseQueryTypes.data response) (meta response)) = Throws e ->
  exists w4,
    tryBlock endpointDefinition arg context w1 = (Threw (OtherError e), w4)
    /\ heap w4 !! context
       = Some (match onSuccess endpointDefinition with
               | Some onSuccess =>
                   hook_context (onSuccess (arg_originalArgs arg) seen
                                           (BaseQueryTypes.data response) (meta response))
               | None => seen
               end).
Proof.
  intros Hresolves Herror Hseen Hreturns Hquery Htransform Hrejects.
  destruct (runTransport_resolves _ _ _ w1 Hresolves) as (tr & w2 & Htransport & Hheap).
  rewrite <- Hheap in Hseen.
  destruct (callOnSuccess_returns endpointDefinition arg context response w2 seen
              Hseen Hreturns) as (w3 & Hsuccess & Hleft).
  pose proof (runTransport_transformResponse _ _ _ _ _ _ Htransport) as Htr.
  rewrite Hquery, Htransform in Htr. subst tr.
  rewrite tryBlock_unfold, Htransport, Herror, Hsuccess, Hrejects.
  eexists. split; [reflexivity|]. exact Hleft.
Qed.


(** The execution on the path of success. *)

Lemma executeEndpoint_calls_onSuccess arg w endpointDefinition w1 response
    transformResponse w2 seen onSuccess :
  endpointDefinitions !! arg_endpointName arg = Some endpointDefinition ->
  callOnStart endpointDefinition arg (fresh (dom (heap w))) (new_context w).2
    = (Returned tt, w1) ->
  runTransport endpointDefinition arg w1 = (Returned (response, transformResponse), w2) ->
  ToBoolean (BaseQueryTypes.error response) = false ->
  heap w2 !! fresh (dom (heap w)) = Some seen ->
  EndpointDefinitions.onSuccess endpointDefinition = Some onSuccess ->
  exists rest,
    trace (executeEndpoint arg w).2
    = trace w2
      ++ EvOnSuccess (fresh (dom (heap w))) seen
           (hook_context (onSuccess (arg_originalArgs arg) seen
                                    (BaseQueryTypes.data response) (meta response)))
           (arg_originalArgs arg) (BaseQueryTypes.data response) (meta response)
         :: rest.
Proof.
  intros Hdef Hstart Htransport Hfalsy Hseen HonSuccess.
  rewrite (executeEndpoint_defined _ _ _ Hdef), Hstart, tryBlock_unfold, Htransport, Hfalsy.
  rewrite (callOnSuccess_at _ _ _ _ _ _ Hseen), HonSuccess. cbn zeta.
  destruct (hook_throws _) as [e|].
  - rewrite catchBlock_unfold, callOnError_spec.
    destruct (onError _) as [onError|].
    + cbn zeta. destruct (hook_throws _); cbn [snd trace];
        rewrite <- app_assoc; cbn [app]; eauto.
    + cbn [snd trace]. eauto.
  - destruct (settles _).
    + cbn [snd trace]. rewrite <- app_assoc. cbn [app]. eauto.
    + rewrite catchBlock_unfold, callOnError_spec.
      destruct (onError _) as [onError|].
      * cbn zeta. destruct (hook_throws _); cbn [snd trace];
          rewrite <- !app_assoc; cbn [app]; eauto.
      * cbn [snd trace]. rewrite <- app_assoc. cbn [app]. eauto.
Qed.

Lemma executeEndpoint_fulfilled_path arg w endpointDefinition w1 response
    transformResponse w2 w3 transformed :
  endpointDefinitions !! arg_endpointName arg = Some endpointDefinition ->
  callOnStart endpointDefinition arg (fresh (dom (heap w))) (new_context w).2
    = (Returned tt, w1) ->
  runTransport endpointDefinition arg w1 = (Returned (response, transformResponse), w2) ->
  ToBoolean (BaseQueryTypes.error response) = false ->
  callOnSuccess endpointDefinition arg (fresh (dom (heap w))) response w2
    = (Returned tt, w3) ->
  settles (transformResponse (BaseQueryTypes.data response) (meta response))
    = Normal transformed ->
  fulfilled_by transformed
    (elapsed (transformResponse (BaseQueryTypes.data response) (meta response)))
    (BaseQueryTypes.data response) (meta response)
    (executeEndpoint arg w) (events_of (executeEndpoint arg) w).
Proof.
  intros Hdef Hstart Htransport Hfalsy Hsuccess Hsettles.
  destruct (executeEndpoint_first_steps _ _ _ _ _ _ Hstart Htransport)
    as (events1 & events2 & Htrace2 & Hrange1 & Hrange2 & _).
  destruct (in_order_callOnSuccess endpointDefinition arg (fresh (dom (heap w)))
              response w2) as (events3 & Htrace3 & _ & Hrange3).
  rewrite Hsuccess in Htrace3. cbn [snd] in Htrace3.
  assert (Hrun : executeEndpoint arg w
                 = (Returned (FulfillWith {| fulfilledTimeStamp := clock w3;
                                             result := transformed |}),
                    {| heap := heap w3;
                       clock := PrimFloat.add (clock w3)
                                  (elapsed (transformResponse (BaseQueryTypes.data response)
                                                              (meta response)));
                       trace := trace w3
                                ++ [EvDateNow (clock w3);
                                    EvTransformResponse (BaseQueryTypes.data response)
                                                        (meta response)] |})).
  { rewrite (executeEndpoint_defined _ _ _ Hdef), Hstart, tryBlock_unfold, Htransport,
      Hfalsy, Hsuccess, Hsettles. reflexivity. }
  exists (events1 ++ events2 ++ events3), (clock w3).
  split.
  { apply events_of_trace. rewrite Hrun. cbn [snd trace].
    rewrite Htrace3, Htrace2, <- !app_assoc. reflexivity. }
  rewrite Hrun. cbn [fst snd clock].
  repeat split; rewrite !calls_app, !elem_of_app; intros [Hc | [Hc | Hc]];
    solve [ apply (in_order_range _ _ _ _ Hrange1) in Hc; simpl in Hc; lia
          | apply (in_order_range _ _ _ _ Hrange2) in Hc; simpl in Hc; lia
          | apply (in_order_range _ _ _ _ Hrange3) in Hc; simpl in Hc; lia ].
Qed.

Lemma executeEndpoint_onSuccess_event arg w endpointDefinition response onSuccess :
  endpointDefinitions !! arg_endpointName arg = Some endpointDefinition ->
  (forall onStart,
     EndpointDefinitions.onStart endpointDefinition = Some onStart ->
     hook_throws (onStart (arg_originalArgs arg) ∅) = None) ->
  transport_resolves endpointDefinition (arg_originalArgs arg) response ->
  ToBoolean (BaseQueryTypes.error response) = false ->
  EndpointDefinitions.onSuccess endpointDefinition = Some onSuccess ->
  exists before after,
    events_of (executeEndpoint arg) w
    = before
      ++ EvOnSuccess (fresh (dom (heap w)))
           (context_started endpointDefinition (arg_originalArgs arg))
           (hook_context
              (onSuccess (arg_originalArgs arg)
                         (context_started endpointDefinition (arg_originalArgs arg))
                         (BaseQueryTypes.data response) (meta response)))
           (arg_originalArgs arg) (BaseQueryTypes.data response) (meta response)
         :: after
    /\ (DateNow ∉ calls before)
    /\ (TransformResponse ∉ calls before).
Proof.
  intros Hdef Hreturns Hresolves Hfalsy HonSuccess.
  destruct (callOnStart_returns endpointDefinition arg w Hreturns)
    as (w1 & Hstart & Hstarted).
  destruct (runTransport_resolves _ _ _ w1 Hresolves) as (tr & w2 & Htransport & Hheap).
  rewrite <- Hheap in Hstarted.
  destruct (executeEndpoint_first_steps _ _ _ _ _ _ Hstart Htransport)
    as (events1 & events2 & Htrace2 & Hrange1 & Hrange2 & _).
  destruct (executeEndpoint_calls_onSuccess arg w endpointDefinition w1 response tr w2
              _ onSuccess Hdef Hstart Htransport Hfalsy Hstarted HonSuccess)
    as (rest & Htrace).
  exists (events1 ++ events2), rest. split.
  { apply events_of_trace. rewrite Htrace, Htrace2, <- !app_assoc. reflexivity. }
  split; rewrite calls_app, elem_of_app; intros [Hc | Hc];
    solve [ apply (in_order_range _ _ _ _ Hrange1) in Hc; simpl in Hc; lia
          | apply (in_order_range _ _ _ _ Hrange2) in Hc; simpl in Hc; lia ].
Qed.

Lemma executeEndpoint_onError_event arg w endpointDefinition response onError :
  endpointDefinitions !! arg_endpointName arg = Some endpointDefinition ->
  (forall onStart,
     EndpointDefinitions.onStart endpointDefinition = Some onStart ->
     hook_throws (onStart (arg_originalArgs arg) ∅) = None) ->
  transport_resolves endpointDefinition (arg_originalArgs arg) response ->
  ToBoolean (BaseQueryTypes.error response) = true ->
  EndpointDefinitions.onError endpointDefinition = Some onError ->
  EvOnError (fresh (dom (heap w)))
    (context_started endpointDefinition (arg_originalArgs arg))
    (hook_context
       (onError (arg_originalArgs arg)
                (context_started endpointDefinition (arg_originalArgs arg))
                (BaseQueryTypes.error response) (meta response)))
    (arg_originalArgs arg) (BaseQueryTypes.error response) (meta response)
  ∈ events_of (executeEndpoint arg) w.
Proof.
  intros Hdef Hreturns Hresolves Htruthy HonError.
  destruct (callOnStart_returns endpointDefinition arg w Hreturns)
    as (w1 & Hstart & Hstarted).
  destruct (tryBlock_error_reported endpointDefinition arg (fresh (dom (heap w)))
              response w1 Hresolves Htruthy) as (w2 & Htry & Hheap).
  rewrite <- Hheap in Hstarted.
  pose proof (executeEndpoint_caught arg w endpointDefinition w1 _ w2 _
                Hdef Hstart Htry Hstarted) as Hcaught.
  unfold caught in Hcaught. rewrite HonError in Hcaught. exact (proj1 Hcaught).
Qed.

(** C10. When [onStart] has returned and the transport has resolved to a
    result whose [error] is falsy, [onSuccess], if defined, is called with
    the [data] and [meta] of the result as the transport gave them, before
    the clock is read and before the transform is called. When [onSuccess]
    has returned and the transform resolves, the execution reads the clock,
    then calls the transform on the same [data] and [meta], and fulfils with
    that clock reading and the transformed value; at the end the clock
    stands at the reading plus the time the transform took. The transform
    is the endpoint's own after [query]; for an endpoint with [queryFn], or
    without a [transformResponse], it is the identity, which takes no time:
    the execution fulfils with the [data] of the transport. *)
Theorem executeEndpoint_success arg w endpointDefinition response :
  endpointDefinitions !! arg_endpointName arg = Some endpointDefinition ->
  (forall onStart,
     EndpointDefinitions.onStart endpointDefinition = Some onStart ->
     hook_throws (onStart (arg_originalArgs arg) ∅) = None) ->
  transport_resolves endpointDefinition (arg_originalArgs arg) response ->
  ToBoolean (BaseQueryTypes.error response) = false ->
  (forall onSuccess,
     EndpointDefinitions.onSuccess endpointDefinition = Some onSuccess ->
     exists before after,
       events_of (executeEndpoint arg) w
       = before
         ++ EvOnSuccess (fresh (dom (heap w)))
              (context_started endpointDefinition (arg_originalArgs arg))
              (hook_context
                 (onSuccess (arg_originalArgs arg)
                            (context_started endpointDefinition (arg_originalArgs arg))
                            (BaseQueryTypes.data response) (meta response)))
              (arg_originalArgs arg) (BaseQueryTypes.data response) (meta response)
            :: after
       /\ (DateNow ∉ calls before)
       /\ (TransformResponse ∉ calls before))
  /\ ((forall onSuccess,
         EndpointDefinitions.onSuccess endpointDefinition = Some onSuccess ->
         hook_throws
           (onSuccess (arg_originalArgs arg)
                      (context_started endpointDefinition (arg_originalArgs arg))
                      (BaseQueryTypes.data response) (meta response))
         = None) ->
      (forall query transformResponse transformed,
         EndpointDefinitions.query endpointDefinition = Some query ->
         EndpointDefinitions.transformResponse endpointDefinition = Some transformResponse ->
         settles (transformResponse (BaseQueryTypes.data response) (meta response))
           = Normal transformed ->
         fulfilled_by transformed
           (elapsed (transformResponse (BaseQueryTypes.data response) (meta response)))
           (BaseQueryTypes.data response) (meta response)
           (executeEndpoint arg w) (events_of (executeEndpoint arg) w))
      /\ (EndpointDefinitions.query endpointDefinition = None
          \/ EndpointDefinitions.transformResponse endpointDefinition = None ->
          fulfilled_by (BaseQueryTypes.data response) 0%float
            (BaseQueryTypes.data response) (meta response)
            (executeEndpoint arg w) (events_of (executeEndpoint arg) w))).
Proof.
  intros Hdef Hreturns Hresolves Hfalsy.
  split.
  { intros g HonSuccess.
    exact (executeEndpoint_onSuccess_event arg w endpointDefinition response g
             Hdef Hreturns Hresolves Hfalsy HonSuccess). }
  destruct (callOnStart_returns endpointDefinition arg w Hreturns)
    as (w1 & Hstart & Hstarted).
  destruct (runTransport_resolves _ _ _ w1 Hresolves) as (tr & w2 & Htransport & Hheap).
  rewrite <- Hheap in Hstarted.
  intros Hsucceeds.
  destruct (callOnSuccess_returns endpointDefinition arg (fresh (dom (heap w))) response
              w2 _ Hstarted Hsucceeds) as (w3 & Hsuccess & _).
  pose proof (runTransport_transformResponse _ _ _ _ _ _ Htransport) as Htr.
  split.
  - intros q f transformed Hquery Htransform Hsettles.
    rewrite Hquery, Htransform in Htr. subst tr.
    exact (executeEndpoint_fulfilled_path arg w endpointDefinition w1 response f w2 w3
             transformed Hdef Hstart Htransport Hfalsy Hsuccess Hsettles).
  - intros Hdefault.
    assert (Hidentity : tr = fun v _ => resolved (defaultTransformResponse v)).
    { rewrite Htr. destruct Hdefault as [-> | ->]; [reflexivity|].
      destruct (query endpointDefinition); reflexivity. }
    clear Htr. subst tr.
    exact (executeEndpoint_fulfilled_path arg w endpointDefinition w1 response _ w2 w3
             (BaseQueryTypes.data response) Hdef Hstart Htransport Hfalsy Hsuccess
             eq_refl).
Qed.

(** The context object of an execution. *)

Lemma executeEndpoint_runs arg w :
  exists events,
    trace (executeEndpoint arg w).2 = trace w ++ events
    /\ shared_context (fresh (dom (heap w))) ∅ events
    /\ heap (executeEndpoint arg w).2
       = <[fresh (dom (heap w)) := context_after ∅ events]> (heap w)
    /\ forall endpointDefinition onStart,
         endpointDefinitions !! arg_endpointName arg = Some endpointDefinition ->
         EndpointDefinitions.onStart endpointDefinition = Some onStart ->
         exists rest,
           events = EvOnStart (fresh (dom (heap w))) ∅
                              (hook_context (onStart (arg_originalArgs arg) ∅))
                              (arg_originalArgs arg) :: rest.
Proof.
  set (context := fresh (dom (heap w))).
  destruct (endpointDefinitions !! arg_endpointName arg) as [endpointDefinition|] eqn:Hdef.
  - assert (Hsteady : steady context
              (callOnStart endpointDefinition arg context;;
               try_catch (tryBlock endpointDefinition arg context)
                         (catchBlock endpointDefinition arg context))).
    { apply steady_bind; [apply steady_callOnStart|]. intros _.
      apply steady_try_catch; [apply steady_tryBlock|apply steady_catchBlock]. }
    assert (Hnew : heap (new_context w).2 !! context = Some ∅)
      by apply lookup_insert_eq.
    destruct (Hsteady _ _ Hnew) as (events & Htrace & Hshared & Hheap).
    exists events. rewrite (executeEndpoint_body _ _ _ Hdef).
    fold context. rewrite Htrace, Hheap. simpl. rewrite insert_insert_eq.
    repeat split; [exact Hshared|].
    intros endpointDefinition' onStart [= <-] HonStart.
    revert Htrace. unfold mbind, Exec_bind, bind.
    rewrite callOnStart_spec, HonStart, Hnew. cbn [default].
    destruct (hook_throws _).
    + cbn [snd trace new_context]. intros Htrace.
      apply app_inv_head in Htrace. eauto.
    + assert (Hrest : steady context
                (try_catch (tryBlock endpointDefinition arg context)
                           (catchBlock endpointDefinition arg context)))
        by (apply steady_try_catch; [apply steady_tryBlock|apply steady_catchBlock]).
      match goal with
      | |- context [try_catch _ _ ?w1] =>
          destruct (Hrest w1 (hook_context (onStart (arg_originalArgs arg) ∅)))
            as (events' & Htrace' & _)
      end; [apply lookup_insert_eq|].
      rewrite Htrace'. cbn [trace new_context snd]. rewrite <- app_assoc.
      intros Htrace. apply app_inv_head in Htrace. eauto.
  - exists []. rewrite (executeEndpoint_undefined _ _ Hdef). simpl.
    rewrite app_nil_r. repeat split. intros ? ? [=].
Qed.

(** C9. An execution allocates its [context] object at an address the heap
    did not use, and the object is still there when the execution has ended.
    Every hook call of the execution is given that object and sees in it what
    the hook call before it left, the first one seeing no property at all;
    each is the endpoint's hook applied to what it saw, so that what it
    leaves in the object depends on what the hooks before it stashed there;
    nothing else of the heap changes. Where [onStart] is defined its call is
    the first event of the execution, ahead of any call of the transport;
    [onSuccess], after a result without error, and [onError], after a result
    with an error, are called on the object as [onStart] left it. An
    execution that starts where this one ended allocates another object and
    leaves the object of this one as it is. *)
Theorem executeEndpoint_context arg w :
  heap w !! fresh (dom (heap w)) = None
  /\ fresh (dom (heap w)) ∈ dom (heap (executeEndpoint arg w).2)
  /\ (exists events,
        trace (executeEndpoint arg w).2 = trace w ++ events
        /\ shared_context (fresh (dom (heap w))) ∅ events
        /\ heap (executeEndpoint arg w).2
           = <[fresh (dom (heap w)) := context_after ∅ events]> (heap w)
        /\ forall endpointDefinition,
             endpointDefinitions !! arg_endpointName arg = Some endpointDefinition ->
             Forall (hook_applied endpointDefinition) events
             /\ forall onStart,
                  EndpointDefinitions.onStart endpointDefinition = Some onStart ->
                  exists rest,
                    events = EvOnStart (fresh (dom (heap w))) ∅
                                       (hook_context (onStart (arg_originalArgs arg) ∅))
                                       (arg_originalArgs arg) :: rest)
  /\ (forall endpointDefinition response,
        endpointDefinitions !! arg_endpointName arg = Some endpointDefinition ->
        (forall onStart,
           EndpointDefinitions.onStart endpointDefinition = Some onStart ->
           hook_throws (onStart (arg_originalArgs arg) ∅) = None) ->
        transport_resolves endpointDefinition (arg_originalArgs arg) response ->
        (ToBoolean (BaseQueryTypes.error response) = false ->
         forall onSuccess,
           EndpointDefinitions.onSuccess endpointDefinition = Some onSuccess ->
           EvOnSuccess (fresh (dom (heap w)))
             (context_started endpointDefinition (arg_originalArgs arg))
             (hook_context
                (onSuccess (arg_originalArgs arg)
                           (context_started endpointDefinition (arg_originalArgs arg))
                           (BaseQueryTypes.data response) (meta response)))
             (arg_originalArgs arg) (BaseQueryTypes.data response) (meta response)
           ∈ events_of (executeEndpoint arg) w)
        /\ (ToBoolean (BaseQueryTypes.error response) = true ->
            forall onError,
              EndpointDefinitions.onError endpointDefinition = Some onError ->
              EvOnError (fresh (dom (heap w)))
                (context_started endpointDefinition (arg_originalArgs arg))
                (hook_context
                   (onError (arg_originalArgs arg)
                            (context_started endpointDefinition (arg_originalArgs arg))
                            (BaseQueryTypes.error response) (meta response)))
                (arg_originalArgs arg) (BaseQueryTypes.error response) (meta response)
              ∈ events_of (executeEndpoint arg) w))
  /\ forall arg',
       fresh (dom (heap (executeEndpoint arg w).2)) <> fresh (dom (heap w))
       /\ heap (executeEndpoint arg' (executeEndpoint arg w).2).2 !! fresh (dom (heap w))
          = heap (executeEndpoint arg w).2 !! fresh (dom (heap w)).
Proof.
  assert (Hfresh : heap w !! fresh (dom (heap w)) = None) by apply not_elem_of_dom, is_fresh.
  assert (Hthere : fresh (dom (heap w)) ∈ dom (heap (executeEndpoint arg w).2)).
  { destruct (executeEndpoint_runs arg w) as (events & _ & _ & -> & _).
    apply elem_of_dom. rewrite lookup_insert_eq. eauto. }
  assert (Hother : fresh (dom (heap (executeEndpoint arg w).2)) <> fresh (dom (heap w))).
  { intros Heq. apply (is_fresh (dom (heap (executeEndpoint arg w).2))).
    rewrite Heq. exact Hthere. }
  split; [exact Hfresh|]. split; [exact Hthere|]. split; [|split].
  - destruct (executeEndpoint_runs arg w) as (events & Htrace & Hshared & Hheap & Hfirst).
    exists events. split; [exact Htrace|]. split; [exact Hshared|]. split; [exact Hheap|].
    intros endpointDefinition Hdef. split; [|eauto].
    destruct (adds_applied_executeEndpoint arg endpointDefinition Hdef w)
      as (events' & Htrace' & Happlied).
    rewrite Htrace in Htrace'. apply app_inv_head in Htrace'. subst events'.
    exact Happlied.
  - intros endpointDefinition response Hdef Hreturns Hresolves. split.
    + intros Hfalsy g HonSuccess.
      destruct (executeEndpoint_onSuccess_event arg w endpointDefinition response g
                  Hdef Hreturns Hresolves Hfalsy HonSuccess)
        as (before & after & -> & _).
      rewrite elem_of_app. right. left.
    + intros Htruthy h HonError.
      exact (executeEndpoint_onError_event arg w endpointDefinition response h
               Hdef Hreturns Hresolves Htruthy HonError).
  - intros arg'. split; [exact Hother|].
    destruct (executeEndpoint_runs arg' (executeEndpoint arg w).2)
      as (events & _ & _ & -> & _).
    apply lookup_insert_ne. exact Hother.
Qed.
End execution.

(** ** The executor on the lifecycle scenarios *)

Example lifecycle_success :
  executeEndpoint answering endpoints (thunk_arg "query") quiet
  = (Returned (FulfillWith
                 {| fulfilledTimeStamp :=
                      PrimFloat.add (PrimFloat.add (PrimFloat.add t0 1%float) 25%float)
                                    3%float;
                    result := VObj [("body"%string, success_response)] |}),
     {| heap := {[ 1%positive := {[ "stash"%string := VNum 1%float ]} ]};
        clock := PrimFloat.add
                   (PrimFloat.add (PrimFloat.add (PrimFloat.add t0 1%float) 25%float)
                                  3%float)
                   5%float;
        trace := [EvOnStart 1 ∅ {[ "stash"%string := VNum 1%float ]} (VNum 1%float);
                  EvDispatch (setCount 0%float);
                  EvQuery (VNum 1%float);
                  EvBaseQuery (VStr "/success") VUndefined;
                  EvOnSuccess 1 {[ "stash"%string := VNum 1%float ]}
                              {[ "stash"%string := VNum 1%float ]}
                              (VNum 1%float) success_response VUndefined;
                  EvDispatch (setCount 1%float);
                  EvDispatch (VNum 1%float);
                  EvDateNow (PrimFloat.add
                               (PrimFloat.add (PrimFloat.add t0 1%float) 25%float)
                               3%float);
                  EvTransformResponse success_response VUndefined] |}).
Proof. vm_compute. reflexivity. Qed.

Example lifecycle_failure :
  executeEndpoint failing endpoints (thunk_arg "query") quiet
  = (Returned (RejectWithValue error_500),
     {| heap := {[ 1%positive := {[ "stash"%string := VNum 1%float ]} ]};
        clock := PrimFloat.add (PrimFloat.add (PrimFloat.add t0 1%float) 25%float)
                               2%float;
        trace := [EvOnStart 1 ∅ {[ "stash"%string := VNum 1%float ]} (VNum 1%float);
                  EvDispatch (setCount 0%float);
                  EvQuery (VNum 1%float);
                  EvBaseQuery (VStr "/success") VUndefined;
                  EvOnError 1 {[ "stash"%string := VNum 1%float ]}
                            {[ "stash"%string := VNum 1%float ]}
                            (VNum 1%float) error_500 response_meta;
                  EvDispatch (setCount (-1)%float);
                  EvDispatch (VNum 1%float)] |}).
Proof. vm_compute. reflexivity. Qed.

(** An exception of [onSuccess] reaches [onError], which finds in the context
    what [onStart] and [onSuccess] left there, and is thrown again. *)
Example onSuccess_exception_reaches_onError :
  executeEndpoint answering endpoints (thunk_arg "onSuccessThrows") quiet
  = (Threw (OtherError (VStr "onSuccess failed")),
     {| heap := {[ 1%positive := {[ "stash"%string := VNum 1%float;
                                    "seen"%string := success_response ]} ]};
        clock := PrimFloat.add
                   (PrimFloat.add (PrimFloat.add (PrimFloat.add t0 1%float) 25%float)
                                  3%float)
                   2%float;
        trace := [EvOnStart 1 ∅ {[ "stash"%string := VNum 1%float ]} (VNum 1%float);
                  EvDispatch (setCount 0%float);
                  EvQuery (VNum 1%float);
                  EvBaseQuery (VStr "/success") VUndefined;
                  EvOnSuccess 1 {[ "stash"%string := VNum 1%float ]}
                              {[ "stash"%string := VNum 1%float;
                                 "seen"%string := success_response ]}
                              (VNum 1%float) success_response VUndefined;
                  EvOnError 1 {[ "stash"%string := VNum 1%float;
                                 "seen"%string := success_response ]}
                            {[ "stash"%string := VNum 1%float;
                               "seen"%string := success_response ]}
                            (VNum 1%float) (VStr "onSuccess failed") VUndefined;
                  EvDispatch (setCount (-1)%float);
                  EvDispatch (VNum 1%float)] |}).
Proof. vm_compute. reflexivity. Qed.


(** The hooks of the lifecycle query return, and the transports of the
    scenarios settle as they are written. *)
Lemma lifecycle_onStart_returns (endpointDefinition : EndpointDefinition) (args : value) :
  onStart endpointDefinition = onStart lifecycle_query ->
  forall f, onStart endpointDefinition = Some f -> hook_throws (f args ∅) = None.
Proof. intros -> f [= <-]. reflexivity. Qed.

Lemma lifecycle_onSuccess_returns (endpointDefinition : EndpointDefinition)
    (args data meta : value) (seen : Context) :
  onSuccess endpointDefinition = onSuccess lifecycle_query ->
  forall g, onSuccess endpointDefinition = Some g -> hook_throws (g args seen data meta) = None.
Proof. intros -> g [= <-]. reflexivity. Qed.


Lemma executeEndpoint_success_witness :
  TraceReading.fulfilled_by (VObj [("body"%string, success_response)]) 5%float
    success_response VUndefined
    (executeEndpoint answering endpoints (thunk_arg "query") quiet)
    (TraceReading.events_of (executeEndpoint answering endpoints (thunk_arg "query")) quiet)
  /\ TraceReading.fulfilled_by success_response 0%float success_response VUndefined
       (executeEndpoint answering endpoints mutation_arg quiet)
       (TraceReading.events_of (executeEndpoint answering endpoints mutation_arg) quiet).
Proof.
  pose (answer := {| BaseQueryTypes.error := VUndefined;
                     BaseQueryTypes.data := success_response;
                     meta := VUndefined |}).
  split.
  - assert (Hresolves : transport_resolves answering lifecycle_query
                          (arg_originalArgs (thunk_arg "query")) answer)
      by (exists (VStr "/success"); split; reflexivity).
    destruct (executeEndpoint_success answering endpoints (thunk_arg "query") quiet
                lifecycle_query answer eq_refl
                (lifecycle_onStart_returns lifecycle_query _ eq_refl)
                Hresolves eq_refl) as [_ Hfulfils].
    destruct (Hfulfils (lifecycle_onSuccess_returns lifecycle_query _ _ _ _ eq_refl))
      as [Hown _].
    exact (Hown _ _ (VObj [("body"%string, success_response)]) eq_refl eq_refl eq_refl).
  - assert (Hresolves : transport_resolves answering updateUser
                          (arg_originalArgs mutation_arg) answer)
      by (exists (VNum 1%float); split; reflexivity).
    assert (Hstarts : forall f, onStart updateUser = Some f ->
                                hook_throws (f (arg_originalArgs mutation_arg) ∅) = None)
      by (intros f [=]).
    assert (Hsucceeds : forall g, onSuccess updateUser = Some g ->
              hook_throws (g (arg_originalArgs mutation_arg)
                             (context_started updateUser (arg_originalArgs mutation_arg))
                             (BaseQueryTypes.data answer) (meta answer)) = None)
      by (intros g [=]).
    destruct (executeEndpoint_success answering endpoints mutation_arg quiet
                updateUser answer eq_refl Hstarts Hresolves eq_refl) as [_ Hfulfils].
    destruct (Hfulfils Hsucceeds) as [_ Hdefault].
    apply Hdefault. right. reflexivity.
Defined.

Lemma executeEndpoint_context_witness :
  EvOnSuccess (fresh (dom (heap quiet)))
    {[ "stash"%string := VNum 1%float ]} {[ "stash"%string := VNum 1%float ]}
    (VNum 1%float) success_response VUndefined
  ∈ TraceReading.events_of (executeEndpoint answering endpoints (thunk_arg "query")) quiet
  /\ EvOnError (fresh (dom (heap quiet)))
       {[ "stash"%string := VNum 1%float ]} {[ "stash"%string := VNum 1%float ]}
       (VNum 1%float) error_500 response_meta
     ∈ TraceReading.events_of (executeEndpoint failing endpoints (thunk_arg "query")) quiet.
Proof.
  pose (answer := {| BaseQueryTypes.error := VUndefined;
                     BaseQueryTypes.data := success_response;
                     meta := VUndefined |}).
  pose (failure := {| BaseQueryTypes.error := error_500;
                      BaseQueryTypes.data := VUndefined;
                      meta := response_meta |}).
  split.
  - destruct (executeEndpoint_context answering endpoints (thunk_arg "query") quiet)
      as (_ & _ & _ & Hhooks & _).
    assert (Hresolves : transport_resolves answering lifecycle_query
                          (arg_originalArgs (thunk_arg "query")) answer)
      by (exists (VStr "/success"); split; reflexivity).
    exact (proj1 (Hhooks lifecycle_query answer eq_refl
                    (lifecycle_onStart_returns lifecycle_query _ eq_refl) Hresolves)
                 eq_refl _ eq_refl).
  - destruct (executeEndpoint_context failing endpoints (thunk_arg "query") quiet)
      as (_ & _ & _ & Hhooks & _).
    assert (Hresolves : transport_resolves failing lifecycle_query
                          (arg_originalArgs (thunk_arg "query")) failure)
      by (exists (VStr "/success"); split; reflexivity).
    exact (proj2 (Hhooks lifecycle_query failure eq_refl
                    (lifecycle_onStart_returns lifecycle_query _ eq_refl) Hresolves)
                 eq_refl _ eq_refl).
Defined.


(** ** The cache under dispatches on the scenarios *)



Example second_dispatch_is_skipped :
  inflight (run sliceReducer
              [Dispatch (getUser_arg None) "request-1" t0;
               Dispatch (getUser_arg (Some (IsBool true))) "request-2" t1]
              {| state := no_entries; inflight := [] |})
  = [("getUser"%string, "request-1"%string)].
Proof. vm_compute. reflexivity. Qed.

Example settled_then_forced :
  inflight (run sliceReducer
              [Dispatch (getUser_arg None) "request-1" t0;
               Settle "getUser" "request-1"
                      (Returned (FulfillWith {| fulfilledTimeStamp := t0;
                                                result := VStr "Ada" |}));
               Dispatch (getUser_arg None) "request-2" t1;
               Dispatch (getUser_arg (Some (IsBool true))) "request-3" t1]
              {| state := no_entries; inflight := [] |})
  = [("getUser"%string, "request-3"%string)].
Proof. vm_compute. reflexivity. Qed.

(** * Further properties of the code *)

(** ** Where the refetch value of the run condition comes from *)

(** X1. An explicit [forceRefetch] decides alone: the condition is then the
    same for every [subscribe] flag and every configured
    [refetchOnMountOrArgChange]. With [forceRefetch] left out, a subscribing
    dispatch uses the configured value as if it had been passed as
    [forceRefetch], and a dispatch that does not subscribe never refetches a
    cached entry, whatever is configured. *)
Theorem condition_refetch_precedence arg state now :
  (forall v arg' state',
     forceRefetch arg = Some v ->
     forceRefetch arg' = Some v ->
     queryCacheKey arg' = queryCacheKey arg ->
     queries state' = queries state ->
     condition arg' state' now = condition arg state now)
  /\ (forceRefetch arg = None ->
      subscribe arg = Some true ->
      forall arg',
        forceRefetch arg' = Some (refetchOnMountOrArgChange (config state)) ->
        queryCacheKey arg' = queryCacheKey arg ->
        condition arg state now = condition arg' state now)
  /\ (forceRefetch arg = None ->
      subscribe arg <> Some true ->
      condition arg state now
      = negb (bool_decide (status <$> requestState arg state = Some pending))
        && negb (truthy_timestamp (fulfilledVal arg state))).
Proof.
  split; [|split].
  - intros v arg' state' Hv Hv' Hkey Hqueries.
    unfold condition, fulfilledVal, requestState, refetchVal.
    rewrite Hv, Hv', Hkey, Hqueries. reflexivity.
  - intros Hnone Hsub arg' Hv' Hkey.
    unfold condition, fulfilledVal, requestState, refetchVal.
    rewrite Hnone, Hsub, Hv', Hkey. reflexivity.
  - intros Hnone Hsub.
    unfold condition, refetchVal. rewrite Hnone.
    destruct (bool_decide _); [reflexivity|].
    destruct (truthy_timestamp _); [|reflexivity].
    destruct (subscribe arg) as [[|]|]; [contradiction| |]; reflexivity.
Qed.

Example forceRefetch_false_overrides_config :
  let always := {| queries := queries getUser_cached;
                   config := {| refetchOnMountOrArgChange := IsBool true |} |} in
  condition (getUser_arg None) always t1 = true
  /\ condition (getUser_arg (Some (IsBool false))) always t1 = false.
Proof. split; vm_compute; reflexivity. Qed.

(** ** More on the prefetch thunk *)

Section prefetch_more.

Variable endpointDefinitions : EndpointDefinitions.
Variable serializeQueryArgs : value -> option EndpointDefinition -> string -> string.

#[local] Abbreviation key := (computedKey endpointDefinitions serializeQueryArgs).
#[local] Abbreviation prefetchThunk := (prefetchThunk endpointDefinitions serializeQueryArgs).
#[local] Abbreviation initiate := (initiate endpointDefinitions serializeQueryArgs).
#[local] Abbreviation performs :=
  (prefetch_performs_query endpointDefinitions serializeQueryArgs).

Lemma prefetchThunk_cases endpointName arg options state now :
  prefetchThunk endpointName arg options state now = []
  \/ exists b, prefetchThunk endpointName arg options state now
               = [initiate endpointName arg (Some (IsBool b)) now].
Proof.
  unfold BuildThunks.prefetchThunk.
  destruct (hasTheForce options && _); [eauto|].
  destruct (truthy _); [|eauto].
  destruct (negb _); [eauto|].
  destruct (ge _ _); eauto.
Qed.

(** X2. Whatever the options, the prefetch dispatches at most one query
    thunk; the one it dispatches is for the computed key of the endpoint and
    the argument, carries the argument, and has a boolean [forceRefetch]. And
    no option makes a query run for a key whose entry is pending. *)
Theorem prefetch_dispatches_at_most_one endpointName arg options state now now' :
  length (prefetchThunk endpointName arg options state now) <= 1
  /\ (forall a,
        a ∈ prefetchThunk endpointName arg options state now ->
        queryCacheKey a = key endpointName arg
        /\ originalArgs a = arg
        /\ BuildThunks.endpointName a = endpointName
        /\ exists b, forceRefetch a = Some (IsBool b))
  /\ (status <$> queries state !! key endpointName arg = Some pending ->
      performs endpointName arg options state now now' = false).
Proof.
  destruct (prefetchThunk_cases endpointName arg options state now) as [Hnil | [b Hone]].
  - unfold prefetch_performs_query. rewrite Hnil. simpl.
    split; [lia|]. split; [|reflexivity]. intros a Ha. inversion Ha.
  - unfold prefetch_performs_query. rewrite Hone. simpl.
    split; [lia|]. split.
    + intros a Ha. apply list_elem_of_singleton in Ha as ->. simpl. eauto.
    + intros Hpending. rewrite orb_false_r. apply condition_pending. exact Hpending.
Qed.

(** X3. [force: true] wins over [ifOlderThan]: whatever age option comes with
    it and whatever the cache holds, the prefetch dispatches one forced query,
    which runs exactly when the entry is not pending. Options that are all
    falsy ([force] absent or [false]; [ifOlderThan] absent, [false], [0] or
    [NaN]) are no options: the thunk dispatches what it dispatches for [{}]. *)
Theorem prefetch_option_precedence endpointName arg options state now now' :
  (force options = Some true ->
   prefetchThunk endpointName arg options state now
   = [initiate endpointName arg (Some (IsBool true)) now]
   /\ (performs endpointName arg options state now now' = true
       <-> status <$> queries state !! key endpointName arg <> Some pending))
  /\ (default false (force options) = false ->
      truthy (ifOlderThan options) = false ->
      prefetchThunk endpointName arg options state now
      = prefetchThunk endpointName arg {| force := None; ifOlderThan := None |} state now).
Proof.
  split.
  - intros Hforce.
    assert (Heq : prefetchThunk endpointName arg options state now
                  = [initiate endpointName arg (Some (IsBool true)) now]).
    { unfold BuildThunks.prefetchThunk, hasTheForce. rewrite Hforce. reflexivity. }
    split; [exact Heq|].
    unfold prefetch_performs_query. rewrite Heq. cbn [existsb].
    rewrite orb_false_r.
    unfold starts_query, condition, requestState, fulfilledVal, refetchVal. cbn.
    destruct (bool_decide _) eqn:Hp.
    + apply bool_decide_eq_true in Hp. split; [discriminate|contradiction].
    + apply bool_decide_eq_false in Hp.
      destruct (truthy_timestamp _); tauto.
  - intros Hforce Hage.
    unfold BuildThunks.prefetchThunk, hasTheForce, hasMaxAge. rewrite Hforce.
    rewrite andb_false_r. cbn [BuildThunks.force BuildThunks.ifOlderThan].
    destruct (bool_decide (is_Some (ifOlderThan options))); [rewrite Hage|]; reflexivity.
Qed.

End prefetch_more.

Lemma prefetch_option_precedence_witness :
  prefetchThunk ∅ serializeByName "getUser" (VNum 1%float)
    {| force := Some true; ifOlderThan := Some (IsNumber 3600%float) |} getUser_cached t1
  = [initiate ∅ serializeByName "getUser" (VNum 1%float) (Some (IsBool true)) t1].
Proof.
  destruct (prefetch_option_precedence ∅ serializeByName "getUser" (VNum 1%float)
              {| force := Some true; ifOlderThan := Some (IsNumber 3600%float) |}
              getUser_cached t1 t1) as [Hforce _].
  exact (proj1 (Hforce eq_refl)).
Defined.

(** ** Patching a cached result *)

Section patches_more.

Variable endpointDefinitions : EndpointDefinitions.
Variable serializeQueryArgs : value -> option EndpointDefinition -> string -> string.
Variable isDraftable : value -> bool.
Variable produceWithPatches : value -> (value -> value) -> value * list Patch * list Patch.

#[local] Abbreviation key := (computedKey endpointDefinitions serializeQueryArgs).
#[local] Abbreviation patchQueryResult :=
  (patchQueryResult endpointDefinitions serializeQueryArgs).
#[local] Abbreviation updateQueryResult :=
  (updateQueryResult endpointDefinitions serializeQueryArgs isDraftable produceWithPatches).

(** X4. For a key the cache holds, [updateQueryResult] does nothing while the
    entry is uninitialized. Otherwise it dispatches exactly what
    [patchQueryResult] dispatches for the patches it returns, also when there
    are none: an entry without [data] gives the empty patch sets, a value
    that is not draftable gives one root [replace] each way (the recipe's
    result forward, the cached value back), and a draftable value gives the
    patches immer computed. *)
Theorem updateQueryResult_patches endpointName args updateRecipe state entry :
  queries state !! key endpointName args = Some entry ->
  (status entry = uninitialized ->
   updateQueryResult endpointName args updateRecipe state
   = ({| BuildThunks.patches := []; inversePatches := [] |}, []))
  /\ (status entry <> uninitialized ->
      (updateQueryResult endpointName args updateRecipe state).2
      = patchQueryResult endpointName args
          (BuildThunks.patches (updateQueryResult endpointName args updateRecipe state).1)
      /\ (ApiState.data entry = None ->
          (updateQueryResult endpointName args updateRecipe state).1
          = {| BuildThunks.patches := []; inversePatches := [] |})
      /\ (forall data,
            ApiState.data entry = Some data ->
            isDraftable data = false ->
            (updateQueryResult endpointName args updateRecipe state).1
            = {| BuildThunks.patches :=
                   [{| op := replace; path := []; patch_value := updateRecipe data |}];
                 inversePatches :=
                   [{| op := replace; path := []; patch_value := data |}] |})
      /\ (forall data,
            ApiState.data entry = Some data ->
            isDraftable data = true ->
            (updateQueryResult endpointName args updateRecipe state).1
            = {| BuildThunks.patches := (produceWithPatches data updateRecipe).1.2;
                 inversePatches := (produceWithPatches data updateRecipe).2 |})).
Proof.
  intros Hentry. unfold BuildThunks.updateQueryResult, select. cbv zeta.
  rewrite Hentry. cbn [default]. unfold Datatypes.id.
  split.
  - intros Hstatus. rewrite bool_decide_eq_true_2 by exact Hstatus. reflexivity.
  - intros Hstatus. rewrite bool_decide_eq_false_2 by exact Hstatus.
    split; [reflexivity|]. cbn [fst]. split; [|split].
    + intros ->. reflexivity.
    + intros data -> ->. reflexivity.
    + intros data -> ->.
      destruct (produceWithPatches data updateRecipe) as [[next patches'] inversePatches'].
      reflexivity.
Qed.

End patches_more.

Lemma updateQueryResult_patches_witness :
  (updateQueryResult ∅ serializeByName (fun _ => false) (fun v _ => (v, [], []))
     "getUser" (VNum 1%float) (fun _ => VStr "Grace") getUser_pending).2
  = patchQueryResult ∅ serializeByName "getUser" (VNum 1%float)
      (BuildThunks.patches
         (updateQueryResult ∅ serializeByName (fun _ => false) (fun v _ => (v, [], []))
            "getUser" (VNum 1%float) (fun _ => VStr "Grace") getUser_pending).1).
Proof.
  refine (proj1 (proj2 (updateQueryResult_patches ∅ serializeByName (fun _ => false)
                          (fun v _ => (v, [], [])) "getUser" (VNum 1%float)
                          (fun _ => VStr "Grace") getUser_pending entry_pending _) _)).
  - vm_compute. reflexivity.
  - vm_compute. discriminate.
Defined.

(** ** The action matchers *)

Lemma string_app_inv_head (p a b : string) : p +:+ a = p +:+ b -> a = b.
Proof. apply (inj (String.append p)). Qed.

Lemma string_app_assoc' (a b c : string) : (a +:+ b) +:+ c = a +:+ (b +:+ c).
Proof.
  induction a as [|x a IH]; [reflexivity|].
  change (String x ((a +:+ b) +:+ c) = String x (a +:+ (b +:+ c))).
  f_equal. exact IH.
Qed.

Lemma elem_of_three {A} (x a b c : A) : x ∈ [a; b; c] -> x = a \/ x = b \/ x = c.
Proof. rewrite !elem_of_cons, elem_of_nil. tauto. Qed.

Section matchers.

Import Matchers.

(** Two thunk types with a common prefix are equal only if what follows the
    prefix is. *)
Lemma thunk_types_differ (reducerPath thunk thunk' kind kind' : string) :
  thunk +:+ kind <> thunk' +:+ kind' ->
  (reducerPath +:+ thunk) +:+ kind <> (reducerPath +:+ thunk') +:+ kind'.
Proof.
  intros Hne Heq. apply Hne.
  rewrite !string_app_assoc' in Heq. exact (string_app_inv_head _ _ _ Heq).
Qed.

(** X6. Of the three matchers [buildMatchThunkActions] builds for a thunk and
    an endpoint, at most one matches an action. A matcher built for one
    endpoint matches no action that a matcher built for another endpoint
    matches, and a matcher built for the query thunk of a [reducerPath]
    matches no action that a matcher built for its mutation thunk matches. *)
Theorem buildMatchThunkActions_exclusive (thunk : AsyncThunk) (endpointName : string)
    (action : AnyAction) :
  (matchPending (buildMatchThunkActions thunk endpointName) action
   && matchFulfilled (buildMatchThunkActions thunk endpointName) action = false)
  /\ (matchPending (buildMatchThunkActions thunk endpointName) action
      && matchRejected (buildMatchThunkActions thunk endpointName) action = false)
  /\ (matchFulfilled (buildMatchThunkActions thunk endpointName) action
      && matchRejected (buildMatchThunkActions thunk endpointName) action = false)
  /\ (forall other thunk' (pick pick' : Matchers -> AnyAction -> bool),
        pick ∈ [matchPending; matchFulfilled; matchRejected] ->
        pick' ∈ [matchPending; matchFulfilled; matchRejected] ->
        other <> endpointName ->
        pick (buildMatchThunkActions thunk endpointName) action = true ->
        pick' (buildMatchThunkActions thunk' other) action = false)
  /\ (forall reducerPath other (pick pick' : Matchers -> AnyAction -> bool),
        pick ∈ [matchPending; matchFulfilled; matchRejected] ->
        pick' ∈ [matchPending; matchFulfilled; matchRejected] ->
        pick (buildMatchThunkActions (queryThunk reducerPath) endpointName) action = true ->
        pick' (buildMatchThunkActions (mutationThunk reducerPath) other) action = false).
Proof.
  assert (Hkinds : forall kind kind' : string,
            kind <> kind' ->
            bool_decide (type action = typePrefix thunk +:+ kind)
            && bool_decide (type action = typePrefix thunk +:+ kind') = false).
  { intros kind kind' Hne. apply andb_false_iff.
    destruct (bool_decide (type action = typePrefix thunk +:+ kind)) eqn:H1; [right|by left].
    apply bool_decide_eq_true in H1. apply bool_decide_eq_false. rewrite H1.
    intros Heq. apply Hne. exact (string_app_inv_head _ _ _ Heq). }
  assert (Hboth : forall t t' a b : bool, t && t' = false -> (t && a) && (t' && b) = false).
  { intros [] [] [] []; simpl; congruence. }
  split; [|split; [|split; [|split]]].
  - cbn. unfold isAllOf, isPending, isFulfilled. apply Hboth, Hkinds. discriminate.
  - cbn. unfold isAllOf, isPending, isRejected. apply Hboth, Hkinds. discriminate.
  - cbn. unfold isAllOf, isFulfilled, isRejected. apply Hboth, Hkinds. discriminate.
  - intros other thunk' pick pick' Hpick Hpick' Hne Hmatch.
    assert (Hname : matchesEndpoint endpointName action = true).
    { destruct (elem_of_three _ _ _ _ Hpick) as [-> | [-> | ->]];
        cbn in Hmatch; unfold isAllOf in Hmatch;
        apply andb_true_iff in Hmatch as [_ Hmatch]; exact Hmatch. }
    assert (Hother : matchesEndpoint other action = false).
    { unfold matchesEndpoint in *. apply bool_decide_eq_true in Hname.
      apply bool_decide_eq_false. rewrite Hname. congruence. }
    destruct (elem_of_three _ _ _ _ Hpick') as [-> | [-> | ->]];
      cbn; unfold isAllOf; rewrite Hother; apply andb_false_r.
  - intros reducerPath other pick pick' Hpick Hpick' Hmatch.
    assert (Htype : exists kind : string,
              (kind = "/pending" \/ kind = "/fulfilled" \/ kind = "/rejected")%string
              /\ type action = (reducerPath +:+ "/executeQuery") +:+ kind).
    { destruct (elem_of_three _ _ _ _ Hpick) as [-> | [-> | ->]];
        cbn in Hmatch; unfold isAllOf in Hmatch;
        apply andb_true_iff in Hmatch as [Hmatch _];
        apply bool_decide_eq_true in Hmatch; eexists; (split; [|exact Hmatch]); tauto. }
    destruct Htype as (kind & Hkind & Htype).
    assert (Hno : forall kind' : string,
              (kind' = "/pending" \/ kind' = "/fulfilled" \/ kind' = "/rejected")%string ->
              bool_decide (type action = (reducerPath +:+ "/executeMutation") +:+ kind')
              = false).
    { intros kind' Hkind'. apply bool_decide_eq_false. rewrite Htype.
      apply thunk_types_differ.
      destruct Hkind as [-> | [-> | ->]]; destruct Hkind' as [-> | [-> | ->]];
        vm_compute; discriminate. }
    destruct (elem_of_three _ _ _ _ Hpick') as [-> | [-> | ->]];
      cbn; unfold isAllOf;
      [unfold isPending|unfold isFulfilled|unfold isRejected]; cbn;
      rewrite Hno by tauto; reflexivity.
Qed.

End matchers.

(** ** The state selectors of the query hooks *)

Section selectors.

Import BuildHooks.

(** X7. What [defaultQueryStateSelector] reports of a request: [isFetching]
    is the [isLoading] flag of the cache entry; [isLoading] holds only while
    fetching with no data to show; a fetch with data to show reports success
    and not loading; and the result is loading and successful at once only if
    the cache entry itself was. Every other property of the entry is handed
    on. *)
Theorem defaultQueryStateSelector_flags (currentState : SelectedState)
    (lastResult : option UseQueryStateDefaultResult) :
  isFetching (defaultQueryStateSelector currentState lastResult) = isLoading currentState
  /\ (isLoading (substate (defaultQueryStateSelector currentState lastResult)) = true ->
      isFetching (defaultQueryStateSelector currentState lastResult) = true
      /\ ToBoolean (data (substate (defaultQueryStateSelector currentState lastResult)))
         = false)
  /\ (isFetching (defaultQueryStateSelector currentState lastResult) = true ->
      ToBoolean (data (substate (defaultQueryStateSelector currentState lastResult))) = true ->
      isSuccess (substate (defaultQueryStateSelector currentState lastResult)) = true
      /\ isLoading (substate (defaultQueryStateSelector currentState lastResult)) = false)
  /\ (isLoading (substate (defaultQueryStateSelector currentState lastResult)) = true ->
      isSuccess (substate (defaultQueryStateSelector currentState lastResult)) = true ->
      isLoading currentState = true /\ isSuccess currentState = true)
  /\ (isSuccess currentState = true ->
      isSuccess (substate (defaultQueryStateSelector currentState lastResult)) = true)
  /\ (let selected := substate (defaultQueryStateSelector currentState lastResult) in
      status selected = status currentState
      /\ originalArgs selected = originalArgs currentState
      /\ requestId selected = requestId currentState
      /\ error selected = error currentState
      /\ startedTimeStamp selected = startedTimeStamp currentState
      /\ fulfilledTimeStamp selected = fulfilledTimeStamp currentState
      /\ isUninitialized selected = isUninitialized currentState
      /\ isError selected = isError currentState).
Proof.
  unfold defaultQueryStateSelector. cbn.
  destruct (isLoading currentState), (isSuccess currentState);
    destruct (ToBoolean _) eqn:Hdata; cbn; repeat split; congruence.
Qed.

(** X8. The data [defaultQueryStateSelector] shows. When the cache entry is
    successful it is the entry's data, and the last result plays no role at
    all. Otherwise it is the data of the last result, unless that is
    [undefined] or [null] (or there is no last result), in which case it is
    the entry's: data once shown stays while the entry has none of its own,
    also when the selector is fed its own result again. *)
Theorem defaultQueryStateSelector_data (currentState : SelectedState)
    (lastResult : option UseQueryStateDefaultResult) :
  (isSuccess currentState = true ->
   defaultQueryStateSelector currentState lastResult
   = defaultQueryStateSelector currentState None
   /\ data (substate (defaultQueryStateSelector currentState lastResult))
      = data currentState)
  /\ (isSuccess currentState = false ->
      data (substate (defaultQueryStateSelector currentState lastResult))
      = if nullish (lastResult_data lastResult) then data currentState
        else lastResult_data lastResult)
  /\ (forall nextState,
        isSuccess nextState = false ->
        nullish (data (substate (defaultQueryStateSelector currentState lastResult)))
          = false ->
        data (substate (defaultQueryStateSelector nextState
                          (Some (defaultQueryStateSelector currentState lastResult))))
        = data (substate (defaultQueryStateSelector currentState lastResult))).
Proof.
  unfold defaultQueryStateSelector, nullish_coalescing. cbn.
  split; [|split].
  - intros ->. destruct (nullish (data currentState)); split; reflexivity.
  - intros ->. reflexivity.
  - intros nextState -> Hshown. rewrite Hshown. reflexivity.
Qed.

(** X9. [noPendingQueryStateSelector] never reports an uninitialized request.
    For an entry that is not uninitialized it is [defaultQueryStateSelector].
    For an uninitialized entry it reports a pending request that is fetching
    and loading, with the data, the success flag and the rest of what
    [defaultQueryStateSelector] selected: here, and only here, [isLoading] can
    come with data to show. *)
Theorem noPendingQueryStateSelector_never_uninitialized (currentState : SelectedState)
    (lastResult : option UseQueryStateDefaultResult) :
  isUninitialized (substate (noPendingQueryStateSelector currentState lastResult)) = false
  /\ (isUninitialized currentState = false ->
      noPendingQueryStateSelector currentState lastResult
      = defaultQueryStateSelector currentState lastResult)
  /\ (isUninitialized currentState = true ->
      status (substate (noPendingQueryStateSelector currentState lastResult)) = pending
      /\ isFetching (noPendingQueryStateSelector currentState lastResult) = true
      /\ isLoading (substate (noPendingQueryStateSelector currentState lastResult)) = true
      /\ data (substate (noPendingQueryStateSelector currentState lastResult))
         = data (substate (defaultQueryStateSelector currentState lastResult))
      /\ isSuccess (substate (noPendingQueryStateSelector currentState lastResult))
         = isSuccess (substate (defaultQueryStateSelector currentState lastResult))
      /\ error (substate (noPendingQueryStateSelector currentState lastResult))
         = error currentState)
  /\ (isLoading (substate (noPendingQueryStateSelector currentState lastResult)) = true ->
      isFetching (noPendingQueryStateSelector currentState lastResult) = true
      /\ (isUninitialized currentState = true
          \/ ToBoolean (data (substate (noPendingQueryStateSelector currentState lastResult)))
             = false)).
Proof.
  unfold noPendingQueryStateSelector.
  change (isUninitialized (substate (defaultQueryStateSelector currentState lastResult)))
    with (isUninitialized currentState).
  destruct (isUninitialized currentState) eqn:Huninitialized.
  - cbn. repeat split; solve [reflexivity | discriminate | auto].
  - split; [exact Huninitialized|]. split; [reflexivity|]. split; [discriminate|].
    unfold defaultQueryStateSelector. cbn.
    destruct (isLoading currentState); destruct (ToBoolean _); cbn;
      intros; split; solve [reflexivity | discriminate | auto].
Qed.

Example first_render_with_earlier_data_is_loading :
  let idle := {| status := uninitialized; originalArgs := VUndefined; requestId := None;
                 data := VUndefined; error := VUndefined; startedTimeStamp := None;
                 fulfilledTimeStamp := None; isUninitialized := true;
                 isLoading := false; isSuccess := false; isError := false |} in
  let shown := {| substate :=
                    {| status := fulfilled; originalArgs := VNum 1%float;
                       requestId := Some "r1"%string; data := VStr "Ada";
                       error := VUndefined; startedTimeStamp := Some t0;
                       fulfilledTimeStamp := Some t0; isUninitialized := false;
                       isLoading := false; isSuccess := true; isError := false |};
                  isFetching := false |} in
  isLoading (substate (noPendingQueryStateSelector idle (Some shown))) = true
  /\ data (substate (noPendingQueryStateSelector idle (Some shown))) = VStr "Ada"
  /\ isLoading (substate (defaultQueryStateSelector idle (Some shown))) = false.
Proof. repeat split. Qed.

(** ** Prefetching from a component *)

Section usePrefetch.

Variable endpointDefinitions : EndpointDefinitions.
Variable serializeQueryArgs : value -> option EndpointDefinition -> string -> string.

#[local] Abbreviation usePrefetch := (usePrefetch endpointDefinitions serializeQueryArgs).
#[local] Abbreviation prefetchThunk :=
  (BuildThunks.prefetchThunk endpointDefinitions serializeQueryArgs).
#[local] Abbreviation initiate := (BuildThunks.initiate endpointDefinitions serializeQueryArgs).

(** X10. The options of a prefetch call are merged over the defaults of the
    hook property by property. Without options at the call site the defaults
    apply as they are. A [force] property at the call site hides the default
    [force] whatever its value, [undefined] included, so that a call with
    [{ force: undefined }] prefetches as if the hook had no default [force];
    and a call with [force: true] dispatches one forced query whatever the
    defaults and the cache are. *)
Theorem usePrefetch_merges_options endpointName defaultOptions arg state now :
  (forall options,
     options = None
     \/ options = Some {| force_property := None; ifOlderThan_property := None |} ->
     usePrefetch endpointName defaultOptions arg options state now
     = prefetchThunk endpointName arg
         (read_options (default {| force_property := None; ifOlderThan_property := None |}
                                defaultOptions))
         state now)
  /\ (forall options property defaultOptions',
        force_property options = Some property ->
        defaultOptions ≫= ifOlderThan_property = defaultOptions' ≫= ifOlderThan_property ->
        usePrefetch endpointName defaultOptions arg (Some options) state now
        = usePrefetch endpointName defaultOptions' arg (Some options) state now)
  /\ (forall options,
        force_property options = Some (Some true) ->
        usePrefetch endpointName defaultOptions arg (Some options) state now
        = [initiate endpointName arg (Some (IsBool true)) now]).
Proof.
  unfold BuildHooks.usePrefetch, spread. split; [|split].
  - intros options [-> | ->]; destruct defaultOptions as [[[f|] [a|]]|]; reflexivity.
  - intros options property defaultOptions' Hforce Hage. cbn [mbind option_bind].
    rewrite Hforce, Hage. reflexivity.
  - intros options Hforce. cbn [mbind option_bind]. rewrite Hforce.
    unfold BuildThunks.prefetchThunk, hasTheForce, read_options. cbn. reflexivity.
Qed.

End usePrefetch.

End selectors.

Example undefined_force_hides_the_default :
  let forced := Some {| BuildHooks.force_property := Some (Some true);
                        BuildHooks.ifOlderThan_property := None |} in
  let undefined_force := Some {| BuildHooks.force_property := Some None;
                                 BuildHooks.ifOlderThan_property := None |} in
  BuildHooks.usePrefetch ∅ serializeByName "getUser" forced (VNum 1%float) None
    getUser_cached t1
  = [initiate ∅ serializeByName "getUser" (VNum 1%float) (Some (IsBool true)) t1]
  /\ BuildHooks.usePrefetch ∅ serializeByName "getUser" forced (VNum 1%float) undefined_force
       getUser_cached t1
     = [initiate ∅ serializeByName "getUser" (VNum 1%float) (Some (IsBool false)) t1].
Proof. split; vm_compute; reflexivity. Qed.

(** ** The order of the calls of an execution *)

Section order_of_calls.

Import TraceReading.

Variable baseQuery : BaseQueryFn.
Variable endpointDefinitions : EndpointDefinitions.

#[local] Abbreviation executeEndpoint := (executeEndpoint baseQuery endpointDefinitions).

(** The transport calls of the executor itself: [baseQuery] on the request
    that the request builder of the endpoint returned, and [queryFn] where
    the endpoint has no request builder. *)
Lemma adds_own_transport arg endpointDefinition :
  endpointDefinitions !! arg_endpointName arg = Some endpointDefinition ->
  adds (fun ev =>
          match ev with
          | EvBaseQuery request extraOptions =>
              exists query,
                EndpointDefinitions.query endpointDefinition = Some query
                /\ query (arg_originalArgs arg) = Normal request
                /\ extraOptions = EndpointDefinitions.extraOptions endpointDefinition
          | EvQueryFn args extraOptions =>
              EndpointDefinitions.query endpointDefinition = None
              /\ is_Some (queryFn endpointDefinition)
              /\ args = arg_originalArgs arg
          | _ => True
          end)
       (executeEndpoint arg).
Proof.
  intros Hdef. unfold BuildThunks.executeEndpoint. rewrite Hdef.
  apply adds_bind; [apply adds_none; reflexivity|]. intros context.
  apply adds_bind.
  { unfold callOnStart. destruct (onStart _); [|apply adds_ret].
    apply adds_call_hook; intros; exact I. }
  intros _. apply adds_try_catch.
  - unfold tryBlock. apply adds_bind.
    { unfold runTransport.
      destruct (query endpointDefinition) as [q|] eqn:Hq;
        [|destruct (queryFn endpointDefinition) as [f|] eqn:Hf].
      - apply adds_call_bind; [exact I|]. intros request Hrequest.
        apply adds_bind; [|intros result; apply adds_ret].
        apply adds_await. simpl. eauto.
      - apply adds_bind; [|intros result; apply adds_ret].
        apply adds_await. simpl. eauto.
      - apply adds_throw. }
    intros transport. destruct (ToBoolean _); [apply adds_throw|].
    apply adds_bind.
    { unfold callOnSuccess. destruct (onSuccess _); [|apply adds_ret].
      apply adds_call_hook; intros; exact I. }
    intros _. apply adds_bind; [apply adds_Date_now; exact (fun _ => I)|]. intros now.
    apply adds_bind; [apply adds_await; exact I|]. intros transformed. apply adds_ret.
  - intros error. unfold catchBlock. apply adds_bind.
    { unfold callOnError. destruct (onError _); [|apply adds_ret].
      apply adds_call_hook; intros; exact I. }
    intros _. destruct error; [apply adds_ret|apply adds_throw].
Qed.

(** X11. An execution only adds to the trace, and the calls the executor
    itself makes follow the text of [executeEndpoint]: [onStart], the request
    builder, the transport, [onSuccess], the clock, [transformResponse],
    [onError], in this order; so the executor makes none of them twice in one
    execution, and [onError], when it is called, is its last call. Its call
    of the transport is a call of [baseQuery] on the request the request
    builder returned, with the extra options of the endpoint, or, for an
    endpoint without request builder, one call of [queryFn]; what [queryFn]
    calls in turn through the callback it is given is not a call of the
    executor and is not counted here. *)
Theorem executeEndpoint_calls_in_order arg w :
  trace (executeEndpoint arg w).2 = trace w ++ events_of (executeEndpoint arg) w
  /\ StronglySorted lt (position <$> calls (events_of (executeEndpoint arg) w))
  /\ NoDup (calls (events_of (executeEndpoint arg) w))
  /\ (forall before after,
        calls (events_of (executeEndpoint arg) w) = before ++ OnError :: after ->
        after = [])
  /\ (forall endpointDefinition,
        endpointDefinitions !! arg_endpointName arg = Some endpointDefinition ->
        (forall request extraOptions,
           EvBaseQuery request extraOptions ∈ events_of (executeEndpoint arg) w ->
           exists query,
             EndpointDefinitions.query endpointDefinition = Some query
             /\ query (arg_originalArgs arg) = Normal request
             /\ extraOptions = EndpointDefinitions.extraOptions endpointDefinition)
        /\ (forall args extraOptions,
              EvQueryFn args extraOptions ∈ events_of (executeEndpoint arg) w ->
              EndpointDefinitions.query endpointDefinition = None
              /\ is_Some (queryFn endpointDefinition)
              /\ args = arg_originalArgs arg)).
Proof.
  destruct (in_order_executeEndpoint baseQuery endpointDefinitions arg w)
    as (events & Htrace & Hsorted & Hrange).
  rewrite (events_of_trace _ _ _ Htrace).
  split; [exact Htrace|]. split; [exact Hsorted|]. split; [|split].
  - apply (NoDup_fmap_1 position), ascending_NoDup, Hsorted.
  - intros before after Hcalls. rewrite Hcalls, fmap_app, fmap_cons in Hsorted, Hrange.
    apply StronglySorted_app_1_r in Hsorted.
    apply StronglySorted_inv in Hsorted as [_ Hafter].
    apply Forall_app in Hrange as [_ Hrange]. apply Forall_cons in Hrange as [_ Hrange].
    destruct after as [|c after]; [reflexivity|].
    rewrite fmap_cons in Hafter, Hrange.
    apply Forall_cons in Hafter as [Hafter _]. apply Forall_cons in Hrange as [Hrange _].
    simpl in Hafter. lia.
  - intros endpointDefinition Hdef.
    destruct (adds_own_transport arg endpointDefinition Hdef w)
      as (events' & Htrace' & Hown).
    rewrite Htrace in Htrace'. apply app_inv_head in Htrace'. subst events'.
    rewrite Forall_forall in Hown.
    split; intros ? ? Hin; exact (Hown _ Hin).
Qed.

End order_of_calls.

(** ** How an execution ends, and what it called *)

Section execution_outcomes.

Import TraceReading.

Variable baseQuery : BaseQueryFn.
Variable endpointDefinitions : EndpointDefinitions.

#[local] Abbreviation executeEndpoint := (executeEndpoint baseQuery endpointDefinitions).
#[local] Abbreviation runTransport := (runTransport baseQuery).
#[local] Abbreviation tryBlock := (tryBlock baseQuery).

(** X12. What an execution has called, by the way it ended. One that
    fulfilled has called the transport and not [onError], and the clock
    reading it reports and the transform are its last two events. One that
    rejected with a value has called the transport, and neither [onSuccess]
    nor the clock nor [transformResponse]; the value is truthy. So an
    execution that never called the transport ended by throwing. *)
Theorem executeEndpoint_outcome_calls arg w :
  (forall r,
     (executeEndpoint arg w).1 = Returned (FulfillWith r) ->
     Transport ∈ calls (events_of (executeEndpoint arg) w)
     /\ (OnError ∉ calls (events_of (executeEndpoint arg) w))
     /\ exists before data meta,
          events_of (executeEndpoint arg) w
          = before ++ [EvDateNow (fulfilledTimeStamp r); EvTransformResponse data meta])
  /\ (forall value,
        (executeEndpoint arg w).1 = Returned (RejectWithValue value) ->
        ToBoolean value = true
        /\ Transport ∈ calls (events_of (executeEndpoint arg) w)
        /\ (OnSuccess ∉ calls (events_of (executeEndpoint arg) w))
        /\ (DateNow ∉ calls (events_of (executeEndpoint arg) w))
        /\ (TransformResponse ∉ calls (events_of (executeEndpoint arg) w)))
  /\ (Transport ∉ calls (events_of (executeEndpoint arg) w) ->
      exists e, (executeEndpoint arg w).1 = Threw e).
Proof.
  assert (Hfulfilled : forall r,
    (executeEndpoint arg w).1 = Returned (FulfillWith r) ->
    Transport ∈ calls (events_of (executeEndpoint arg) w)
    /\ (OnError ∉ calls (events_of (executeEndpoint arg) w))
    /\ exists before data meta,
         events_of (executeEndpoint arg) w
         = before ++ [EvDateNow (fulfilledTimeStamp r); EvTransformResponse data meta]).
  { intros r Hr.
    destruct (executeEndpoint arg w) as [outcome w'] eqn:Hrun. cbn [fst] in Hr. subst outcome.
    destruct (executeEndpoint_fulfilled_inv _ _ _ _ _ _ Hrun)
      as (endpointDefinition & w1 & response & transformResponse & w2 & w3
          & _ & Hstart & Htransport & _ & Hsuccess & _ & Hstamp & Htrace).
    destruct (executeEndpoint_first_steps _ _ _ _ _ _ _ Hstart Htransport)
      as (events1 & events2 & Htrace2 & Hrange1 & Hrange2 & Hin).
    destruct (in_order_callOnSuccess endpointDefinition arg (fresh (dom (heap w)))
                response w2) as (events3 & Htrace3 & _ & Hrange3).
    rewrite Hsuccess in Htrace3. cbn [snd] in Htrace3.
    assert (Hevents : events_of (executeEndpoint arg) w
                      = (events1 ++ events2 ++ events3)
                        ++ [EvDateNow (fulfilledTimeStamp r);
                            EvTransformResponse (BaseQueryTypes.data response)
                                                (meta response)]).
    { apply events_of_trace. rewrite Hrun. cbn [snd].
      rewrite Htrace, Htrace3, Htrace2, Hstamp, <- !app_assoc. reflexivity. }
    rewrite Hevents, !calls_app. split; [rewrite !elem_of_app; tauto|]. split; [|eauto].
    rewrite !elem_of_app. intros [[Hc | [Hc | Hc]] | Hc].
    - apply (in_order_range _ _ _ _ Hrange1) in Hc. simpl in Hc. lia.
    - apply (in_order_range _ _ _ _ Hrange2) in Hc. simpl in Hc. lia.
    - apply (in_order_range _ _ _ _ Hrange3) in Hc. simpl in Hc. lia.
    - cbn in Hc. rewrite !elem_of_cons, elem_of_nil in Hc.
      destruct Hc as [Hc | [Hc | []]]; discriminate. }
  assert (Hrejected : forall value,
    (executeEndpoint arg w).1 = Returned (RejectWithValue value) ->
    ToBoolean value = true
    /\ Transport ∈ calls (events_of (executeEndpoint arg) w)
    /\ (OnSuccess ∉ calls (events_of (executeEndpoint arg) w))
    /\ (DateNow ∉ calls (events_of (executeEndpoint arg) w))
    /\ (TransformResponse ∉ calls (events_of (executeEndpoint arg) w))).
  { intros value Hvalue.
    destruct (executeEndpoint arg w) as [outcome w'] eqn:Hrun.
    cbn [fst] in Hvalue. subst outcome.
    destruct (executeEndpoint_rejected_inv _ _ _ _ _ _ Hrun)
      as (endpointDefinition & w1 & response & transformResponse & w2
          & _ & Hstart & Htransport & Htruthy & -> & HonError).
    split; [exact Htruthy|].
    destruct (executeEndpoint_first_steps _ _ _ _ _ _ _ Hstart Htransport)
      as (events1 & events2 & Htrace2 & Hrange1 & Hrange2 & Hin).
    destruct (in_order_callOnError endpointDefinition arg (fresh (dom (heap w)))
                (HandledError (BaseQueryTypes.error response) (meta response)) w2)
      as (events3 & Htrace3 & _ & Hrange3).
    rewrite HonError in Htrace3. cbn [snd] in Htrace3.
    assert (Hevents : events_of (executeEndpoint arg) w = events1 ++ events2 ++ events3).
    { apply events_of_trace. rewrite Hrun. cbn [snd].
      rewrite Htrace3, Htrace2, <- !app_assoc. reflexivity. }
    rewrite Hevents, !calls_app. split; [rewrite !elem_of_app; tauto|].
    repeat split; rewrite !elem_of_app; intros [Hc | [Hc | Hc]];
      solve [ apply (in_order_range _ _ _ _ Hrange1) in Hc; simpl in Hc; lia
            | apply (in_order_range _ _ _ _ Hrange2) in Hc; simpl in Hc; lia
            | apply (in_order_range _ _ _ _ Hrange3) in Hc; simpl in Hc; lia ]. }
  split; [exact Hfulfilled|]. split; [exact Hrejected|].
  intros Hnone.
  assert (Hthrew : forall outcome,
            (executeEndpoint arg w).1 = outcome -> exists e, outcome = Threw e).
  { intros [[r|value]|e] Houtcome; [| |eauto].
    - destruct (Hfulfilled r Houtcome) as [Hin _]. contradiction.
    - destruct (Hrejected value Houtcome) as (_ & Hin & _). contradiction. }
  exact (Hthrew _ eq_refl).
Qed.

(** X13. An execution fulfils only along one path: the endpoint is defined,
    [onStart] returned, the transport resolved to a result whose [error] is
    falsy, [onSuccess] returned and the transform resolved. The value it
    fulfils with is what the transform resolved to, which is the data of the
    transport as it is for an endpoint with [queryFn] or without a
    [transformResponse] of its own, and the time stamp is the clock as it
    stood when [onSuccess] had returned. *)
Theorem executeEndpoint_fulfils_only_if arg w r :
  (executeEndpoint arg w).1 = Returned (FulfillWith r) ->
  exists endpointDefinition w1 response transformResponse w2 w3,
    endpointDefinitions !! arg_endpointName arg = Some endpointDefinition
    /\ callOnStart endpointDefinition arg (fresh (dom (heap w))) (new_context w).2
       = (Returned tt, w1)
    /\ runTransport endpointDefinition arg w1 = (Returned (response, transformResponse), w2)
    /\ ToBoolean (BaseQueryTypes.error response) = false
    /\ callOnSuccess endpointDefinition arg (fresh (dom (heap w))) response w2
       = (Returned tt, w3)
    /\ settles (transformResponse (BaseQueryTypes.data response) (meta response))
       = Normal (result r)
    /\ fulfilledTimeStamp r = clock w3
    /\ (query endpointDefinition = None
        \/ EndpointDefinitions.transformResponse endpointDefinition = None ->
        result r = BaseQueryTypes.data response).
Proof.
  intros Hr.
  destruct (executeEndpoint arg w) as [outcome w'] eqn:Hrun. cbn [fst] in Hr. subst outcome.
  destruct (executeEndpoint_fulfilled_inv _ _ _ _ _ _ Hrun)
    as (endpointDefinition & w1 & response & transformResponse & w2 & w3
        & Hdef & Hstart & Htransport & Hfalsy & Hsuccess & Hsettles & Hstamp & _).
  exists endpointDefinition, w1, response, transformResponse, w2, w3.
  split; [exact Hdef|]. split; [exact Hstart|]. split; [exact Htransport|].
  split; [exact Hfalsy|]. split; [exact Hsuccess|]. split; [exact Hsettles|].
  split; [exact Hstamp|].
  intros Hdefault.
  rewrite (runTransport_transformResponse _ _ _ _ _ _ _ Htransport) in Hsettles.
  assert (Hnormal : Normal (defaultTransformResponse (BaseQueryTypes.data response))
                    = Normal (result r)).
  { destruct Hdefault as [Hnone | Hnone]; rewrite Hnone in Hsettles;
      [|destruct (query endpointDefinition)]; exact Hsettles. }
  injection Hnormal as <-. reflexivity.
Qed.

(** X14. What is missing is a [TypeError]. For an endpoint that is not
    defined the execution throws it before any call is made, having
    allocated its context and nothing more. For an endpoint that has neither
    [query] nor [queryFn] the [try] block throws it where the transport would
    be called, so that the execution goes on with the [catch] clause, and the
    transport is not among its calls. *)
Theorem executeEndpoint_missing_pieces arg w :
  (endpointDefinitions !! arg_endpointName arg = None ->
   executeEndpoint arg w
   = (Threw (OtherError TypeError),
      {| heap := <[fresh (dom (heap w)) := ∅]> (heap w);
         clock := clock w;
         trace := trace w |})
   /\ events_of (executeEndpoint arg) w = [])
  /\ (forall endpointDefinition w1,
        endpointDefinitions !! arg_endpointName arg = Some endpointDefinition ->
        query endpointDefinition = None ->
        queryFn endpointDefinition = None ->
        callOnStart endpointDefinition arg (fresh (dom (heap w))) (new_context w).2
          = (Returned tt, w1) ->
        tryBlock endpointDefinition arg (fresh (dom (heap w))) w1
          = (Threw (OtherError TypeError), w1)
        /\ executeEndpoint arg w
           = catchBlock endpointDefinition arg (fresh (dom (heap w)))
               (OtherError TypeError) w1
        /\ (Transport ∉ calls (events_of (executeEndpoint arg) w))).
Proof.
  split.
  - intros Hdef. rewrite (executeEndpoint_undefined _ _ _ _ Hdef).
    split; [reflexivity|].
    apply events_of_trace. rewrite (executeEndpoint_undefined _ _ _ _ Hdef).
    cbn. rewrite app_nil_r. reflexivity.
  - intros endpointDefinition w1 Hdef Hquery HqueryFn Hstart.
    assert (Htry : tryBlock endpointDefinition arg (fresh (dom (heap w))) w1
                   = (Threw (OtherError TypeError), w1)).
    { rewrite tryBlock_unfold. unfold BuildThunks.runTransport.
      rewrite Hquery, HqueryFn. reflexivity. }
    assert (Hrun : executeEndpoint arg w
                   = catchBlock endpointDefinition arg (fresh (dom (heap w)))
                       (OtherError TypeError) w1).
    { rewrite (executeEndpoint_defined _ _ _ _ _ Hdef), Hstart, Htry. reflexivity. }
    split; [exact Htry|]. split; [exact Hrun|].
    destruct (in_order_callOnStart endpointDefinition arg (fresh (dom (heap w)))
                (new_context w).2) as (events1 & Htrace1 & _ & Hrange1).
    rewrite Hstart in Htrace1. cbn [snd new_context trace] in Htrace1.
    destruct (in_order_catchBlock endpointDefinition arg (fresh (dom (heap w)))
                (OtherError TypeError) w1) as (events2 & Htrace2 & _ & Hrange2).
    rewrite (events_of_trace _ _ (events1 ++ events2)).
    2:{ rewrite Hrun, Htrace2, Htrace1, <- app_assoc. reflexivity. }
    rewrite calls_app, elem_of_app. intros [Hc | Hc].
    + apply (in_order_range _ _ _ _ Hrange1) in Hc. simpl in Hc. lia.
    + apply (in_order_range _ _ _ _ Hrange2) in Hc. simpl in Hc. lia.
Qed.

(** X15. The executor reads the endpoint name and the original argument of
    its argument and nothing else: the cache key, the [subscribe] and
    [forceRefetch] flags and the time stamp play no role, and a query and a
    mutation argument that name the same endpoint with the same argument are
    executed alike. *)
Theorem executeEndpoint_reads_name_and_args arg arg' w :
  arg_endpointName arg = arg_endpointName arg' ->
  arg_originalArgs arg = arg_originalArgs arg' ->
  executeEndpoint arg w = executeEndpoint arg' w.
Proof.
  intros Hname Hargs.
  unfold BuildThunks.executeEndpoint, BuildThunks.tryBlock, catchBlock,
    BuildThunks.runTransport, callOnStart, callOnSuccess, callOnError.
  rewrite Hname, Hargs. reflexivity.
Qed.

End execution_outcomes.

Lemma executeEndpoint_fulfils_only_if_witness :
  exists endpointDefinition w1 response transformResponse w2 w3,
    endpoints !! "query"%string = Some endpointDefinition
    /\ callOnStart endpointDefinition (thunk_arg "query") (fresh (dom (heap quiet)))
         (new_context quiet).2
       = (Returned tt, w1)
    /\ runTransport answering endpointDefinition (thunk_arg "query") w1
       = (Returned (response, transformResponse), w2)
    /\ ToBoolean (BaseQueryTypes.error response) = false
    /\ callOnSuccess endpointDefinition (thunk_arg "query") (fresh (dom (heap quiet)))
         response w2
       = (Returned tt, w3)
    /\ settles (transformResponse (BaseQueryTypes.data response) (meta response))
       = Normal (VObj [("body"%string, success_response)])
    /\ PrimFloat.add (PrimFloat.add (PrimFloat.add t0 1%float) 25%float) 3%float
       = clock w3
    /\ (query endpointDefinition = None
        \/ EndpointDefinitions.transformResponse endpointDefinition = None ->
        VObj [("body"%string, success_response)] = BaseQueryTypes.data response).
Proof.
  apply (executeEndpoint_fulfils_only_if answering endpoints (thunk_arg "query") quiet
           {| fulfilledTimeStamp :=
                PrimFloat.add (PrimFloat.add (PrimFloat.add t0 1%float) 25%float) 3%float;
              result := VObj [("body"%string, success_response)] |}).
  vm_compute. reflexivity.
Defined.

Lemma executeEndpoint_reads_name_and_args_witness :
  executeEndpoint answering endpoints mutation_arg quiet
  = executeEndpoint answering endpoints
      (OfQuery {| queryCacheKey := "updateUser(1)";
                  subscribe := Some false;
                  forceRefetch := Some (IsBool true);
                  originalArgs := VNum 1%float;
                  endpointName := "updateUser";
                  startedTimeStamp := t1 |})
      quiet.
Proof.
  apply (executeEndpoint_reads_name_and_args answering endpoints); reflexivity.
Defined.
